(** * Todo application: task engine and flat-file store

    A shallow embedding of the console variant (utils/models.py,
    utils/storage.py, skills/*.py) and of the web variant's task
    requests (backend/skills/validation_skill.py and db_crud_skill.py,
    backend/agents/task_orchestrator.py, the task endpoints of
    backend/main.py), followed by the properties established about
    them.

    Python strings are modelled as Rocq strings whose characters stand
    for code points below 256; [len] is [String.length]. *)

From Stdlib Require Import ZArith List Bool Ascii String Lia Arith.
From Stdlib Require Import Sorting.Sorted Sorting.Permutation.
From Stdlib Require Import Numbers.DecimalString Numbers.DecimalN.
From Stdlib Require Import Structures.OrderedTypeEx.
Import ListNotations.

Open Scope string_scope.
Open Scope Z_scope.

(* ================================================================== *)
(** ** Python string primitives *)

Module PyStr.

(** [str.isspace] on one code point below 256. *)
Definition isspace (c : ascii) : bool :=
  let n := nat_of_ascii c in
  ((9 <=? n) && (n <=? 13) || (28 <=? n) && (n <=? 32)
   || (n =? 133) || (n =? 160))%nat.

Fixpoint lstrip (s : string) : string :=
  match s with
  | EmptyString => EmptyString
  | String c s' => if isspace c then lstrip s' else s
  end.

(** Drops trailing whitespace: a character is kept when it is not a
    space or when something survives after it. *)
Fixpoint rstrip (s : string) : string :=
  match s with
  | EmptyString => EmptyString
  | String c s' =>
      match rstrip s' with
      | EmptyString => if isspace c then EmptyString else String c EmptyString
      | r => String c r
      end
  end.

(** [s.strip()] *)
Definition strip (s : string) : string := rstrip (lstrip s).

(** [c.lower()] on one code point below 256. *)
Definition lower_char (c : ascii) : ascii :=
  let n := nat_of_ascii c in
  if ((65 <=? n) && (n <=? 90)
      || (192 <=? n) && (n <=? 222) && negb (n =? 215))%nat
  then ascii_of_nat (n + 32) else c.

Fixpoint lower (s : string) : string :=
  match s with
  | EmptyString => EmptyString
  | String c s' => String (lower_char c) (lower s')
  end.

Fixpoint repeat (c : ascii) (n : nat) : string :=
  match n with
  | O => EmptyString
  | S k => String c (repeat c k)
  end.

Fixpoint replace_from (old new : string) (skip : nat) (s : string) : string :=
  match s with
  | EmptyString => EmptyString
  | String c s' =>
      match skip with
      | S k => replace_from old new k s'
      | O =>
          if prefix old s
          then new ++ replace_from old new (String.length old - 1) s'
          else String c (replace_from old new O s')
      end
  end.

(** [s.replace(old, new)] for a non-empty [old]: leftmost occurrences,
    not overlapping.  (With an empty [old] Python interleaves [new];
    the program never does that and [s] is returned as it is.) *)
Definition replace (old new s : string) : string :=
  match old with
  | EmptyString => s
  | _ => replace_from old new O s
  end.

(** [c in s] *)
Fixpoint contains_char (c : ascii) (s : string) : bool :=
  match s with
  | EmptyString => false
  | String d s' => Ascii.eqb c d || contains_char c s'
  end.


(** [str(n)] for an integer. *)
Definition of_Z (n : Z) : string := NilEmpty.string_of_int (Z.to_int n).

(** ["%0<w>d" % n] for [0 <= n]. *)
Definition zfill (w : nat) (n : Z) : string :=
  let s := NilEmpty.string_of_uint (N.to_uint (Z.to_N n)) in
  repeat "0" (w - String.length s) ++ s.

(** [sep.join(l)] *)
Fixpoint join (sep : string) (l : list string) : string :=
  match l with
  | [] => EmptyString
  | [x] => x
  | x :: xs => x ++ sep ++ join sep xs
  end.

(** Truthiness of a string: [bool(s)]. *)
Definition truthy (s : string) : bool :=
  match s with EmptyString => false | _ => true end.

End PyStr.

(* ================================================================== *)
(** ** Web variant: backend/skills/validation_skill.py *)

Module Web.

(** [validate_task_title(title)]; [None] is Python's [None]. *)
Definition validate_task_title (title : option string) : bool * option string :=
  match title with
  | None => (false, Some "Title is required and cannot be empty")
  | Some t =>
      if String.eqb t "" then
        (false, Some "Title is required and cannot be empty")
      else if negb (PyStr.truthy (PyStr.strip t)) then
        (false, Some "Title is required and cannot be empty")
      else if (500 <? String.length t)%nat then
        (false, Some "Title cannot exceed 500 characters")
      else (true, None)
  end.

(** [validate_task_category(category)] *)
Definition validate_task_category (category : option string) : bool * option string :=
  match category with
  | None => (true, None)
  | Some c =>
      if String.eqb c "" then (true, None)
      else if (100 <? String.length c)%nat then
        (false, Some "Category cannot exceed 100 characters")
      else (true, None)
  end.

End Web.

(* ================================================================== *)
(** ** Exceptions *)

Inductive exn_kind :=
| ValueError | JSONDecodeError | StorageError | PermissionError
| FileNotFoundError | OSError | TypeError | AttributeError.

Record exn := mk_exn { kind : exn_kind; msg : string }.

Definition exn_kind_eqb (a b : exn_kind) : bool :=
  match a, b with
  | ValueError, ValueError | JSONDecodeError, JSONDecodeError
  | StorageError, StorageError | PermissionError, PermissionError
  | FileNotFoundError, FileNotFoundError | OSError, OSError
  | TypeError, TypeError | AttributeError, AttributeError => true
  | _, _ => false
  end.

(** [isinstance(e, K)] along Python's class hierarchy:
    [JSONDecodeError] derives from [ValueError], [PermissionError] and
    [FileNotFoundError] from [OSError]. *)
Definition isinstance (e : exn) (k : exn_kind) : bool :=
  exn_kind_eqb (kind e) k ||
  match kind e, k with
  | JSONDecodeError, ValueError => true
  | PermissionError, OSError => true
  | FileNotFoundError, OSError => true
  | _, _ => false
  end.

(** The result of a computation that may raise. *)
Inductive outcome (A : Type) :=
| Ok (a : A)
| Raise (e : exn).
Arguments Ok {A} a.
Arguments Raise {A} e.

Definition obind {A B} (m : outcome A) (f : A -> outcome B) : outcome B :=
  match m with
  | Ok a => f a
  | Raise e => Raise e
  end.

Notation "'let?' x ':=' m 'in' k" := (obind m (fun x => k))
  (at level 61, x name, m at next level, right associativity).

(* ================================================================== *)
(** ** The standard library's datetime

    [datetime.fromisoformat] and [datetime.isoformat] belong to Python's
    standard library, not to the repository.  They are modelled after
    the reference implementation Lib/datetime.py of CPython 3.7 to 3.10
    (grammar [YYYY-MM-DD[*HH[:MM[:SS[.fff[fff]]]][+HH:MM[:SS[.ffffff]]]]]),
    every numeric field being a run of decimal digits. *)

Module PyDatetime.

(** [tzinfo] is [None] for a naive value and otherwise the fixed offset
    from UTC in microseconds ([Some 0] is [timezone.utc]). *)
Record datetime := mk_datetime {
  year : Z; month : Z; day : Z;
  hour : Z; minute : Z; second : Z; microsecond : Z;
  tzinfo : option Z
}.

Definition is_leap (y : Z) : bool :=
  (y mod 4 =? 0) && (negb (y mod 100 =? 0) || (y mod 400 =? 0)).

Definition DAYS_IN_MONTH : list Z :=
  [0; 31; 28; 31; 30; 31; 30; 31; 31; 30; 31; 30; 31].

Definition DAYS_BEFORE_MONTH : list Z :=
  [0; 0; 31; 59; 90; 120; 151; 181; 212; 243; 273; 304; 334].

Definition days_in_month (y m : Z) : Z :=
  if (m =? 2) && is_leap y then 29 else nth (Z.to_nat m) DAYS_IN_MONTH 0.

Definition days_before_year (y : Z) : Z :=
  let y := y - 1 in y * 365 + y / 4 - y / 100 + y / 400.

Definition days_before_month (y m : Z) : Z :=
  nth (Z.to_nat m) DAYS_BEFORE_MONTH 0
  + (if (2 <? m) && is_leap y then 1 else 0).

Definition ymd2ord (y m d : Z) : Z :=
  days_before_year y + days_before_month y m + d.

Definition US_PER_SECOND : Z := 1000000.
Definition US_PER_DAY : Z := 86400 * US_PER_SECOND.

(** Microseconds of the wall-clock reading since the start of 0001-01-01;
    the time zone is not looked at ([dt.replace(tzinfo=None)]). *)
Definition naive_us (dt : datetime) : Z :=
  ((ymd2ord (year dt) (month dt) (day dt) * 86400
    + hour dt * 3600 + minute dt * 60 + second dt) * US_PER_SECOND)
  + microsecond dt.

(** [(a.replace(tzinfo=None) - b.replace(tzinfo=None)).days]:
    [timedelta] normalises with a floor division. *)
Definition sub_days (a b : datetime) : Z :=
  (naive_us a - naive_us b) / US_PER_DAY.

Definition digit_val (c : ascii) : option Z :=
  let n := nat_of_ascii c in
  if ((48 <=? n) && (n <=? 57))%nat then Some (Z.of_nat (n - 48)) else None.

Fixpoint parse_digits_acc (acc : Z) (s : string) : option Z :=
  match s with
  | EmptyString => Some acc
  | String c s' =>
      match digit_val c with
      | Some d => parse_digits_acc (acc * 10 + d) s'
      | None => None
      end
  end.

(** [int(s)] on a non-empty run of digits. *)
Definition parse_int (s : string) : option Z :=
  match s with
  | EmptyString => None
  | _ => parse_digits_acc 0 s
  end.

(** [s.find(c)] *)
Fixpoint find_char (c : ascii) (s : string) : option nat :=
  match s with
  | EmptyString => None
  | String d s' =>
      if Ascii.eqb c d then Some O
      else option_map S (find_char c s')
  end.

Definition invalid {A} (s : string) : outcome A :=
  Raise (mk_exn ValueError ("Invalid isoformat string: " ++ s)).

Definition of_option {A} (whole : string) (o : option A) : outcome A :=
  match o with Some a => Ok a | None => invalid whole end.

(** [_parse_isoformat_date] on the first ten characters. *)
Definition parse_isoformat_date (d : string) : option (Z * Z * Z) :=
  if negb (String.length d =? 10)%nat then None else
  match parse_int (substring 0 4 d), parse_int (substring 5 2 d),
        parse_int (substring 8 2 d) with
  | Some y, Some m, Some dd =>
      if String.eqb (substring 4 1 d) "-" && String.eqb (substring 7 1 d) "-"
      then Some (y, m, dd) else None
  | _, _, _ => None
  end.

(** The fraction [.fff[fff]] that may follow the seconds, from position
    [pos] of [t]. *)
Definition parse_fraction (t : string) (pos : nat) : option Z :=
  let len := String.length t in
  if (pos <? len)%nat then
    if negb (String.eqb (substring pos 1 t) ".") then None else
    let rem := (len - (pos + 1))%nat in
    match parse_int (substring (pos + 1) rem t) with
    | Some us =>
        if (rem =? 3)%nat then Some (us * 1000)
        else if (rem =? 6)%nat then Some us
        else None
    | None => None
    end
  else Some 0.

(** [_parse_hh_mm_ss_ff]: [HH[:MM[:SS[.fff[fff]]]]], the loop over the
    three components unrolled. *)
Definition parse_hh_mm_ss_ff (t : string) : option (Z * Z * Z * Z) :=
  let len := String.length t in
  if (len <? 2)%nat then None else
  match parse_int (substring 0 2 t) with
  | None => None
  | Some hh =>
    let next := substring 2 1 t in
    if String.eqb next "" then Some (hh, 0, 0, 0)
    else if negb (String.eqb next ":") then None
    else if (len - 3 <? 2)%nat then None else
    match parse_int (substring 3 2 t) with
    | None => None
    | Some mm =>
      let next := substring 5 1 t in
      if String.eqb next "" then Some (hh, mm, 0, 0)
      else if negb (String.eqb next ":") then None
      else if (len - 6 <? 2)%nat then None else
      match parse_int (substring 6 2 t) with
      | None => None
      | Some ss =>
          match parse_fraction t 8 with
          | Some us => Some (hh, mm, ss, us)
          | None => None
          end
      end
    end
  end.

(** [tstr.find('-') + 1 or tstr.find('+') + 1], as the index of the
    sign itself. *)
Definition tz_sign_pos (t : string) : option nat :=
  match find_char "-" t with
  | Some i => Some i
  | None => find_char "+" t
  end.

(** [_parse_isoformat_time]: the clock fields and the [tzinfo]. *)
Definition parse_isoformat_time (t : string)
  : option (Z * Z * Z * Z * option Z) :=
  let len := String.length t in
  if (len <? 2)%nat then None else
  match tz_sign_pos t with
  | None =>
      match parse_hh_mm_ss_ff t with
      | Some (hh, mm, ss, us) => Some (hh, mm, ss, us, None)
      | None => None
      end
  | Some i =>
      match parse_hh_mm_ss_ff (substring 0 i t) with
      | None => None
      | Some (hh, mm, ss, us) =>
          let tzstr := substring (i + 1) (len - (i + 1)) t in
          let tzlen := String.length tzstr in
          if negb ((tzlen =? 5) || (tzlen =? 8) || (tzlen =? 15))%nat
          then None else
          match parse_hh_mm_ss_ff tzstr with
          | None => None
          | Some (th, tm, ts, tu) =>
              if (th =? 0) && (tm =? 0) && (ts =? 0) && (tu =? 0)
              then Some (hh, mm, ss, us, Some 0)
              else
                let sign := if String.eqb (substring i 1 t) "-" then -1 else 1 in
                let td := sign * ((th * 3600 + tm * 60 + ts) * US_PER_SECOND + tu) in
                (* timezone(td) wants -24h < td < 24h *)
                if (- US_PER_DAY <? td) && (td <? US_PER_DAY)
                then Some (hh, mm, ss, us, Some td) else None
          end
      end
  end.

(** The range checks of the [datetime] constructor. *)
Definition check_fields (dt : datetime) : bool :=
  (1 <=? year dt) && (year dt <=? 9999)
  && (1 <=? month dt) && (month dt <=? 12)
  && (1 <=? day dt) && (day dt <=? days_in_month (year dt) (month dt))
  && (0 <=? hour dt) && (hour dt <=? 23)
  && (0 <=? minute dt) && (minute dt <=? 59)
  && (0 <=? second dt) && (second dt <=? 59)
  && (0 <=? microsecond dt) && (microsecond dt <=? 999999).

(** [datetime.fromisoformat(s)]: the date is [s[0:10]], [s[10]] is any
    separator and the time is [s[11:]]. *)
Definition fromisoformat (s : string) : outcome datetime :=
  let dstr := substring 0 10 s in
  let tstr := substring 11 (String.length s - 11) s in
  let? ymd := of_option s (parse_isoformat_date dstr) in
  let? tc := (if PyStr.truthy tstr
              then of_option s (parse_isoformat_time tstr)
              else Ok (0, 0, 0, 0, None)) in
  let '(y, m, d) := ymd in
  let '(hh, mm, ss, us, tz) := tc in
  let dt := mk_datetime y m d hh mm ss us tz in
  if check_fields dt then Ok dt
  else Raise (mk_exn ValueError "field out of range").

(** [_format_offset] *)
Definition format_offset (off : option Z) : string :=
  match off with
  | None => ""
  | Some o =>
      let sign := if o <? 0 then "-" else "+" in
      let a := Z.abs o in
      let hh := a / (3600 * US_PER_SECOND) in
      let r := a mod (3600 * US_PER_SECOND) in
      let mm := r / (60 * US_PER_SECOND) in
      let r2 := r mod (60 * US_PER_SECOND) in
      let ss := r2 / US_PER_SECOND in
      let us := r2 mod US_PER_SECOND in
      sign ++ PyStr.zfill 2 hh ++ ":" ++ PyStr.zfill 2 mm
      ++ (if negb (r2 =? 0) then ":" ++ PyStr.zfill 2 ss else "")
      ++ (if negb (us =? 0) then "." ++ PyStr.zfill 6 us else "")
  end.

(** The part of [isoformat()] before the offset. *)
Definition isoformat_naive (dt : datetime) : string :=
  PyStr.zfill 4 (year dt) ++ "-" ++ PyStr.zfill 2 (month dt) ++ "-"
  ++ PyStr.zfill 2 (day dt) ++ "T"
  ++ PyStr.zfill 2 (hour dt) ++ ":" ++ PyStr.zfill 2 (minute dt) ++ ":"
  ++ PyStr.zfill 2 (second dt)
  ++ (if negb (microsecond dt =? 0)
      then "." ++ PyStr.zfill 6 (microsecond dt) else "").

(** [dt.isoformat()] *)
Definition isoformat (dt : datetime) : string :=
  isoformat_naive dt ++ format_offset (tzinfo dt).

End PyDatetime.

(* ================================================================== *)
(** ** utils/models.py: enumerations, records, validators *)

Module Models.

Inductive Priority := HIGH | MEDIUM | LOW.

Inductive Status := PENDING | IN_PROGRESS | COMPLETED.

(** The [value] of a str-backed enum member. *)
Definition Priority_value (p : Priority) : string :=
  match p with HIGH => "high" | MEDIUM => "medium" | LOW => "low" end.

Definition Status_value (s : Status) : string :=
  match s with
  | PENDING => "pending" | IN_PROGRESS => "in_progress" | COMPLETED => "completed"
  end.

(** [cls(v)]: the member whose value is [v]. *)
Definition Priority_of_value (v : string) : option Priority :=
  if String.eqb v "high" then Some HIGH
  else if String.eqb v "medium" then Some MEDIUM
  else if String.eqb v "low" then Some LOW
  else None.

Definition Status_of_value (v : string) : option Status :=
  if String.eqb v "pending" then Some PENDING
  else if String.eqb v "in_progress" then Some IN_PROGRESS
  else if String.eqb v "completed" then Some COMPLETED
  else None.

Definition Priority_eqb (a b : Priority) : bool :=
  match a, b with
  | HIGH, HIGH | MEDIUM, MEDIUM | LOW, LOW => true
  | _, _ => false
  end.

Definition Status_eqb (a b : Status) : bool :=
  match a, b with
  | PENDING, PENDING | IN_PROGRESS, IN_PROGRESS | COMPLETED, COMPLETED => true
  | _, _ => false
  end.

(** [Priority.from_string(value)] *)
Definition Priority_from_string (value : string) : outcome Priority :=
  match Priority_of_value (PyStr.lower value) with
  | Some p => Ok p
  | None =>
      Raise (mk_exn ValueError
        ("Invalid priority: " ++ value ++ ". Must be one of: "
         ++ PyStr.join ", " (map Priority_value [HIGH; MEDIUM; LOW])))
  end.

(** [Status.from_string(value)] *)
Definition Status_from_string (value : string) : outcome Status :=
  match Status_of_value (PyStr.lower value) with
  | Some st => Ok st
  | None =>
      Raise (mk_exn ValueError
        ("Invalid status: " ++ value ++ ". Must be one of: "
         ++ PyStr.join ", " (map Status_value [PENDING; IN_PROGRESS; COMPLETED])))
  end.

Definition DEFAULT_CATEGORY : string := "general".
Definition MAX_TITLE_LENGTH : nat := 200.
Definition MAX_CATEGORY_LENGTH : nat := 50.

Definition ERR_NOT_FOUND : string := "TASK_NOT_FOUND".
Definition ERR_VALIDATION : string := "VALIDATION_ERROR".
Definition ERR_STORAGE : string := "STORAGE_ERROR".
Definition ERR_INVALID_INPUT : string := "INVALID_INPUT".
Definition ERR_NO_CHANGES : string := "NO_CHANGES_PROVIDED".

(** The dataclass [Task]. *)
Record Task := mk_Task {
  id : Z;
  title : string;
  priority : Priority;
  category : string;
  status : Status;
  completed : bool;
  created_at : string;
  updated_at : option string;
  completed_at : option string;
  due_date : option string
}.

(** A task as the store holds it: the JSON object written by
    [Task.to_dict], with the enumerations as their string values. *)
Record task_dict := mk_task_dict {
  d_id : Z;
  d_title : string;
  d_priority : string;
  d_category : string;
  d_status : string;
  d_completed : bool;
  d_created_at : string;
  d_updated_at : option string;
  d_completed_at : option string;
  d_due_date : option string
}.

(** [Task(...)] followed by [__post_init__].  The priority and the
    status arrive as strings: a member of a str-backed enum is itself a
    [str], so [__post_init__] sends both through [from_string] either
    way. *)
Definition Task_init (i : Z) (ttl prio cat st : string) (done : bool)
    (created : string) (updated finished due : option string) : outcome Task :=
  let? p := Priority_from_string prio in
  let? s := Status_from_string st in
  let ttl' := PyStr.strip ttl in
  if negb (PyStr.truthy ttl') then
    Raise (mk_exn ValueError "Title cannot be empty")
  else if (MAX_TITLE_LENGTH <? String.length ttl')%nat then
    Raise (mk_exn ValueError
      ("Title cannot exceed " ++ PyStr.of_Z (Z.of_nat MAX_TITLE_LENGTH) ++ " characters"))
  else if (MAX_CATEGORY_LENGTH <? String.length cat)%nat then
    Raise (mk_exn ValueError
      ("Category cannot exceed " ++ PyStr.of_Z (Z.of_nat MAX_CATEGORY_LENGTH) ++ " characters"))
  else Ok (mk_Task i ttl' p cat s done created updated finished due).

(** [Task.from_dict(data)] *)
Definition from_dict (d : task_dict) : outcome Task :=
  Task_init (d_id d) (d_title d) (d_priority d) (d_category d) (d_status d)
    (d_completed d) (d_created_at d) (d_updated_at d) (d_completed_at d)
    (d_due_date d).

(** [task.to_dict()] *)
Definition to_dict (t : Task) : task_dict :=
  mk_task_dict (id t) (title t) (Priority_value (priority t)) (category t)
    (Status_value (status t)) (completed t) (created_at t) (updated_at t)
    (completed_at t) (due_date t).

(** [datetime.utcnow().isoformat() + "Z"] for the clock reading [now]. *)
Definition stamp (now : PyDatetime.datetime) : string :=
  PyDatetime.isoformat now ++ "Z".

Definition set_status (v : Status) (t : Task) : Task :=
  mk_Task (id t) (title t) (priority t) (category t) v (completed t)
    (created_at t) (updated_at t) (completed_at t) (due_date t).

Definition set_completed (v : bool) (t : Task) : Task :=
  mk_Task (id t) (title t) (priority t) (category t) (status t) v
    (created_at t) (updated_at t) (completed_at t) (due_date t).

Definition set_updated_at (v : option string) (t : Task) : Task :=
  mk_Task (id t) (title t) (priority t) (category t) (status t) (completed t)
    (created_at t) v (completed_at t) (due_date t).

Definition set_completed_at (v : option string) (t : Task) : Task :=
  mk_Task (id t) (title t) (priority t) (category t) (status t) (completed t)
    (created_at t) (updated_at t) v (due_date t).

(** [Task.mark_completed], the clock reading [now]; the last
    assignment copies the field just written. *)
Definition mark_completed (now : PyDatetime.datetime) (t : Task) : Task :=
  let t := set_completed true t in
  let t := set_status COMPLETED t in
  let t := set_completed_at (Some (stamp now)) t in
  set_updated_at (completed_at t) t.

(** [Task.mark_incomplete] *)
Definition mark_incomplete (now : PyDatetime.datetime) (t : Task) : Task :=
  let t := set_completed false t in
  let t := set_status PENDING t in
  let t := set_completed_at None t in
  set_updated_at (Some (stamp now)) t.

(** [datetime.fromisoformat(s.replace('Z', '+00:00'))] inside
    [try ... except (ValueError, AttributeError)]: [None] when the
    handler is taken. *)
Definition parse_due (s : string) : option PyDatetime.datetime :=
  match PyDatetime.fromisoformat (PyStr.replace "Z" "+00:00" s) with
  | Ok dt => Some dt
  | Raise _ => None
  end.

(** [validate_title] *)
Definition validate_title (ttl : string) : outcome string :=
  let ttl := PyStr.strip ttl in
  if negb (PyStr.truthy ttl) then
    Raise (mk_exn ValueError "Title cannot be empty")
  else if (MAX_TITLE_LENGTH <? String.length ttl)%nat then
    Raise (mk_exn ValueError
      ("Title cannot exceed " ++ PyStr.of_Z (Z.of_nat MAX_TITLE_LENGTH) ++ " characters"))
  else Ok ttl.

(** [validate_category] *)
Definition validate_category (cat : string) : outcome string :=
  let cat := PyStr.strip cat in
  if (MAX_CATEGORY_LENGTH <? String.length cat)%nat then
    Raise (mk_exn ValueError
      ("Category cannot exceed " ++ PyStr.of_Z (Z.of_nat MAX_CATEGORY_LENGTH) ++ " characters"))
  else Ok (if PyStr.truthy cat then cat else DEFAULT_CATEGORY).

(** [validate_due_date] *)
Definition validate_due_date (due : string) : outcome string :=
  match PyDatetime.fromisoformat (PyStr.replace "Z" "+00:00" due) with
  | Ok dt => Ok (PyStr.replace "+00:00" "Z" (PyDatetime.isoformat dt))
  | Raise e =>
      if isinstance e ValueError || isinstance e AttributeError then
        Raise (mk_exn ValueError
          ("Invalid date format: " ++ due ++ ". Use YYYY-MM-DD or ISO 8601."))
      else Raise e
  end.

(** What an operation hands back in [OperationResult.data]. *)
Inductive payload :=
| PTask (d : task_dict)                 (* a task dictionary *)
| PTasks (l : list task_dict)           (* a list of task dictionaries *)
| PText (s : string)                    (* the "simple" listing *)
| PTable (l : list Task)                (* {"tasks": l, "format": "table"} *)
| PConfirm (d : task_dict)              (* {"task": d, "confirmation_required": True} *)
| PDeleted (d : task_dict)              (* {"deleted_task": d} *)
| PDue (i : Z) (due : string).          (* {"task_id": i, "due_date": due} *)

(** The dataclass [OperationResult]. *)
Record OperationResult := mk_result {
  success : bool;
  message : string;
  data : option payload;
  error : option string;
  error_code : option string
}.

(** [OperationResult.success_result] *)
Definition success_result (m : string) (d : option payload) : OperationResult :=
  mk_result true m d None None.

(** [OperationResult.error_result] *)
Definition error_result (err code : string) : OperationResult :=
  mk_result false ("Operation failed: " ++ err) None (Some err) (Some code).

End Models.

(* ================================================================== *)
(** ** The world: files, injected I/O failures, clock, console *)

Module World.
Import Models.

(** What a file holds: a JSON array of task objects, some other JSON
    value (named by its Python type), or bytes that are not JSON (an
    empty or half-written file). *)
Inductive content :=
| Tasks (l : list task_dict)
| NotAList (tyname : string)
| Malformed (detail : string).

(** The fate of one system call, chosen by the environment. *)
Inductive fault :=
| NoFault
| Denied                    (* raises [PermissionError] *)
| IOFail (detail : string). (* raises [OSError], e.g. disk full *)

(** [plan] lists the fates of the system calls to come, one per call
    (none left: no failure); [clock] is the reading of the [n]-th look
    at the clock. *)
Record world := mk_world {
  disk : string -> option content;
  plan : list fault;
  clock : nat -> PyDatetime.datetime;
  ticks : nat;
  stdout : list string
}.

Definition M (A : Type) : Type := world -> outcome A * world.

Definition ret {A} (a : A) : M A := fun w => (Ok a, w).

Definition raise {A} (k : exn_kind) (m : string) : M A :=
  fun w => (Raise (mk_exn k m), w).

Definition reraise {A} (e : exn) : M A := fun w => (Raise e, w).

Definition bind {A B} (m : M A) (f : A -> M B) : M B :=
  fun w =>
    match m w with
    | (Ok a, w') => f a w'
    | (Raise e, w') => (Raise e, w')
    end.

(** [try: m except Exception as e: h e] *)
Definition try_except {A} (m : M A) (h : exn -> M A) : M A :=
  fun w =>
    match m w with
    | (Ok a, w') => (Ok a, w')
    | (Raise e, w') => h e w'
    end.

(** [try: m finally: c]: [c] runs on both exits, and an exception of
    its own takes over. *)
Definition finally {A} (m : M A) (c : M unit) : M A :=
  fun w =>
    let '(r, w1) := m w in
    match c w1 with
    | (Ok _, w2) => (r, w2)
    | (Raise e, w2) => (Raise e, w2)
    end.

(** A pure computation that may raise, run in the world. *)
Definition lift {A} (o : outcome A) : M A := fun w => (o, w).

Notation "x <- m ;; k" := (bind m (fun x => k))
  (at level 61, m at next level, right associativity).

Definition set_disk (d : string -> option content) (w : world) : world :=
  mk_world d (plan w) (clock w) (ticks w) (stdout w).

Definition upd (d : string -> option content) (p : string) (c : option content)
  : string -> option content :=
  fun q => if String.eqb q p then c else d q.

(** Takes the fate of the next system call off the plan. *)
Definition next_fault : M fault :=
  fun w =>
    match plan w with
    | [] => (Ok NoFault, w)
    | f :: rest => (Ok f, mk_world (disk w) rest (clock w) (ticks w) (stdout w))
    end.

(** A system call that the environment may fail. *)
Definition syscall {A} (body : M A) : M A :=
  f <- next_fault ;;
  match f with
  | NoFault => body
  | Denied => raise PermissionError "[Errno 13] Permission denied"
  | IOFail d => raise OSError d
  end.

(** [datetime.utcnow()] *)
Definition utcnow : M PyDatetime.datetime :=
  fun w => (Ok (clock w (ticks w)),
            mk_world (disk w) (plan w) (clock w) (S (ticks w)) (stdout w)).

(** [print(s)] *)
Definition print (s : string) : M unit :=
  fun w => (Ok tt, mk_world (disk w) (plan w) (clock w) (ticks w) (stdout w ++ [s])).

(** [os.path.exists(p)]; it never raises. *)
Definition path_exists (p : string) : M bool :=
  fun w => (Ok (match disk w p with Some _ => true | None => false end), w).

(** [with open(p, 'r') as f: return f.read()] *)
Definition read_file (p : string) : M content :=
  syscall (fun w =>
    match disk w p with
    | Some c => (Ok c, w)
    | None => raise FileNotFoundError "[Errno 2] No such file or directory" w
    end).

(** [json.load] of what was read: bytes that are not JSON raise
    [JSONDecodeError]. *)
Definition json_load (c : content) : M content :=
  match c with
  | Malformed d => raise JSONDecodeError d
  | _ => ret c
  end.

(** [with open(p, 'w') as f: <write c>; f.flush(); os.fsync(f.fileno())]:
    opening truncates or creates the file; a failure while writing
    leaves bytes that are not JSON. *)
Definition write_file (p : string) (c : content) : M unit :=
  _ <- syscall (fun w => (Ok tt, set_disk (upd (disk w) p (Some (Malformed ""))) w)) ;;
  f <- next_fault ;;
  match f with
  | NoFault => fun w => (Ok tt, set_disk (upd (disk w) p (Some c)) w)
  | Denied =>
      fun w => raise PermissionError "[Errno 13] Permission denied"
                 (set_disk (upd (disk w) p (Some (Malformed "partial write"))) w)
  | IOFail d =>
      fun w => raise OSError d
                 (set_disk (upd (disk w) p (Some (Malformed "partial write"))) w)
  end.

(** [os.replace(src, dst)]: one atomic step, it happens or it does not. *)
Definition os_replace (src dst : string) : M unit :=
  syscall (fun w =>
    match disk w src with
    | Some c => (Ok tt, set_disk (upd (upd (disk w) dst (Some c)) src None) w)
    | None => raise FileNotFoundError "[Errno 2] No such file or directory" w
    end).

(** [os.remove(p)] *)
Definition os_remove (p : string) : M unit :=
  syscall (fun w =>
    match disk w p with
    | Some _ => (Ok tt, set_disk (upd (disk w) p None) w)
    | None => raise FileNotFoundError "[Errno 2] No such file or directory" w
    end).

End World.

(* ================================================================== *)
(** ** utils/storage.py *)

Module Storage.
Import Models World.

Definition TODOS_FILE : string := "todos.json".
Definition BACKUP_PREFIX : string := "todos.backup".
Definition TEMP_FILE : string := TODOS_FILE ++ ".tmp".

Definition storage_error {A} (m : string) : M A := raise StorageError m.

(** [load_tasks()] *)
Definition load_tasks : M (list task_dict) :=
  try_except
    (present <- path_exists TODOS_FILE ;;
     if negb present then ret []
     else
       raw <- read_file TODOS_FILE ;;
       data <- json_load raw ;;
       match data with
       | Tasks l => ret l
       | NotAList ty =>
           storage_error ("Corrupted " ++ TODOS_FILE ++ ": expected list, got " ++ ty)
       | Malformed d => raise JSONDecodeError d
       end)
    (fun e =>
       if isinstance e FileNotFoundError then ret []
       else if isinstance e JSONDecodeError then
         storage_error ("Corrupted " ++ TODOS_FILE ++ ": " ++ msg e)
       else if isinstance e PermissionError then
         storage_error ("Permission denied reading " ++ TODOS_FILE)
       else storage_error ("Failed to load tasks: " ++ msg e)).

(** The three [except] clauses of [save_tasks]. *)
Definition save_handler (e : exn) : M bool :=
  if isinstance e PermissionError then
    storage_error ("Permission denied writing " ++ TODOS_FILE)
  else if isinstance e OSError then
    storage_error ("Disk error: " ++ msg e)
  else storage_error ("Failed to save tasks: " ++ msg e).

(** The [finally] block of [save_tasks]: the temporary file is removed
    if it is there, and a failure to remove it is passed over. *)
Definition remove_temp : M unit :=
  left <- path_exists TEMP_FILE ;;
  if left then try_except (os_remove TEMP_FILE) (fun _ => ret tt)
  else ret tt.

(** [save_tasks(tasks)].  The argument is a list by its type, so the
    [isinstance(tasks, list)] guard cannot fire and is not shown. *)
Definition save_tasks (tasks : list task_dict) : M bool :=
  finally
    (try_except
       (_ <- write_file TEMP_FILE (Tasks tasks) ;;
        _ <- os_replace TEMP_FILE TODOS_FILE ;;
        ret true)
       save_handler)
    remove_temp.

(** [max(task.get('id', 0) for task in tasks)] on a non-empty list. *)
Definition max_id (first : task_dict) (rest : list task_dict) : Z :=
  fold_left (fun m t => Z.max m (d_id t)) rest (d_id first).

(** [get_next_id()] *)
Definition get_next_id : M Z :=
  try_except
    (tasks <- load_tasks ;;
     match tasks with
     | [] => ret 1
     | t :: rest => ret (max_id t rest + 1)
     end)
    (fun e => storage_error ("Failed to generate next ID: " ++ msg e)).

(** The loop of [find_task_by_id]. *)
Fixpoint first_with_id (task_id : Z) (tasks : list task_dict) : option task_dict :=
  match tasks with
  | [] => None
  | t :: rest => if d_id t =? task_id then Some t else first_with_id task_id rest
  end.

(** [find_task_by_id(task_id)] *)
Definition find_task_by_id (task_id : Z) : M (option task_dict) :=
  try_except
    (tasks <- load_tasks ;;
     ret (first_with_id task_id tasks))
    (fun e => storage_error ("Failed to find task: " ++ msg e)).

(** One entry of the [updates] dictionary handed to [update_task]. *)
Inductive field_update :=
| UTitle (v : string)
| UPriority (v : string)
| UCategory (v : string)
| UStatus (v : string)
| UCompleted (v : bool)
| UDueDate (v : option string)
| UCompletedAt (v : option string)
| UUpdatedAt (v : option string).

(** [task[key] = value] *)
Definition assign (d : task_dict) (u : field_update) : task_dict :=
  match u with
  | UTitle v =>
      mk_task_dict (d_id d) v (d_priority d) (d_category d) (d_status d)
        (d_completed d) (d_created_at d) (d_updated_at d) (d_completed_at d) (d_due_date d)
  | UPriority v =>
      mk_task_dict (d_id d) (d_title d) v (d_category d) (d_status d)
        (d_completed d) (d_created_at d) (d_updated_at d) (d_completed_at d) (d_due_date d)
  | UCategory v =>
      mk_task_dict (d_id d) (d_title d) (d_priority d) v (d_status d)
        (d_completed d) (d_created_at d) (d_updated_at d) (d_completed_at d) (d_due_date d)
  | UStatus v =>
      mk_task_dict (d_id d) (d_title d) (d_priority d) (d_category d) v
        (d_completed d) (d_created_at d) (d_updated_at d) (d_completed_at d) (d_due_date d)
  | UCompleted v =>
      mk_task_dict (d_id d) (d_title d) (d_priority d) (d_category d) (d_status d)
        v (d_created_at d) (d_updated_at d) (d_completed_at d) (d_due_date d)
  | UDueDate v =>
      mk_task_dict (d_id d) (d_title d) (d_priority d) (d_category d) (d_status d)
        (d_completed d) (d_created_at d) (d_updated_at d) (d_completed_at d) v
  | UCompletedAt v =>
      mk_task_dict (d_id d) (d_title d) (d_priority d) (d_category d) (d_status d)
        (d_completed d) (d_created_at d) (d_updated_at d) v (d_due_date d)
  | UUpdatedAt v =>
      mk_task_dict (d_id d) (d_title d) (d_priority d) (d_category d) (d_status d)
        (d_completed d) (d_created_at d) v (d_completed_at d) (d_due_date d)
  end.

(** [for key, value in updates.items(): task[key] = value] *)
Definition apply_updates (updates : list field_update) (d : task_dict) : task_dict :=
  fold_left assign updates d.

(** The loop of [update_task]: the first task with the id takes the
    updates and a fresh [updated_at]; the flag is [task_found]. *)
Fixpoint update_loop (task_id : Z) (updates : list field_update)
    (tasks : list task_dict) : M (bool * list task_dict) :=
  match tasks with
  | [] => ret (false, [])
  | t :: rest =>
      if d_id t =? task_id then
        now <- utcnow ;;
        ret (true, assign (apply_updates updates t) (UUpdatedAt (Some (stamp now))) :: rest)
      else
        r <- update_loop task_id updates rest ;;
        ret (fst r, t :: snd r)
  end.

(** [update_task(task_id, updates)] *)
Definition update_task (task_id : Z) (updates : list field_update) : M bool :=
  try_except
    (tasks <- load_tasks ;;
     r <- update_loop task_id updates tasks ;;
     if negb (fst r) then ret false
     else
       _ <- save_tasks (snd r) ;;
       ret true)
    (fun e => storage_error ("Failed to update task: " ++ msg e)).

(** [delete_task(task_id)] *)
Definition delete_task (task_id : Z) : M bool :=
  try_except
    (tasks <- load_tasks ;;
     let original_length := List.length tasks in
     let filtered_tasks := filter (fun t => negb (d_id t =? task_id)) tasks in
     if (List.length filtered_tasks =? original_length)%nat then ret false
     else
       _ <- save_tasks filtered_tasks ;;
       ret true)
    (fun e => storage_error ("Failed to delete task: " ++ msg e)).

(** [strftime("%Y%m%d-%H%M%S")] *)
Definition backup_timestamp (dt : PyDatetime.datetime) : string :=
  PyStr.zfill 4 (PyDatetime.year dt) ++ PyStr.zfill 2 (PyDatetime.month dt)
  ++ PyStr.zfill 2 (PyDatetime.day dt) ++ "-"
  ++ PyStr.zfill 2 (PyDatetime.hour dt) ++ PyStr.zfill 2 (PyDatetime.minute dt)
  ++ PyStr.zfill 2 (PyDatetime.second dt).

(** [backup_tasks()]; [datetime.now()] reads the same clock (the local
    zone is taken to be UTC). *)
Definition backup_tasks : M string :=
  try_except
    (present <- path_exists TODOS_FILE ;;
     if negb present then ret ""
     else
       now <- utcnow ;;
       let backup_path := BACKUP_PREFIX ++ "." ++ backup_timestamp now ++ ".json" in
       raw <- read_file TODOS_FILE ;;
       _ <- write_file backup_path raw ;;
       ret backup_path)
    (fun e =>
       _ <- print ("Warning: Could not create backup: " ++ msg e) ;;
       ret "").

End Storage.

(* ================================================================== *)
(** ** Sorting as [list.sort] does it *)

Module PySort.

(** Insertion behind the elements that are smaller, in front of the
    first that is not: equal keys keep the order they came in. *)
Fixpoint insert_by {A} (lt : A -> A -> bool) (x : A) (l : list A) : list A :=
  match l with
  | [] => [x]
  | y :: l' => if lt y x then y :: insert_by lt x l' else x :: l
  end.

(** The stable sort by the strict order [lt]. *)
Definition stable_sort {A} (lt : A -> A -> bool) (l : list A) : list A :=
  fold_right (insert_by lt) [] l.

(** A sort key as [getattr] may deliver it. *)
Inductive pyval :=
| VNone
| VInt (z : Z)
| VBool (b : bool)
| VStr (s : string)
| VTuple (l : list string)
| VObj (name : string).   (* an object without an ordering *)

Definition as_int (b : bool) : Z := if b then 1 else 0.

Fixpoint tuple_ltb (a b : list string) : bool :=
  match a, b with
  | [], [] => false
  | [], _ :: _ => true
  | _ :: _, [] => false
  | x :: a', y :: b' =>
      if String.eqb x y then tuple_ltb a' b' else String.ltb x y
  end.

(** [a < b]; [None] is the [TypeError] of an unsupported comparison. *)
Definition val_lt (a b : pyval) : option bool :=
  match a, b with
  | VInt x, VInt y => Some (x <? y)
  | VInt x, VBool y => Some (x <? as_int y)
  | VBool x, VInt y => Some (as_int x <? y)
  | VBool x, VBool y => Some (as_int x <? as_int y)
  | VStr x, VStr y => Some (String.ltb x y)
  | VTuple x, VTuple y => Some (tuple_ltb x y)
  | _, _ => None
  end.

(** Every key can be compared with every other one. *)
Definition orderable (keys : list pyval) : bool :=
  forallb (fun a =>
    forallb (fun b => match val_lt a b with Some _ => true | None => false end) keys)
    keys.

Definition val_ltb (a b : pyval) : bool :=
  match val_lt a b with Some r => r | None => false end.

(** [l.sort(reverse=reverse)] on items paired with their keys.  A sort
    of two or more items compares keys, and any comparison sort of keys
    that are not mutually comparable meets an unsupported pair: that is
    the [TypeError].  With [reverse] the order is turned round and
    equal keys still keep their order. *)
Definition sort_keyed {A} (reverse : bool) (l : list (pyval * A))
  : outcome (list A) :=
  if (2 <=? List.length l)%nat && negb (orderable (map fst l)) then
    Raise (mk_exn TypeError "'<' not supported between instances")
  else
    let lt := fun (a b : pyval * A) =>
                if reverse then val_ltb (fst b) (fst a)
                else val_ltb (fst a) (fst b) in
    Ok (map snd (stable_sort lt l)).

End PySort.

(* ================================================================== *)
(** ** skills/*.py: the engine's public operations *)

Module Skills.
Import Models World PySort.

Definition dquote : string := String (ascii_of_nat 34) EmptyString.
Definition newline : string := String (ascii_of_nat 10) EmptyString.
Definition CHECK : string := "✓".
Definition CIRCLE : string := "○".

(** The three handlers that close most operations:
    [except ValueError], [except StorageError], [except Exception]. *)
Definition on_error (with_value_error : bool) (e : exn) : M OperationResult :=
  if with_value_error && isinstance e ValueError then
    ret (error_result (msg e) ERR_VALIDATION)
  else if isinstance e StorageError then
    ret (error_result (msg e) ERR_STORAGE)
  else ret (error_result ("Unexpected error: " ++ msg e) "UNKNOWN_ERROR").

Definition not_found (task_id : Z) : OperationResult :=
  error_result ("Task with ID " ++ PyStr.of_Z task_id ++ " not found") ERR_NOT_FOUND.

Definition update_failed (task_id : Z) : OperationResult :=
  error_result ("Failed to update task #" ++ PyStr.of_Z task_id) ERR_STORAGE.

(** Truthiness of an optional string argument. *)
Definition given (a : option string) : bool :=
  match a with Some s => PyStr.truthy s | None => false end.

(** [[f(x) for x in l]] for an [f] that may raise. *)
Fixpoint map_outcome {A B} (f : A -> outcome B) (l : list A) : outcome (list B) :=
  match l with
  | [] => Ok []
  | x :: xs =>
      let? y := f x in
      let? ys := map_outcome f xs in
      Ok (y :: ys)
  end.

(** [[x for x in l if p(x)]] for a [p] that looks at the world. *)
Fixpoint filterM {A} (p : A -> M bool) (l : list A) : M (list A) :=
  match l with
  | [] => ret []
  | x :: xs =>
      keep <- p x ;;
      rest <- filterM p xs ;;
      ret (if keep then x :: rest else rest)
  end.

Fixpoint mapM {A B} (f : A -> M B) (l : list A) : M (list B) :=
  match l with
  | [] => ret []
  | x :: xs =>
      y <- f x ;;
      ys <- mapM f xs ;;
      ret (y :: ys)
  end.

(** *** add_skill.py *)

Definition add_task (ttl priority category : string) (due_date : option string)
  : M OperationResult :=
  try_except
    (validated_title <- lift (validate_title ttl) ;;
     priority_enum <- lift (Priority_from_string priority) ;;
     validated_category <- lift (validate_category category) ;;
     due_date <- lift (if given due_date then
                         match due_date with
                         | Some d => let? v := validate_due_date d in Ok (Some v)
                         | None => Ok None
                         end
                       else Ok due_date) ;;
     task_id <- Storage.get_next_id ;;
     now <- utcnow ;;
     task <- lift (Task_init task_id validated_title (Priority_value priority_enum)
                     validated_category (Status_value PENDING) false (stamp now)
                     None None due_date) ;;
     tasks <- Storage.load_tasks ;;
     _ <- Storage.save_tasks (tasks ++ [to_dict task]) ;;
     ret (success_result ("Task #" ++ PyStr.of_Z (id task) ++ " added successfully")
            (Some (PTask (to_dict task)))))
    (on_error true).

(** *** update_skill.py *)

(** The pair ([updates], [changes]) that [update_task] builds:
    [updates[key] = value] and [changes.append(name)]. *)
Definition put (u : Storage.field_update)
    (acc : list Storage.field_update * list string)
  : list Storage.field_update * list string :=
  ((fst acc ++ [u])%list, snd acc).

Definition changed (name : string)
    (acc : list Storage.field_update * list string)
  : list Storage.field_update * list string :=
  (fst acc, (snd acc ++ [name])%list).

(** The part of [update_task] between finding the task and writing:
    every field that is given (not [None]) is validated and entered. *)
Definition build_updates (ttl priority category st due_date : option string)
  : outcome (list Storage.field_update * list string) :=
  let acc := ([], []) in
  let? acc := match ttl with
              | Some t => let? v := validate_title t in
                          Ok (changed "title" (put (Storage.UTitle v) acc))
              | None => Ok acc
              end in
  let? acc := match priority with
              | Some p =>
                  let? priority_enum := Priority_from_string p in
                  Ok (changed "priority"
                        (put (Storage.UPriority (Priority_value priority_enum)) acc))
              | None => Ok acc
              end in
  let? acc := match category with
              | Some c => let? v := validate_category c in
                          Ok (changed "category" (put (Storage.UCategory v) acc))
              | None => Ok acc
              end in
  let? acc := match st with
              | Some s =>
                  let? status_enum := Status_from_string s in
                  let acc := put (Storage.UStatus (Status_value status_enum)) acc in
                  let acc := if Status_eqb status_enum COMPLETED
                             then put (Storage.UCompleted true) acc else acc in
                  Ok (changed "status" acc)
              | None => Ok acc
              end in
  match due_date with
  | Some d =>
      let? v := (if PyStr.truthy d
                 then let? x := validate_due_date d in Ok (Some x)
                 else Ok None) in
      Ok (changed "due_date" (put (Storage.UDueDate v) acc))
  | None => Ok acc
  end.

Definition update_task (task_id : Z)
    (ttl priority category st due_date : option string) : M OperationResult :=
  try_except
    (if negb (existsb given [ttl; priority; category; st; due_date]) then
       ret (error_result "No fields to update. Please specify at least one field."
              ERR_NO_CHANGES)
     else
       task_dict <- Storage.find_task_by_id task_id ;;
       match task_dict with
       | None => ret (not_found task_id)
       | Some _ =>
           acc <- lift (build_updates ttl priority category st due_date) ;;
           let updates := fst acc in
           let changes := snd acc in
           ok <- Storage.update_task task_id updates ;;
           if ok then
             updated_task <- Storage.find_task_by_id task_id ;;
             ret (success_result
                    ("Task #" ++ PyStr.of_Z task_id ++ " updated successfully ("
                     ++ PyStr.join ", " changes ++ " changed)")
                    (option_map PTask updated_task))
           else ret (update_failed task_id)
       end)
    (on_error true).

(** *** complete_skill.py *)

Definition complete_task (task_id : Z) (uncomplete toggle : bool) : M OperationResult :=
  try_except
    (task_dict <- Storage.find_task_by_id task_id ;;
     match task_dict with
     | None => ret (not_found task_id)
     | Some d =>
         task <- lift (from_dict d) ;;
         now <- utcnow ;;
         let '(task, action) :=
           if toggle then
             if completed task then (mark_incomplete now task, "reopened")
             else (mark_completed now task, "completed")
           else if uncomplete then (mark_incomplete now task, "reopened")
           else (mark_completed now task, "completed") in
         let updates :=
           [Storage.UCompleted (completed task);
            Storage.UStatus (Status_value (status task));
            Storage.UCompletedAt (completed_at task);
            Storage.UUpdatedAt (updated_at task)] in
         ok <- Storage.update_task task_id updates ;;
         if ok then
           let symbol := if completed task then CHECK else CIRCLE in
           ret (success_result
                  (symbol ++ " Task #" ++ PyStr.of_Z task_id ++ " " ++ action ++ ": "
                   ++ dquote ++ title task ++ dquote)
                  (Some (PTask (to_dict task))))
         else ret (update_failed task_id)
     end)
    (on_error false).

(** *** delete_skill.py *)

Definition delete_task (task_id : Z) (force : bool) : M OperationResult :=
  try_except
    (task_dict <- Storage.find_task_by_id task_id ;;
     match task_dict with
     | None => ret (not_found task_id)
     | Some d =>
         if negb force then
           ret (mk_result true "Confirmation required" (Some (PConfirm d)) None None)
         else
           backup_path <- Storage.backup_tasks ;;
           _ <- (if PyStr.truthy backup_path
                 then print ("Backup created: " ++ backup_path) else ret tt) ;;
           ok <- Storage.delete_task task_id ;;
           if ok then
             ret (success_result
                    ("Task #" ++ PyStr.of_Z task_id ++ " deleted: "
                     ++ dquote ++ d_title d ++ dquote)
                    (Some (PDeleted d)))
           else ret (error_result ("Failed to delete task #" ++ PyStr.of_Z task_id)
                       ERR_STORAGE)
     end)
    (on_error false).

(** *** Task methods that look at the clock (utils/models.py) *)

(** [Task.is_overdue] *)
Definition is_overdue (t : Task) : M bool :=
  match due_date t with
  | None => ret false
  | Some d =>
      if negb (PyStr.truthy d) || completed t then ret false
      else
        match parse_due d with
        | Some due =>
            now <- utcnow ;;
            ret (PyDatetime.naive_us due <? PyDatetime.naive_us now)
        | None => ret false
        end
  end.

(** [Task.days_until_due] *)
Definition days_until_due (t : Task) : M (option Z) :=
  match due_date t with
  | None => ret None
  | Some d =>
      if negb (PyStr.truthy d) then ret None
      else
        match parse_due d with
        | Some due =>
            now <- utcnow ;;
            ret (Some (PyDatetime.sub_days due now))
        | None => ret None
        end
  end.

(** The dataclass [TaskFilter]. *)
Record TaskFilter := mk_filter {
  f_status : option Status;
  f_priority : option Priority;
  f_category : option string;
  f_completed : option bool;
  f_overdue_only : bool
}.

(** [TaskFilter.matches] *)
Definition matches (f : TaskFilter) (t : Task) : M bool :=
  if match f_status f with
     | Some s => negb (Status_eqb (status t) s) | None => false end
  then ret false
  else if match f_priority f with
          | Some p => negb (Priority_eqb (priority t) p) | None => false end
  then ret false
  else if match f_category f with
          | Some c => PyStr.truthy c && negb (String.eqb (category t) c)
          | None => false end
  then ret false
  else if match f_completed f with
          | Some b => negb (Bool.eqb (completed t) b) | None => false end
  then ret false
  else if f_overdue_only f then
    overdue <- is_overdue t ;;
    ret overdue
  else ret true.

(** *** list_skill.py *)

(** Methods that [class Task] defines. *)
Definition TASK_METHODS : list string :=
  ["to_dict"; "from_dict"; "mark_completed"; "mark_incomplete";
   "update_fields"; "is_overdue"; "days_until_due"].

(** Attributes that every instance of a dataclass has without the
    source naming them (CPython 3.10); all but the four singled out in
    [getattr] are objects without an ordering. *)
Definition INHERITED_ATTRS : list string :=
  ["__annotations__"; "__class__"; "__dataclass_fields__";
   "__dataclass_params__"; "__delattr__"; "__dict__"; "__dir__"; "__eq__";
   "__format__"; "__ge__"; "__getattribute__"; "__gt__"; "__init__";
   "__init_subclass__"; "__le__"; "__lt__"; "__ne__"; "__new__";
   "__post_init__"; "__reduce__"; "__reduce_ex__"; "__repr__";
   "__setattr__"; "__sizeof__"; "__str__"; "__subclasshook__"].

Definition FIELD_NAMES : list string :=
  ["id"; "title"; "priority"; "category"; "status"; "completed";
   "created_at"; "updated_at"; "completed_at"; "due_date"].

Definition mem (x : string) (l : list string) : bool :=
  existsb (String.eqb x) l.

Definition opt_str (o : option string) : pyval :=
  match o with Some s => VStr s | None => VNone end.

(** [getattr(t, name)]; [None] is the [AttributeError]. *)
Definition getattr (t : Task) (name : string) : option pyval :=
  if String.eqb name "id" then Some (VInt (id t))
  else if String.eqb name "title" then Some (VStr (title t))
  else if String.eqb name "priority" then Some (VStr (Priority_value (priority t)))
  else if String.eqb name "category" then Some (VStr (category t))
  else if String.eqb name "status" then Some (VStr (Status_value (status t)))
  else if String.eqb name "completed" then Some (VBool (completed t))
  else if String.eqb name "created_at" then Some (VStr (created_at t))
  else if String.eqb name "updated_at" then Some (opt_str (updated_at t))
  else if String.eqb name "completed_at" then Some (opt_str (completed_at t))
  else if String.eqb name "due_date" then Some (opt_str (due_date t))
  else if String.eqb name "__doc__" then Some (VStr "Represents a todo task.")
  else if String.eqb name "__module__" then Some (VStr "utils.models")
  else if String.eqb name "__hash__" then Some VNone
  else if String.eqb name "__weakref__" then Some VNone
  else if String.eqb name "__match_args__" then Some (VTuple FIELD_NAMES)
  else if mem name TASK_METHODS || mem name INHERITED_ATTRS then Some (VObj name)
  else None.

(** [hasattr(t, name)]; it does not depend on the task. *)
Definition hasattr (name : string) : bool :=
  mem name FIELD_NAMES
  || mem name ["__doc__"; "__module__"; "__hash__"; "__weakref__"; "__match_args__"]
  || mem name TASK_METHODS || mem name INHERITED_ATTRS.

(** [lambda t: getattr(t, sort_by) if getattr(t, sort_by) is not None else ""] *)
Definition sort_key (sort_by : string) (t : Task) : outcome pyval :=
  match getattr t sort_by with
  | None =>
      Raise (mk_exn AttributeError
        ("'Task' object has no attribute '" ++ sort_by ++ "'"))
  | Some VNone => Ok (VStr "")
  | Some v => Ok v
  end.

(** [tasks.sort(key=..., reverse=reverse)]: the keys are all computed
    before anything moves, so a key that raises leaves the list as it
    was. *)
Definition sort_tasks (sort_by : string) (reverse : bool) (tasks : list Task)
  : outcome (list Task) :=
  let? keys := map_outcome (sort_key sort_by) tasks in
  sort_keyed reverse (combine keys tasks).

(** [status and status != "all"] *)
Definition selective (a : option string) : bool :=
  match a with
  | Some s => PyStr.truthy s && negb (String.eqb s "all")
  | None => false
  end.

(** The "simple" line of one task. *)
Definition simple_line (t : Task) : string :=
  let status_mark := if completed t then CHECK else CIRCLE in
  let due_info := match due_date t with
                  | Some d => if PyStr.truthy d then " - Due: " ++ d else ""
                  | None => ""
                  end in
  PyStr.of_Z (id t) ++ ". [" ++ status_mark ++ "] " ++ title t
  ++ " (" ++ Priority_value (priority t) ++ ")" ++ due_info.

(** [filtered_tasks[:limit]] under [if limit and limit > 0]. *)
Definition apply_limit (limit : option Z) (l : list Task) : list Task :=
  match limit with
  | Some n => if negb (n =? 0) && (0 <? n) then firstn (Z.to_nat n) l else l
  | None => l
  end.

Definition showing (l : list Task) : string :=
  "Showing " ++ PyStr.of_Z (Z.of_nat (List.length l)) ++ " tasks".

(** The three output shapes. *)
Definition format_output (output_format : string) (l : list Task) : OperationResult :=
  if String.eqb output_format "json" then
    success_result (showing l) (Some (PTasks (map to_dict l)))
  else if String.eqb output_format "simple" then
    let lines := map simple_line l in
    success_result (showing l)
      (Some (PText (match lines with
                    | [] => "No tasks found."
                    | _ => PyStr.join newline lines
                    end)))
  else success_result (showing l) (Some (PTable l)).

(** The filter that [list_tasks] builds from its arguments. *)
Definition build_filter (st priority category : option string)
    (done : option bool) (overdue_only : bool) : outcome TaskFilter :=
  let? filter_status := match st with
                        | Some s => if selective st
                                    then let? x := Status_from_string s in Ok (Some x)
                                    else Ok None
                        | None => Ok None
                        end in
  let? filter_priority := match priority with
                          | Some p => if selective priority
                                      then let? x := Priority_from_string p in Ok (Some x)
                                      else Ok None
                          | None => Ok None
                          end in
  Ok (mk_filter filter_status filter_priority
        (if selective category then category else None) done overdue_only).

(** The sort step of [list_tasks]: [AttributeError] is passed over. *)
Definition sort_step (sort_by : string) (reverse : bool) (tasks : list Task)
  : M (list Task) :=
  try_except (lift (sort_tasks sort_by reverse tasks))
    (fun e => if isinstance e AttributeError then ret tasks else reraise e).

(** [list_tasks] around its sort step. *)
Definition list_tasks_with (sorter : list Task -> M (list Task))
    (st priority category : option string)
    (done : option bool) (overdue_only : bool)
    (limit : option Z) (output_format : string) : M OperationResult :=
  try_except
    (task_dicts <- Storage.load_tasks ;;
     tasks <- lift (map_outcome from_dict task_dicts) ;;
     task_filter <- lift (build_filter st priority category done overdue_only) ;;
     filtered_tasks <- filterM (matches task_filter) tasks ;;
     filtered_tasks <- sorter filtered_tasks ;;
     ret (format_output output_format (apply_limit limit filtered_tasks)))
    (on_error true).

Definition list_tasks (st priority category : option string)
    (done : option bool) (overdue_only : bool) (sort_by sort_order : string)
    (limit : option Z) (output_format : string) : M OperationResult :=
  let reverse := String.eqb sort_order "desc" in
  list_tasks_with (sort_step sort_by reverse)
    st priority category done overdue_only limit output_format.

(** *** scheduler_skill.py *)

Definition set_due_date (task_id : Z) (due : string) : M OperationResult :=
  try_except
    (task_dict <- Storage.find_task_by_id task_id ;;
     match task_dict with
     | None => ret (not_found task_id)
     | Some _ =>
         validated_due_date <- lift (validate_due_date due) ;;
         ok <- Storage.update_task task_id [Storage.UDueDate (Some validated_due_date)] ;;
         if ok then
           ret (success_result ("Due date set for task #" ++ PyStr.of_Z task_id)
                  (Some (PDue task_id validated_due_date)))
         else ret (update_failed task_id)
     end)
    (on_error true).

(** The body of the loop of [get_upcoming_tasks]: is the task kept? *)
Definition is_upcoming (now : PyDatetime.datetime) (days : Z) (t : Task) : bool :=
  match due_date t with
  | None => false
  | Some d =>
      if completed t || negb (PyStr.truthy d) then false
      else
        match parse_due d with
        | Some due =>
            let days_until := PyDatetime.sub_days due now in
            (0 <=? days_until) && (days_until <=? days)
        | None => false
        end
  end.

(** [lambda t: t.due_date or ""] *)
Definition due_key (t : Task) : string :=
  match due_date t with Some d => d | None => "" end.

Definition get_upcoming_tasks (days : Z) : M OperationResult :=
  try_except
    (task_dicts <- Storage.load_tasks ;;
     tasks <- lift (map_outcome from_dict task_dicts) ;;
     now <- utcnow ;;
     let upcoming := filter (is_upcoming now days) tasks in
     let upcoming := stable_sort (fun a b => String.ltb (due_key a) (due_key b)) upcoming in
     ret (success_result
            ("Found " ++ PyStr.of_Z (Z.of_nat (List.length upcoming)) ++ " upcoming tasks")
            (Some (PTasks (map to_dict upcoming)))))
    (on_error false).

(** [{'high': 0, 'medium': 1, 'low': 2}.get(t.priority.value, 3)] *)
Definition priority_rank (p : Priority) : Z :=
  match p with HIGH => 0 | MEDIUM => 1 | LOW => 2 end.

(** The key of the overdue sort: [(rank, t.days_until_due() or 0)]. *)
Definition overdue_key (t : Task) : M (Z * Z) :=
  d <- days_until_due t ;;
  ret (priority_rank (priority t), match d with Some n => n | None => 0 end).

Definition pair_ltb (a b : Z * Z) : bool :=
  (fst a <? fst b) || ((fst a =? fst b) && (snd a <? snd b)).

Definition get_overdue_tasks : M OperationResult :=
  try_except
    (task_dicts <- Storage.load_tasks ;;
     tasks <- lift (map_outcome from_dict task_dicts) ;;
     overdue <- filterM is_overdue tasks ;;
     keys <- mapM overdue_key overdue ;;
     let overdue :=
       map snd (stable_sort (fun a b => pair_ltb (fst a) (fst b)) (combine keys overdue)) in
     ret (success_result
            ("Found " ++ PyStr.of_Z (Z.of_nat (List.length overdue)) ++ " overdue tasks")
            (Some (PTasks (map to_dict overdue)))))
    (on_error false).

(** *** The public operations as one type *)

Inductive call :=
| AddTask (ttl priority category : string) (due_date : option string)
| UpdateTask (task_id : Z) (ttl priority category st due_date : option string)
| CompleteTask (task_id : Z) (uncomplete toggle : bool)
| DeleteTask (task_id : Z) (force : bool)
| ListTasks (st priority category : option string) (done : option bool)
    (overdue_only : bool) (sort_by sort_order : string) (limit : option Z)
    (output_format : string)
| SetDueDate (task_id : Z) (due : string)
| GetUpcomingTasks (days : Z)
| GetOverdueTasks.

Definition run (c : call) : M OperationResult :=
  match c with
  | AddTask t p c d => add_task t p c d
  | UpdateTask i t p c s d => update_task i t p c s d
  | CompleteTask i u g => complete_task i u g
  | DeleteTask i f => delete_task i f
  | ListTasks s p c d o sb so l f => list_tasks s p c d o sb so l f
  | SetDueDate i d => set_due_date i d
  | GetUpcomingTasks n => get_upcoming_tasks n
  | GetOverdueTasks => get_overdue_tasks
  end.

End Skills.

(* ================================================================== *)
(** ** Notions used in the statements *)

Section Notions.
Import Models World Storage Skills PySort.

Definition is_digit (c : ascii) : bool :=
  let n := nat_of_ascii c in ((48 <=? n) && (n <=? 57))%nat.

(** The characters [isoformat] writes before the offset. *)
Definition iso_char (c : ascii) : bool :=
  is_digit c || Ascii.eqb c "-" || Ascii.eqb c "T" || Ascii.eqb c ":"
  || Ascii.eqb c ".".

Fixpoint all_chars (p : ascii -> bool) (s : string) : bool :=
  match s with
  | EmptyString => true
  | String c s' => p c && all_chars p s'
  end.

(** [wp m Q w]: running [m] in [w] ends in an outcome and a world that
    satisfy [Q]. *)
Definition wp {A} (m : M A) (Q : outcome A -> world -> Prop) (w : world) : Prop :=
  Q (fst (m w)) (snd (m w)).

(** The number of system calls that the plan fails. *)
Fixpoint failures (pl : list fault) : nat :=
  match pl with
  | [] => O
  | NoFault :: rest => failures rest
  | _ :: rest => S (failures rest)
  end.

(** Between [w] and [w'] the environment failed [n] system calls. *)
Definition spent (n : nat) (w w' : world) : Prop :=
  failures (plan w) = (n + failures (plan w'))%nat.

(** Only the plan of failures has moved. *)
Definition quiet (w w' : world) : Prop :=
  disk w' = disk w /\ clock w' = clock w /\ ticks w' = ticks w
  /\ stdout w' = stdout w
  /\ (failures (plan w') <= failures (plan w))%nat.

(** Files other than those in [ps] are as they were. *)
Definition others_kept (ps : list string) (w w' : world) : Prop :=
  (forall q, ~ In q ps -> disk w' q = disk w q)
  /\ clock w' = clock w /\ ticks w' = ticks w /\ stdout w' = stdout w
  /\ (failures (plan w') <= failures (plan w))%nat.

(** The task list that a store file reads as: an absent file is the
    empty list, anything but a JSON array cannot be read. *)
Definition stored_tasks (c : option content) : option (list task_dict) :=
  match c with
  | None => Some []
  | Some (Tasks l) => Some l
  | Some _ => None
  end.

Definition is_storage_error {A} (r : outcome A) : Prop :=
  match r with Ok _ => False | Raise e => kind e = StorageError end.

Definition io_kind (e : exn) : Prop :=
  kind e = PermissionError \/ kind e = OSError \/ kind e = FileNotFoundError.

(** What [save_tasks tasks] leaves behind, starting from [w]. *)
Definition save_post (tasks : list task_dict) (w : world)
    (r : outcome bool) (w' : world) : Prop :=
  ((r = Ok true /\ disk w' TODOS_FILE = Some (Tasks tasks)
    /\ disk w' TEMP_FILE = None)
   \/ (is_storage_error r /\ disk w' TODOS_FILE = disk w TODOS_FILE
       /\ (1 <= failures (plan w))%nat))
  /\ ((failures (plan w) <= 1)%nat -> disk w' TEMP_FILE = None)
  /\ others_kept [TODOS_FILE; TEMP_FILE] w w'.

(** [get_next_id] on the list it loaded. *)
Definition next_id (l : list task_dict) : Z :=
  match l with
  | [] => 1
  | t :: rest => max_id t rest + 1
  end.

(** How a failed read shows. *)
Definition read_failed (w : world) (e : exn) : Prop :=
  kind e = StorageError
  /\ ((1 <= failures (plan w))%nat \/ stored_tasks (disk w TODOS_FILE) = None).

(** The list that the loop of [update_task] builds: [f] on the first
    task with the id. *)
Fixpoint update_first (task_id : Z) (f : task_dict -> task_dict)
    (l : list task_dict) : list task_dict :=
  match l with
  | [] => []
  | t :: rest =>
      if d_id t =? task_id then f t :: rest
      else t :: update_first task_id f rest
  end.

(** What the loop does to the task it finds, at the clock reading [now]. *)
Definition touched (updates : list field_update) (now : PyDatetime.datetime)
    (t : task_dict) : task_dict :=
  assign (apply_updates updates t) (UUpdatedAt (Some (stamp now))).

(** The world after one look at the clock. *)
Definition tick (w : world) : world :=
  mk_world (disk w) (plan w) (clock w) (S (ticks w)) (stdout w).

(** Every file but the store and its temporary sibling is as it was,
    the clock is the same and no failure was added to the plan. *)
Definition others_kept_files (w w' : world) : Prop :=
  (forall q, q <> TODOS_FILE -> q <> TEMP_FILE -> disk w' q = disk w q)
  /\ clock w' = clock w
  /\ (failures (plan w') <= failures (plan w))%nat.

(** What [update_task] of the store leaves behind. *)
Definition update_post (task_id : Z) (updates : list field_update) (w : world)
    (r : outcome bool) (w' : world) : Prop :=
  others_kept_files w w'
  /\ match r with
     | Ok true =>
         exists l d,
           stored_tasks (disk w TODOS_FILE) = Some l
           /\ first_with_id task_id l = Some d
           /\ disk w' TODOS_FILE
              = Some (Tasks (update_first task_id
                               (touched updates (clock w (ticks w))) l))
     | Ok false =>
         exists l, stored_tasks (disk w TODOS_FILE) = Some l
                   /\ first_with_id task_id l = None
                   /\ disk w' TODOS_FILE = disk w TODOS_FILE
     | Raise e =>
         kind e = StorageError /\ disk w' TODOS_FILE = disk w TODOS_FILE
         /\ ((1 <= failures (plan w))%nat
             \/ stored_tasks (disk w TODOS_FILE) = None)
     end.

(** What [delete_task] of the store leaves behind. *)
Definition delete_post (task_id : Z) (w : world)
    (r : outcome bool) (w' : world) : Prop :=
  others_kept_files w w'
  /\ match r with
     | Ok true =>
         exists l,
           stored_tasks (disk w TODOS_FILE) = Some l
           /\ first_with_id task_id l <> None
           /\ disk w' TODOS_FILE
              = Some (Tasks (filter (fun t => negb (d_id t =? task_id)) l))
     | Ok false =>
         exists l, stored_tasks (disk w TODOS_FILE) = Some l
                   /\ first_with_id task_id l = None
                   /\ disk w' TODOS_FILE = disk w TODOS_FILE
     | Raise e =>
         kind e = StorageError /\ disk w' TODOS_FILE = disk w TODOS_FILE
         /\ ((1 <= failures (plan w))%nat
             \/ stored_tasks (disk w TODOS_FILE) = None)
     end.

(** The store and its temporary sibling are as they were. *)
Definition store_kept (w w' : world) : Prop :=
  disk w' TODOS_FILE = disk w TODOS_FILE
  /\ disk w' TEMP_FILE = disk w TEMP_FILE
  /\ clock w' = clock w
  /\ (failures (plan w') <= failures (plan w))%nat.

(** The shape of every result: a success carries data and no error, a
    failure carries an error with its code and no data, and its message
    is the error behind a fixed prefix. *)
Definition well_formed (r : OperationResult) : Prop :=
  message r <> ""
  /\ ((success r = true /\ data r <> None /\ error r = None
       /\ error_code r = None)
      \/ (success r = false /\ data r = None /\ error_code r <> None
          /\ exists err, error r = Some err
                         /\ message r = "Operation failed: " ++ err)).

(** What [add_task] returns and leaves behind. *)
Definition add_post (w : world) (r : outcome OperationResult) (w' : world) : Prop :=
  exists res,
    r = Ok res /\ well_formed res
    /\ (success res = true ->
        exists l t,
          stored_tasks (disk w TODOS_FILE) = Some l
          /\ data res = Some (PTask (to_dict t))
          /\ id t = next_id l
          /\ disk w' TODOS_FILE = Some (Tasks (l ++ [to_dict t])))
    /\ (success res = false -> disk w' TODOS_FILE = disk w TODOS_FILE).

(** What [delete_task] of the engine returns and leaves behind. *)
Definition remove_post (task_id : Z) (force : bool) (w : world)
    (r : outcome OperationResult) (w' : world) : Prop :=
  exists res,
    r = Ok res /\ well_formed res
    /\ (success res = true ->
        exists l d,
          stored_tasks (disk w TODOS_FILE) = Some l
          /\ first_with_id task_id l = Some d
          /\ if force then
               data res = Some (PDeleted d)
               /\ disk w' TODOS_FILE
                  = Some (Tasks (filter (fun t => negb (d_id t =? task_id)) l))
             else
               data res = Some (PConfirm d)
               /\ disk w' TODOS_FILE = disk w TODOS_FILE)
    /\ (success res = false -> disk w' TODOS_FILE = disk w TODOS_FILE).

(** One successful operation of a history. *)
Inductive op :=
| Create (ttl priority category : string) (due : option string)
| Delete (task_id : Z).

(** The ids in the store, in file order. *)
Definition stored_ids (w : world) : list Z :=
  match stored_tasks (disk w TODOS_FILE) with
  | Some l => map d_id l
  | None => []
  end.

(** What an operation did, with the ids that were in the store when it
    began. *)
Inductive event :=
| Created (i : Z) (before : list Z)
| Removed (i : Z) (before : list Z).

(** Runs one operation; [None] when it does not succeed. *)
Definition perform (o : op) (w : world) : option (event * world) :=
  match o with
  | Create t p c d =>
      match add_task t p c d w with
      | (Ok r, w') =>
          if success r then
            match data r with
            | Some (PTask d) => Some (Created (d_id d) (stored_ids w), w')
            | _ => None
            end
          else None
      | (Raise _, _) => None
      end
  | Delete i =>
      match Skills.delete_task i true w with
      | (Ok r, w') =>
          if success r then Some (Removed i (stored_ids w), w') else None
      | (Raise _, _) => None
      end
  end.

(** Runs a sequence of operations, all of which must succeed. *)
Fixpoint history (ops : list op) (w : world) : option (list event * world) :=
  match ops with
  | [] => Some ([], w)
  | o :: rest =>
      match perform o w with
      | Some (ev, w1) =>
          match history rest w1 with
          | Some (evs, w2) => Some (ev :: evs, w2)
          | None => None
          end
      | None => None
      end
  end.

(** The ids that the creations of a history were given, in order. *)
Fixpoint created (evs : list event) : list Z :=
  match evs with
  | [] => []
  | Created i _ :: rest => i :: created rest
  | Removed _ _ :: rest => created rest
  end.

(** Does a creation receive an id that was removed before it ([removed]
    holds the ids removed so far)? *)
Fixpoint reassigned (removed : list Z) (evs : list event) : bool :=
  match evs with
  | [] => false
  | Created i _ :: rest => existsb (Z.eqb i) removed || reassigned removed rest
  | Removed i _ :: rest => reassigned (i :: removed) rest
  end.

Definition is_create (o : op) : bool :=
  match o with Create _ _ _ _ => true | Delete _ => false end.

(** The largest of a list of positive ids, 0 for none. *)
Definition largest (ids : list Z) : Z := fold_right Z.max 0 ids.

(** The store holds a list of tasks with distinct, positive ids. *)
Definition sound_ids (ids : list Z) : Prop :=
  NoDup ids /\ Forall (fun j => 1 <= j) ids.

(** What holds of one event of a history. *)
Definition event_ok (ev : event) : Prop :=
  match ev with
  | Created i before =>
      NoDup before
      /\ i = 1 + largest before
      /\ (forall j, In j before -> 1 <= j < i)
  | Removed i before => NoDup before /\ In i before
  end.

Definition NO_FIELDS : string :=
  "No fields to update. Please specify at least one field.".

(** The payload of a result as a task dictionary. *)
Definition payload_task (r : outcome OperationResult) : option task_dict :=
  match r with
  | Ok res => match data res with Some (PTask d) => Some d | _ => None end
  | Raise _ => None
  end.

(** The method that [complete_task] calls on the task, by its flags. *)
Definition chosen (uncomplete toggle : bool) (now : PyDatetime.datetime)
    (t : Task) : Task :=
  if toggle then
    if completed t then mark_incomplete now t else mark_completed now t
  else if uncomplete then mark_incomplete now t
  else mark_completed now t.

(** What [complete_task] returns and leaves behind. *)
Definition complete_post (task_id : Z) (uncomplete toggle : bool) (w : world)
    (r : outcome OperationResult) (w' : world) : Prop :=
  exists res,
    r = Ok res /\ well_formed res
    /\ (success res = true ->
        exists l d t now d',
          stored_tasks (disk w TODOS_FILE) = Some l
          /\ first_with_id task_id l = Some d
          /\ from_dict d = Ok t
          /\ data res = Some (PTask (to_dict (chosen uncomplete toggle now t)))
          /\ (exists l', disk w' TODOS_FILE = Some (Tasks l')
                         /\ first_with_id task_id l' = Some d')
          /\ d_completed d' = completed (chosen uncomplete toggle now t)
          /\ d_status d' = Status_value (status (chosen uncomplete toggle now t))
          /\ d_completed_at d' = completed_at (chosen uncomplete toggle now t))
    /\ (success res = false -> disk w' TODOS_FILE = disk w TODOS_FILE).

(** The body of an operation hands back a well-formed result whenever
    it does not raise. *)
Definition shaped (r : outcome OperationResult) (_ : world) : Prop :=
  match r with
  | Ok res => well_formed res
  | Raise _ => True
  end.

(** An operation returns, and what it returns is well formed. *)
Definition returns_well_formed (r : outcome OperationResult) (_ : world) : Prop :=
  exists res, r = Ok res /\ well_formed res.

(** [list_tasks] with the sort step left out: the filtered tasks in
    load order. *)
Definition list_tasks_in_load_order := list_tasks_with (fun l => ret l).

(** The predicates of a filter that do not look at the clock. *)
Definition static_match (f : TaskFilter) (t : Task) : bool :=
  negb (match f_status f with
        | Some s => negb (Status_eqb (status t) s) | None => false end)
  && negb (match f_priority f with
           | Some p => negb (Priority_eqb (priority t) p) | None => false end)
  && negb (match f_category f with
           | Some c => PyStr.truthy c && negb (String.eqb (category t) c)
           | None => false end)
  && negb (match f_completed f with
           | Some b => negb (Bool.eqb (completed t) b) | None => false end).

(** [a] does not come after [b] in the strict order [lt]. *)
Definition not_after {A} (lt : A -> A -> bool) (a b : A) : Prop := lt b a = false.

Definition due_lt (a b : Task) : bool := String.ltb (due_key a) (due_key b).

End Notions.

(* ================================================================== *)
(** ** Further notions *)

(** The path of the backup taken at the clock reading [now]. *)
Definition backup_path (now : PyDatetime.datetime) : string :=
  Storage.BACKUP_PREFIX ++ "." ++ Storage.backup_timestamp now ++ ".json".

(** The due date of [add_task] after its check: validated when it is
    given, passed on as it is otherwise. *)
Definition checked_due (due : option string) : outcome (option string) :=
  if Skills.given due then
    match due with
    | Some d => let? v := Models.validate_due_date d in Ok (Some v)
    | None => Ok None
    end
  else Ok due.

Section QueryNotions.
Import PyStr PyDatetime Models World Storage Skills PySort.
(** Only the clock was read. *)
Definition only_clock (w w' : world) : Prop :=
  disk w' = disk w /\ plan w' = plan w
  /\ clock w' = clock w /\ stdout w' = stdout w
  /\ (ticks w <= ticks w')%nat.

(** The task is open and its due date, taken as it is written, is
    before [now]: both are compared as wall-clock readings, and an
    offset that the due date carries is dropped, not applied
    ([due.replace(tzinfo=None)]). *)
Definition past_due (now : datetime) (t : Task) : Prop :=
  completed t = false
  /\ exists d due,
       due_date t = Some d /\ parse_due d = Some due
       /\ naive_us due < naive_us now.

(** The calls that only ask. *)
Definition is_query (c : call) : bool :=
  match c with
  | ListTasks _ _ _ _ _ _ _ _ _ => true
  | GetUpcomingTasks _ => true
  | GetOverdueTasks => true
  | DeleteTask _ force => negb force
  | _ => false
  end.

(** The task is past due at one of the readings of the clock taken
    between [w] and [w']. *)
Definition past_due_during (w w' : world) (t : Task) : Prop :=
  exists n, (ticks w <= n < ticks w')%nat /\ past_due (clock w n) t.

(** What a listing holds, for the statements below. *)
Definition listing_post (st priority category : option string)
    (done : option bool) (overdue : bool) (limit : option Z) (fmt : string)
    (w : world) (r : outcome OperationResult) (w' : world) : Prop :=
  disk w' = disk w /\ stdout w' = stdout w
  /\ forall res, r = Ok res -> success res = true ->
       exists ds ts f l,
         stored_tasks (disk w TODOS_FILE) = Some ds
         /\ map_outcome from_dict ds = Ok ts
         /\ build_filter st priority category done overdue = Ok f
         /\ res = format_output fmt (apply_limit limit l)
         /\ forall t, In t l ->
              In t ts /\ static_match f t = true
              /\ (overdue = true -> completed t = false /\ due_date t <> None).

(** What the overdue report holds, for the statements below. *)
Definition overdue_post (w : world) (r : outcome OperationResult) (w' : world)
  : Prop :=
  disk w' = disk w /\ stdout w' = stdout w
  /\ forall res, r = Ok res -> success res = true ->
       exists ds ts l,
         stored_tasks (disk w TODOS_FILE) = Some ds
         /\ map_outcome from_dict ds = Ok ts
         /\ res = success_result
                    ("Found " ++ PyStr.of_Z (Z.of_nat (List.length l))
                     ++ " overdue tasks")
                    (Some (PTasks (map to_dict l)))
         /\ StronglySorted
              (fun a b => priority_rank (priority a) <= priority_rank (priority b)) l
         /\ forall t, In t l -> In t ts /\ past_due_during w w' t.
End QueryNotions.

Section ChangeNotions.
Import PyStr PyDatetime Models World Storage Skills PySort.

(** The updates that [complete_task] hands to the store for the task
    [t] it has marked. *)
Definition completion_updates (t : Task) : list field_update :=
  [UCompleted (completed t);
   UStatus (Status_value (status t));
   UCompletedAt (completed_at t);
   UUpdatedAt (updated_at t)].

(** The entries that [update_task] of the engine can put in its
    updates: no [completed_at], no [updated_at], and [completed] only
    to set it. *)
Definition user_field (u : field_update) : bool :=
  match u with
  | UCompletedAt _ | UUpdatedAt _ | UCompleted false => false
  | _ => true
  end.

(** What a successful [complete_task] returns and leaves behind. *)
Definition completed_exactly (task_id : Z) (uncomplete toggle : bool)
    (w : world) (r : outcome OperationResult) (w' : world)
  : Prop :=
  forall res, r = Ok res -> success res = true ->
    exists l d t,
      stored_tasks (disk w TODOS_FILE) = Some l
      /\ first_with_id task_id l = Some d
      /\ from_dict d = Ok t
      /\ let t' := chosen uncomplete toggle (clock w (ticks w)) t in
         data res = Some (PTask (to_dict t'))
         /\ disk w' TODOS_FILE
            = Some (Tasks
                      (update_first task_id
                         (touched (completion_updates t')
                            (clock w (S (ticks w)))) l)).

(** What a successful [update_task] of the engine returns and leaves
    behind. *)
Definition updated_exactly (task_id : Z)
    (ttl priority category st due : option string)
    (w : world) (r : outcome OperationResult) (w' : world)
  : Prop :=
  (forall e, build_updates ttl priority category st due = Raise e ->
     disk w' = disk w
     /\ exists res, r = Ok res /\ success res = false)
  /\ forall res, r = Ok res -> success res = true ->
    exists l d ups changes,
      stored_tasks (disk w TODOS_FILE) = Some l
      /\ first_with_id task_id l = Some d
      /\ build_updates ttl priority category st due = Ok (ups, changes)
      /\ data res
         = Some (PTask (touched ups (clock w (ticks w)) d))
      /\ disk w' TODOS_FILE
         = Some (Tasks
                   (update_first task_id
                      (touched ups (clock w (ticks w))) l)).

(** What [set_due_date] returns and leaves behind. *)
Definition due_date_set (task_id : Z) (due : string)
    (w : world) (r : outcome OperationResult) (w' : world)
  : Prop :=
  exists res,
    r = Ok res
    /\ (success res = false ->
        disk w' TODOS_FILE = disk w TODOS_FILE)
    /\ (success res = true ->
        exists l d v,
          stored_tasks (disk w TODOS_FILE) = Some l
          /\ first_with_id task_id l = Some d
          /\ validate_due_date due = Ok v
          /\ data res = Some (PDue task_id v)
          /\ disk w' TODOS_FILE
             = Some (Tasks
                       (update_first task_id
                          (touched [UDueDate (Some v)]
                             (clock w (ticks w))) l))).

End ChangeNotions.

(** [s] is the number [n] written with exactly [w] decimal digits. *)
Definition written (w : nat) (s : string) (n : Z) : Prop :=
  String.length s = w /\ all_chars is_digit s = true
  /\ PyDatetime.parse_int s = Some n.

(** The offsets that [timezone] accepts: less than a day either way. *)
Definition offset_ok (tz : option Z) : Prop :=
  match tz with
  | None => True
  | Some o => - PyDatetime.US_PER_DAY < o < PyDatetime.US_PER_DAY
  end.

(** The characters of a clock reading or of an offset behind its sign. *)
Definition unsigned_char (c : ascii) : bool :=
  is_digit c || Ascii.eqb c ":" || Ascii.eqb c ".".

(** ** Web variant: models.py, skills/db_crud_skill.py,
       agents/task_orchestrator.py and the endpoints of main.py

    The database is reached through an SQLModel session.  Of the
    session the model keeps what the code relies on: the table "tasks"
    as a map from the primary key to the other columns, and the key
    that the database handed out last (the key column is a serial, a
    new row gets the next value).  [session.get] reads a row,
    [session.add] with [commit] and [refresh] writes the row of the
    object and hands the object back as stored, [session.delete] with
    [commit] removes the row.  Queries ([list_tasks]) are not
    modelled. *)

Module WebApp.

(** models.py: [Priority] *)
Inductive Priority := HIGH | MEDIUM | LOW.

(** The columns of a task apart from its key. *)
Record Columns := mk_Columns {
  c_title : string;
  c_description : option string;
  c_is_completed : bool;
  c_priority : Priority;
  c_category : option string;
  c_due_date : option PyDatetime.datetime;
  c_is_recurring : bool;
  c_user_id : string
}.

(** models.py: a [Task] object that is bound to a row. *)
Record Task := mk_Task { id : Z; columns : Columns }.

Definition title (t : Task) : string := c_title (columns t).
Definition priority (t : Task) : Priority := c_priority (columns t).
Definition category (t : Task) : option string := c_category (columns t).
Definition due_date (t : Task) : option PyDatetime.datetime :=
  c_due_date (columns t).
Definition user_id (t : Task) : string := c_user_id (columns t).

Record Session := mk_Session {
  rows : Z -> option Columns;
  last_id : Z
}.

(** [session.add(task); session.commit(); session.refresh(task)] for an
    object that is bound to a row. *)
Definition persist (s : Session) (t : Task) : Session :=
  mk_Session (fun i => if i =? id t then Some (columns t) else rows s i)
    (last_id s).

(** db_crud_skill.py: [create_task]; the object is new, the database
    gives it the next key. *)
Definition db_create_task (s : Session) (user : string) (ttl : string)
    (descr : option string) (prio : Priority) (cat : option string)
    (due : option PyDatetime.datetime) (recurring : bool) : Task * Session :=
  let task := mk_Task (last_id s + 1)
                (mk_Columns ttl descr false prio cat due recurring user) in
  (task,
   mk_Session (fun i => if i =? id task then Some (columns task) else rows s i)
     (last_id s + 1)).

(** db_crud_skill.py: [get_task_by_id] *)
Definition get_task_by_id (s : Session) (task_id : Z) : option Task :=
  option_map (mk_Task task_id) (rows s task_id).

Definition or_keep {A} (new : option A) (old : A) : A :=
  match new with Some v => v | None => old end.

(** db_crud_skill.py: [update_task]: a field that is [None] is left as
    it is. *)
Definition db_update_task (s : Session) (task : Task)
    (ttl descr : option string) (done : option bool) (prio : option Priority)
    (cat : option string) (due : option PyDatetime.datetime)
    (recurring : option bool) : Task * Session :=
  let c := columns task in
  let task :=
    mk_Task (id task)
      (mk_Columns (or_keep ttl (c_title c))
         (match descr with Some v => Some v | None => c_description c end)
         (or_keep done (c_is_completed c))
         (or_keep prio (c_priority c))
         (match cat with Some v => Some v | None => c_category c end)
         (match due with Some v => Some v | None => c_due_date c end)
         (or_keep recurring (c_is_recurring c))
         (c_user_id c)) in
  (task, persist s task).

(** db_crud_skill.py: [delete_task] *)
Definition db_delete_task (s : Session) (task : Task) : Session :=
  mk_Session (fun i => if i =? id task then None else rows s i) (last_id s).

(** The dictionary that the orchestrator returns. *)
Record result := mk_result {
  success : bool;
  task : option Task;
  error : option string
}.

Definition NOT_FOUND : string := "Task not found".

(** task_orchestrator.py: [TaskOrchestrator.create_task] *)
Definition create_task (s : Session) (user : string) (ttl : string)
    (descr : option string) (prio : Priority) (cat : option string)
    (due : option PyDatetime.datetime) (recurring : bool) : result * Session :=
  let '(title_valid, title_error) := Web.validate_task_title (Some ttl) in
  if negb title_valid then (mk_result false None title_error, s)
  else
    let '(category_valid, category_error) := Web.validate_task_category cat in
    if negb category_valid then (mk_result false None category_error, s)
    else
      let '(task, s') := db_create_task s user ttl descr prio cat due recurring in
      (mk_result true (Some task) None, s').

(** task_orchestrator.py: [TaskOrchestrator.update_task] *)
Definition update_task (s : Session) (task_id : Z) (user : string)
    (ttl descr : option string) (done : option bool) (prio : option Priority)
    (cat : option string) (due : option PyDatetime.datetime)
    (recurring : option bool) : result * Session :=
  match get_task_by_id s task_id with
  | None => (mk_result false None (Some NOT_FOUND), s)
  | Some task =>
      if negb (String.eqb (user_id task) user) then
        (mk_result false None (Some NOT_FOUND), s)
      else
        let '(title_valid, title_error) :=
          match ttl with
          | Some _ => Web.validate_task_title ttl
          | None => (true, None)
          end in
        if negb title_valid then (mk_result false None title_error, s)
        else
          let '(category_valid, category_error) :=
            match cat with
            | Some _ => Web.validate_task_category cat
            | None => (true, None)
            end in
          if negb category_valid then (mk_result false None category_error, s)
          else
            let '(updated_task, s') :=
              db_update_task s task ttl descr done prio cat due recurring in
            (mk_result true (Some updated_task) None, s')
  end.

(** task_orchestrator.py: [TaskOrchestrator.delete_task] *)
Definition delete_task (s : Session) (task_id : Z) (user : string)
  : result * Session :=
  match get_task_by_id s task_id with
  | None => (mk_result false None (Some NOT_FOUND), s)
  | Some task =>
      if negb (String.eqb (user_id task) user) then
        (mk_result false None (Some NOT_FOUND), s)
      else (mk_result true None None, db_delete_task s task)
  end.

(** [sub in s] *)
Fixpoint contains (sub s : string) : bool :=
  prefix sub s
  || match s with
     | EmptyString => false
     | String _ s' => contains sub s'
     end.

(** What an endpoint answers: the model it returns under its status
    code, an [HTTPException], or the [TypeError] of [in] on [None]. *)
Inductive response :=
| Return (status_code : Z) (body : option Task)
| HTTPException (status_code : Z) (detail : option string)
| Crash.

(** main.py: [create_todo]; the optional [priority] and [is_recurring]
    of the request are present. *)
Definition create_todo (s : Session) (user : string) (ttl : string)
    (descr : option string) (prio : Priority) (cat : option string)
    (due : option PyDatetime.datetime) (recurring : bool) : response * Session :=
  let '(r, s') := create_task s user ttl descr prio cat due recurring in
  if negb (success r) then
    match error r with
    | None => (Crash, s')
    | Some e =>
        let status_code := if contains "cannot be empty" e then 400 else 422 in
        (HTTPException status_code (error r), s')
    end
  else (Return 201 (task r), s').

(** main.py: [update_todo] *)
Definition update_todo (s : Session) (task_id : Z) (user : string)
    (ttl descr : option string) (done : option bool) (prio : option Priority)
    (cat : option string) (due : option PyDatetime.datetime)
    (recurring : option bool) : response * Session :=
  let '(r, s') := update_task s task_id user ttl descr done prio cat due
                    recurring in
  if negb (success r) then
    match error r with
    | None => (Crash, s')
    | Some e =>
        let status_code :=
          if String.eqb e "Task not found" then 404
          else if contains "cannot be empty" e then 400
          else 422 in
        (HTTPException status_code (error r), s')
    end
  else (Return 200 (task r), s').

(** main.py: [delete_todo] *)
Definition delete_todo (s : Session) (task_id : Z) (user : string)
  : response * Session :=
  let '(r, s') := delete_task s task_id user in
  if negb (success r) then (HTTPException 404 (error r), s')
  else (Return 204 None, s').

End WebApp.

(* ================================================================== *)
(** ** Sample data *)


Definition padded_title : string := " " ++ PyStr.repeat "a" 500.

(** A store that does not exist yet, no failure planned, a clock that
    advances one second per reading from 2025-01-15 10:00:00 (within
    the hour). *)
Definition fresh_world : World.world :=
  World.mk_world (fun _ => None) []
    (fun n => PyDatetime.mk_datetime 2025 1 15 10 (Z.of_nat n / 60) (Z.of_nat n mod 60) 0 None) 0 [].

Definition sample_ops : list op :=
  [Create "a" "medium" "general" None; Create "b" "high" "" None;
   Delete 2; Create "c" "low" "home" None].

Definition sample_run : list event * World.world :=
  match history sample_ops fresh_world with
  | Some r => r
  | None => ([], fresh_world)
  end.

(** A store that holds the tasks [l], no failure planned. *)
Definition world_with (l : list Models.task_dict) : World.world :=
  World.mk_world
    (fun p => if String.eqb p Storage.TODOS_FILE then Some (World.Tasks l) else None)
    []
    (fun n => PyDatetime.mk_datetime 2025 1 15 10 (Z.of_nat n / 60) (Z.of_nat n mod 60) 0 None) 0 [].

(** The same world with the failures [pl] planned. *)
Definition with_plan (pl : list World.fault) (w : World.world) : World.world :=
  World.mk_world (World.disk w) pl (World.clock w) (World.ticks w) (World.stdout w).

Definition milk : Models.task_dict :=
  Models.mk_task_dict 1 "Buy milk" "medium" "general" "pending" false
    "2025-01-14T09:00:00Z" None None None.

Definition finished : Models.task_dict :=
  Models.mk_task_dict 1 "Buy milk" "medium" "general" "completed" true
    "2025-01-14T09:00:00Z" (Some "2025-01-14T12:00:00Z")
    (Some "2025-01-14T12:00:00Z") None.

Definition errand : Models.task_dict :=
  Models.mk_task_dict 1 "File taxes" "high" "work" "pending" false
    "2025-01-10T09:00:00Z" None None (Some "2025-01-15T22:00:00").

Definition chore : Models.task_dict :=
  Models.mk_task_dict 2 "Water plants" "low" "home" "pending" false
    "2025-01-11T09:00:00Z" None None (Some "2025-01-15T10:00:00").

(** The ids of a listing in "json" shape. *)
Definition listed_ids (r : outcome Models.OperationResult) : option (list Z) :=
  match r with
  | Ok res =>
      match Models.data res with
      | Some (Models.PTasks l) => Some (map Models.d_id l)
      | _ => None
      end
  | Raise _ => None
  end.

Definition errand_task : Models.Task :=
  Models.mk_Task 1 "File taxes" Models.HIGH "work" Models.PENDING false
    "2025-01-10T09:00:00Z" None None (Some "2025-01-15T22:00:00").

Definition chore_task : Models.Task :=
  Models.mk_Task 2 "Water plants" Models.LOW "home" Models.PENDING false
    "2025-01-11T09:00:00Z" None None (Some "2025-01-15T10:00:00").

(** A record as a hand-edited store may hold it, and the task it reads as. *)
Definition shouted : Models.task_dict :=
  Models.mk_task_dict 3 "  Call home " "HIGH" "family" "In_Progress" false
    "2025-01-12T09:00:00Z" None None None.

Definition shouted_task : Models.Task :=
  Models.mk_Task 3 "Call home" Models.HIGH "family" Models.IN_PROGRESS false
    "2025-01-12T09:00:00Z" None None None.

Definition rent_task : Models.Task :=
  Models.mk_Task 7 "Pay rent" Models.HIGH "home" Models.PENDING false
    "2025-01-01T09:00:00Z" None None (Some "2025-01-14T00:00:00Z").

(** The result of a run, for the examples. *)
Definition result_of (run : outcome Models.OperationResult * World.world)
  : Models.OperationResult :=
  match fst run with
  | Ok res => res
  | Raise _ => Models.error_result "" ""
  end.


(* ================================================================== *)
(** * Properties *)


(** ** Title validation of the web variant *)

Section WebTitle.

Lemma truthy_length (s : string) :
  PyStr.truthy s = true <-> (1 <= String.length s)%nat.
Proof.
  destruct s; simpl; split; intros H; try discriminate; try lia; reflexivity.
Qed.

(** C10, as it holds on the code: when the trimmed title is not empty
    and at most 500 characters long while the raw title is longer than
    500, [validate_task_title] fails with the too-long error. *)
Theorem web_title_limit_on_raw_length (t : string) :
  (1 <= String.length (PyStr.strip t))%nat ->
  (String.length (PyStr.strip t) <= 500)%nat ->
  (500 < String.length t)%nat ->
  Web.validate_task_title (Some t)
  = (false, Some "Title cannot exceed 500 characters").
Proof.
  intros Hne _ Hraw. unfold Web.validate_task_title.
  destruct (String.eqb_spec t "") as [-> | _].
  - simpl in Hraw. lia.
  - apply truthy_length in Hne. rewrite Hne. simpl.
    apply Nat.ltb_lt in Hraw. rewrite Hraw. reflexivity.
Qed.

End WebTitle.

Lemma web_title_limit_on_raw_length_witness :
  Web.validate_task_title (Some padded_title)
  = (false, Some "Title cannot exceed 500 characters").
Proof.
  apply (web_title_limit_on_raw_length padded_title).
  - apply Nat.leb_le. vm_compute. reflexivity.
  - apply Nat.leb_le. vm_compute. reflexivity.
  - apply Nat.ltb_lt. vm_compute. reflexivity.
Defined.

(** C10 as stated does not hold: a title of 501 spaces has a trimmed
    length of 0 and a raw length above 500, and is rejected as empty,
    not as too long. *)
Lemma web_title_blank_is_not_too_long :
  ~ (forall t : string,
       (String.length (PyStr.strip t) <= 500)%nat ->
       (500 < String.length t)%nat ->
       Web.validate_task_title (Some t)
       = (false, Some "Title cannot exceed 500 characters")).
Proof.
  intros H. specialize (H (PyStr.repeat " " 501)).
  assert (Hv : Web.validate_task_title (Some (PyStr.repeat " " 501))
               = (false, Some "Title is required and cannot be empty"))
    by (vm_compute; reflexivity).
  rewrite Hv in H.
  assert (Hc : (false, Some "Title is required and cannot be empty")
               = (false, Some "Title cannot exceed 500 characters") -> False)
    by (intros E; inversion E).
  apply Hc, H.
  - apply Nat.leb_le. vm_compute. reflexivity.
  - apply Nat.ltb_lt. vm_compute. reflexivity.
Qed.

(** ** Due-date normalisation *)

Section DueDate.
Import PyDatetime.

Lemma all_chars_app p (a b : string) :
  all_chars p (a ++ b) = all_chars p a && all_chars p b.
Proof.
  induction a as [|c a IH]; simpl; [reflexivity|].
  rewrite IH. apply andb_assoc.
Qed.

Lemma all_chars_weaken (p q : ascii -> bool) (s : string) :
  (forall c, p c = true -> q c = true) ->
  all_chars p s = true -> all_chars q s = true.
Proof.
  intros Hpq. induction s as [|c s IH]; simpl; [reflexivity|].
  intros H. apply andb_true_iff in H as [Hc Hs].
  rewrite (Hpq _ Hc), (IH Hs). reflexivity.
Qed.

Lemma string_of_uint_digits (u : Decimal.uint) :
  all_chars is_digit (NilEmpty.string_of_uint u) = true.
Proof. induction u; simpl; auto. Qed.

Lemma repeat_zero_digits (n : nat) :
  all_chars is_digit (PyStr.repeat "0" n) = true.
Proof. induction n; simpl; auto. Qed.

Lemma zfill_digits (w : nat) (n : Z) :
  all_chars is_digit (PyStr.zfill w n) = true.
Proof.
  unfold PyStr.zfill. rewrite all_chars_app, repeat_zero_digits.
  apply string_of_uint_digits.
Qed.

Lemma zfill_iso (w : nat) (n : Z) :
  all_chars iso_char (PyStr.zfill w n) = true.
Proof.
  apply all_chars_weaken with (p := is_digit); [|apply zfill_digits].
  intros c Hc. unfold iso_char. rewrite Hc. reflexivity.
Qed.

Lemma isoformat_naive_chars (dt : datetime) :
  all_chars iso_char (isoformat_naive dt) = true.
Proof.
  unfold isoformat_naive.
  repeat (rewrite all_chars_app; apply andb_true_iff; split);
    try apply zfill_iso; try reflexivity.
  destruct (negb (microsecond dt =? 0)); [|reflexivity].
  rewrite all_chars_app. rewrite zfill_iso. reflexivity.
Qed.

Lemma append_nil_r_iso (a : string) : a ++ "" = a.
Proof. induction a as [|c a IH]; simpl; [reflexivity|]. now rewrite IH. Qed.

Lemma prefix_head_differs (c d : ascii) (a b : string) :
  c <> d -> prefix (String c a) (String d b) = false.
Proof.
  intros Hne. cbn [prefix].
  destruct (ascii_dec c d) as [E | _]; [contradiction | reflexivity].
Qed.

Lemma replace_from_step (old new : string) (c : ascii) (s : string) :
  PyStr.replace_from old new 0 (String c s)
  = if prefix old (String c s)
    then new ++ PyStr.replace_from old new (String.length old - 1) s
    else String c (PyStr.replace_from old new 0 s).
Proof. reflexivity. Qed.


Lemma iso_chars_no_Z (a : string) :
  all_chars iso_char a = true -> PyStr.contains_char "Z" a = false.
Proof.
  induction a as [|c a IH]; [reflexivity|].
  intros H. cbn [all_chars] in H. apply andb_true_iff in H as [Hc Ha].
  cbn [PyStr.contains_char]. rewrite (IH Ha), orb_false_r.
  destruct (Ascii.eqb_spec "Z"%char c) as [<- | _]; [discriminate Hc|reflexivity].
Qed.


End DueDate.


(** A non-zero offset is kept as written, not converted to UTC. *)
Example validate_due_date_keeps_offset :
  Models.validate_due_date "2025-01-15T10:00:00+05:00"
  = Ok "2025-01-15T10:00:00+05:00".
Proof. reflexivity. Qed.

Example validate_due_date_zulu :
  Models.validate_due_date "2025-01-15T10:00:00Z" = Ok "2025-01-15T10:00:00Z".
Proof. reflexivity. Qed.


(** ** Reasoning about computations in the world *)

Section Wp.
Import World.

Lemma wp_run {A} (m : M A) Q w r w' :
  wp m Q w -> m w = (r, w') -> Q r w'.
Proof. unfold wp. intros H E. rewrite E in H. exact H. Qed.

Lemma wp_mono {A} (m : M A) (Q Q' : outcome A -> world -> Prop) w :
  wp m Q w -> (forall r w', Q r w' -> Q' r w') -> wp m Q' w.
Proof. unfold wp. auto. Qed.

Lemma wp_ret {A} (a : A) Q w : Q (Ok a) w -> wp (ret a) Q w.
Proof. auto. Qed.

Lemma wp_raise {A} k m (Q : outcome A -> world -> Prop) w :
  Q (Raise (mk_exn k m)) w -> wp (raise k m) Q w.
Proof. auto. Qed.

Lemma wp_reraise {A} e (Q : outcome A -> world -> Prop) w :
  Q (Raise e) w -> wp (reraise e) Q w.
Proof. auto. Qed.

Lemma wp_lift {A} (o : outcome A) Q w : Q o w -> wp (lift o) Q w.
Proof. auto. Qed.

Lemma wp_bind {A B} (m : M A) (f : A -> M B) Q w :
  wp m (fun r w1 => match r with
                    | Ok a => wp (f a) Q w1
                    | Raise e => Q (Raise e) w1
                    end) w ->
  wp (bind m f) Q w.
Proof.
  unfold wp, bind. destruct (m w) as [[a | e] w1]; simpl; auto.
Qed.

Lemma wp_try {A} (m : M A) (h : exn -> M A) Q w :
  wp m (fun r w1 => match r with
                    | Ok a => Q (Ok a) w1
                    | Raise e => wp (h e) Q w1
                    end) w ->
  wp (try_except m h) Q w.
Proof.
  unfold wp, try_except. destruct (m w) as [[a | e] w1]; simpl; auto.
Qed.

Lemma wp_finally {A} (m : M A) (c : M unit) Q w :
  wp m (fun r w1 =>
          wp c (fun rc w2 => match rc with
                             | Ok _ => Q r w2
                             | Raise e => Q (Raise e) w2
                             end) w1) w ->
  wp (finally m c) Q w.
Proof.
  unfold wp, finally. destruct (m w) as [r w1]; simpl.
  destruct (c w1) as [[u | e] w2]; simpl; auto.
Qed.

(** Using a specification already proved for [m]. *)
Lemma wp_bind_spec {A B} (m : M A) (f : A -> M B) S Q w :
  wp m S w ->
  (forall a w1, S (Ok a) w1 -> wp (f a) Q w1) ->
  (forall e w1, S (Raise e) w1 -> Q (Raise e) w1) ->
  wp (bind m f) Q w.
Proof.
  intros Hm Hok Herr. apply wp_bind. eapply wp_mono; [exact Hm|].
  intros [a | e] w1 H; auto.
Qed.

End Wp.

(** ** The store *)

Section StoreSpecs.
Import Models World Storage.

Lemma quiet_refl w : quiet w w.
Proof. repeat split; auto. Qed.

Lemma quiet_trans w1 w2 w3 : quiet w1 w2 -> quiet w2 w3 -> quiet w1 w3.
Proof.
  unfold quiet. intros (a & b & c & d & e) (a' & b' & c' & d' & e').
  repeat split; try congruence. lia.
Qed.

Lemma quiet_kept ps w w' : quiet w w' -> others_kept ps w w'.
Proof.
  intros (a & b & c & d & e). repeat split; auto. intros q _. now rewrite a.
Qed.

Lemma upd_same d p c : upd d p c p = c.
Proof. unfold upd. now rewrite String.eqb_refl. Qed.

Lemma upd_other d p c q : q <> p -> upd d p c q = d q.
Proof. unfold upd. intros H. apply String.eqb_neq in H. now rewrite H. Qed.

Lemma others_kept_refl ps w : others_kept ps w w.
Proof. repeat split; auto. Qed.

Lemma others_kept_trans ps w1 w2 w3 :
  others_kept ps w1 w2 -> others_kept ps w2 w3 -> others_kept ps w1 w3.
Proof.
  intros (a & b & c & d & e) (a' & b' & c' & d' & e').
  repeat split; try congruence; try lia.
  intros q Hq. rewrite a', a; auto.
Qed.

Lemma others_kept_more ps qs w w' :
  incl ps qs -> others_kept ps w w' -> others_kept qs w w'.
Proof.
  intros Hi (a & rest). split; [|exact rest].
  intros q Hq. apply a. intros Hin. apply Hq, Hi, Hin.
Qed.

Lemma kept_at ps w w' q : others_kept ps w w' -> ~ In q ps -> disk w' q = disk w q.
Proof. intros (H & _) Hq. auto. Qed.

Lemma load_tasks_spec w :
  wp load_tasks
    (fun r w' =>
       quiet w w' /\
       match r with
       | Ok l => stored_tasks (disk w TODOS_FILE) = Some l
       | Raise e =>
           kind e = StorageError
           /\ ((1 <= failures (plan w))%nat
               \/ stored_tasks (disk w TODOS_FILE) = None)
       end) w.
Proof.
  unfold wp, load_tasks, try_except, bind, path_exists, read_file, syscall,
    next_fault, bind, json_load, quiet.
  destruct w as [dsk pl clk tk out].
  destruct pl as [|[| |?] pl]; cbn [disk plan clock ticks stdout];
    destruct (dsk TODOS_FILE) as [[l | ty | d] |] eqn:E; cbn; rewrite ?E; cbn;
    repeat split; auto; lia.
Qed.

Lemma write_file_spec p c w :
  wp (write_file p c)
    (fun r w' =>
       others_kept [p] w w' /\
       match r with
       | Ok _ => disk w' p = Some c /\ spent 0 w w'
       | Raise e => io_kind e /\ spent 1 w w'
       end) w.
Proof.
  unfold wp, write_file, syscall, next_fault, bind, others_kept, spent, io_kind,
    set_disk, raise.
  destruct w as [dsk pl clk tk out].
  destruct pl as [|[| |?] [|[| |?] pl]]; cbn -[upd];
    repeat match goal with |- _ /\ _ => split end;
    auto using upd_same; try lia.
  all: try (intros q Hq; rewrite ?upd_other; [reflexivity | |];
            intros ->; apply Hq; left; reflexivity).
  all: try (intros q Hq; rewrite ?upd_other; [reflexivity |];
            intros ->; apply Hq; left; reflexivity).
Qed.

Lemma os_replace_spec src dst w :
  src <> dst ->
  wp (os_replace src dst)
    (fun r w' =>
       others_kept [src; dst] w w' /\
       match r with
       | Ok _ => disk w' dst = disk w src /\ disk w src <> None
                 /\ disk w' src = None /\ spent 0 w w'
       | Raise e => io_kind e /\ disk w' = disk w
                    /\ (spent 1 w w' \/ disk w src = None)
       end) w.
Proof.
  intros Hne.
  unfold wp, os_replace, syscall, next_fault, bind, others_kept, spent, io_kind,
    set_disk, raise.
  destruct w as [dsk pl clk tk out].
  destruct pl as [|[| |?] pl]; cbn -[upd];
    destruct (dsk src) as [c0|] eqn:Esrc; cbn -[upd];
    repeat match goal with |- _ /\ _ => split end;
    auto using upd_same; try discriminate; try lia.
  all: try (rewrite upd_other, upd_same by congruence; reflexivity).
  all: try (intros q Hq; rewrite !upd_other; [reflexivity | |];
            intros ->; apply Hq; simpl; auto).
Qed.

Lemma os_remove_spec p w :
  wp (os_remove p)
    (fun r w' =>
       others_kept [p] w w' /\
       match r with
       | Ok _ => disk w' p = None /\ spent 0 w w'
       | Raise e => disk w' = disk w /\ (spent 1 w w' \/ disk w p = None)
       end) w.
Proof.
  unfold wp, os_remove, syscall, next_fault, bind, others_kept, spent,
    set_disk, raise.
  destruct w as [dsk pl clk tk out].
  destruct pl as [|[| |?] pl]; cbn -[upd];
    destruct (dsk p) as [c0|] eqn:Ep; cbn -[upd];
    repeat match goal with |- _ /\ _ => split end;
    auto using upd_same; try lia.
  all: try (intros q Hq; rewrite !upd_other; [reflexivity |];
            intros ->; apply Hq; simpl; auto).
Qed.

Lemma remove_temp_spec w :
  wp remove_temp
    (fun r w' =>
       r = Ok tt /\ others_kept [TEMP_FILE] w w'
       /\ ((disk w' TEMP_FILE = None /\ spent 0 w w')
           \/ (disk w' TEMP_FILE = disk w TEMP_FILE /\ spent 1 w w'))) w.
Proof.
  unfold remove_temp. apply wp_bind. unfold wp at 1, path_exists. cbn [fst snd].
  destruct (disk w TEMP_FILE) as [c|] eqn:E.
  - apply wp_try. eapply wp_mono; [apply os_remove_spec|].
    intros [[] | e] w1 (K & H).
    + destruct H as (Hn & Hs). repeat split; try apply K. left. auto.
    + destruct H as (Hd & [Hs | Hnone]); [|congruence].
      apply wp_ret. repeat split; try apply K. right. rewrite Hd. auto.
  - apply wp_ret. split; [reflexivity|]. split; [apply others_kept_refl|].
    left. split; [exact E | unfold spent; lia].
Qed.

Lemma save_handler_spec e w :
  exists m, save_handler e w = (Raise (mk_exn StorageError m), w).
Proof.
  unfold save_handler, storage_error, raise.
  destruct (isinstance e PermissionError); [eauto|].
  destruct (isinstance e OSError); eauto.
Qed.

Lemma todos_is_not_temp : TEMP_FILE <> TODOS_FILE.
Proof. discriminate. Qed.

Lemma todos_not_in_temp : ~ In TODOS_FILE [TEMP_FILE].
Proof. intros [H | []]. discriminate H. Qed.

Ltac kept_chain :=
  repeat match goal with
  | H : others_kept ?ps ?a ?b |- others_kept _ ?a ?c =>
      apply others_kept_trans with b;
      [ eapply others_kept_more; [|exact H];
        let q := fresh in intros q; simpl; tauto
      | clear H ]
  end;
  try apply others_kept_refl.

Lemma save_failure_post tasks w w1 e :
  others_kept [TODOS_FILE; TEMP_FILE] w w1 ->
  disk w1 TODOS_FILE = disk w TODOS_FILE ->
  (1 <= failures (plan w) - failures (plan w1))%nat ->
  wp (save_handler e)
    (fun r w1' => wp remove_temp
       (fun rc w2' => match rc with
                      | Ok _ => save_post tasks w r w2'
                      | Raise e0 => save_post tasks w (Raise e0) w2'
                      end) w1') w1.
Proof.
  intros K Hd Hs.
  destruct (save_handler_spec e w1) as (m & Hh). unfold wp at 1.
  rewrite Hh. cbn [fst snd].
  eapply wp_mono; [apply remove_temp_spec|].
  intros r w3 (-> & K3 & H3).
  split; [|split].
  - right. split; [reflexivity|]. split; [|lia].
    rewrite (kept_at _ _ _ _ K3 todos_not_in_temp). exact Hd.
  - intros Hf. destruct H3 as [[H _] | [_ H]]; [exact H|].
    unfold spent in *. lia.
  - kept_chain.
Qed.

Lemma save_tasks_spec tasks w : wp (save_tasks tasks) (save_post tasks w) w.
Proof.
  unfold save_tasks. apply wp_finally, wp_try.
  eapply wp_bind_spec; [apply write_file_spec | |].
  - intros [] w1 (K1 & D1 & S1).
    eapply wp_bind_spec; [apply (os_replace_spec _ _ _ todos_is_not_temp) | |].
    + intros [] w2 (K2 & D2 & _ & N2 & S2). apply wp_ret.
      eapply wp_mono; [apply remove_temp_spec|].
      intros r w3 (-> & K3 & H3).
      assert (Htmp : disk w3 TEMP_FILE = None)
        by (destruct H3 as [[H _] | [H _]]; congruence).
      split; [|split].
      * left. split; [reflexivity|]. split; [|exact Htmp].
        rewrite (kept_at _ _ _ _ K3 todos_not_in_temp). congruence.
      * intros _. exact Htmp.
      * kept_chain.
    + intros e w2 (K2 & IO & Dsk & Sp).
      apply save_failure_post.
      * kept_chain.
      * rewrite Dsk. apply (kept_at _ _ _ _ K1). intros [H | []]. discriminate H.
      * destruct Sp as [Sp | Sp]; [|congruence]. unfold spent in *. lia.
  - intros e w1 (K1 & IO & S1).
    apply save_failure_post.
    + kept_chain.
    + apply (kept_at _ _ _ _ K1). intros [H | []]. discriminate H.
    + unfold spent in *. lia.
Qed.

(** C2: [save_tasks] is all-or-nothing.  Whatever system calls the
    environment fails, either the call returns [True], the canonical
    file holds the full collection and no temporary file is left, or it
    raises a [StorageError] (which takes a failed system call) and the
    canonical file holds what it held before.  The temporary file is
    removed afterwards on both exits, and it is gone for certain unless
    a second system call (its removal) failed too.  No other file, nor
    the clock or the console, is touched. *)
Theorem save_tasks_all_or_nothing (tasks : list task_dict) (w : world) :
  let r := fst (save_tasks tasks w) in
  let w' := snd (save_tasks tasks w) in
  ((r = Ok true
    /\ disk w' TODOS_FILE = Some (Tasks tasks)
    /\ disk w' TEMP_FILE = None)
   \/ ((exists m, r = Raise (mk_exn StorageError m))
       /\ disk w' TODOS_FILE = disk w TODOS_FILE
       /\ (1 <= failures (plan w))%nat))
  /\ ((failures (plan w) <= 1)%nat -> disk w' TEMP_FILE = None)
  /\ (forall p, p <> TODOS_FILE -> p <> TEMP_FILE -> disk w' p = disk w p)
  /\ clock w' = clock w /\ ticks w' = ticks w /\ stdout w' = stdout w.
Proof.
  intros r w'. pose proof (save_tasks_spec tasks w) as H. unfold wp in H.
  fold r w' in H. destruct H as (H1 & H2 & (H3 & H4 & H5 & H6 & _)).
  split; [|split; [exact H2|]].
  - destruct H1 as [H1 | (He & Hd & Hf)]; [left; exact H1 | right].
    split; [|split; assumption].
    destruct r as [b | [k m]]; [contradiction|]. simpl in He. subst k. eauto.
  - split; [|auto].
    intros p Hp1 Hp2. apply H3. intros [E | [E | []]]; congruence.
Qed.

Lemma wp_wrap {A} (m : M A) (pre : string) (Q : outcome A -> world -> Prop) w :
  wp m (fun r w1 => match r with
                    | Ok a => Q (Ok a) w1
                    | Raise e => Q (Raise (mk_exn StorageError (pre ++ msg e))) w1
                    end) w ->
  wp (try_except m (fun e => storage_error (pre ++ msg e))) Q w.
Proof.
  intros H. apply wp_try. eapply wp_mono; [exact H|].
  intros [a | e] w1 Hq; [exact Hq|]. exact Hq.
Qed.

Lemma get_next_id_spec w :
  wp get_next_id
    (fun r w' =>
       quiet w w' /\
       match r with
       | Ok i => exists l, stored_tasks (disk w TODOS_FILE) = Some l /\ i = next_id l
       | Raise e => read_failed w e
       end) w.
Proof.
  unfold get_next_id. apply wp_wrap.
  eapply wp_bind_spec; [apply load_tasks_spec | |].
  - intros l w1 (Hq & Hl). destruct l as [|t rest]; apply wp_ret;
      (split; [exact Hq|]); eexists; split; try exact Hl; reflexivity.
  - intros e w1 (Hq & Hk & Hf). split; [exact Hq|]. split; [reflexivity|exact Hf].
Qed.

Lemma find_task_by_id_spec task_id w :
  wp (find_task_by_id task_id)
    (fun r w' =>
       quiet w w' /\
       match r with
       | Ok o => exists l, stored_tasks (disk w TODOS_FILE) = Some l
                           /\ o = first_with_id task_id l
       | Raise e => read_failed w e
       end) w.
Proof.
  unfold find_task_by_id. apply wp_wrap.
  eapply wp_bind_spec; [apply load_tasks_spec | |].
  - intros l w1 (Hq & Hl). apply wp_ret. split; [exact Hq|]. eauto.
  - intros e w1 (Hq & Hk & Hf). split; [exact Hq|]. split; [reflexivity|exact Hf].
Qed.

Lemma update_loop_spec task_id updates l w :
  update_loop task_id updates l w =
  match first_with_id task_id l with
  | None => (Ok (false, l), w)
  | Some _ =>
      (Ok (true, update_first task_id (touched updates (clock w (ticks w))) l),
       tick w)
  end.
Proof.
  induction l as [|t rest IH]; [reflexivity|].
  cbn [update_loop first_with_id update_first].
  destruct (d_id t =? task_id); [reflexivity|].
  unfold bind. rewrite IH. destruct (first_with_id task_id rest); reflexivity.
Qed.

Lemma assign_id d u : d_id (assign d u) = d_id d.
Proof. destruct u; reflexivity. Qed.

Lemma apply_updates_id us d : d_id (apply_updates us d) = d_id d.
Proof.
  unfold apply_updates. revert d.
  induction us as [|u us IH]; intros d; [reflexivity|].
  simpl. rewrite IH. apply assign_id.
Qed.

Lemma touched_id us now d : d_id (touched us now d) = d_id d.
Proof. unfold touched. rewrite assign_id. apply apply_updates_id. Qed.

Lemma first_with_id_update task_id f l d :
  (forall t, d_id (f t) = d_id t) ->
  first_with_id task_id l = Some d ->
  first_with_id task_id (update_first task_id f l) = Some (f d).
Proof.
  intros Hf. induction l as [|t rest IH]; [discriminate|].
  cbn [first_with_id update_first].
  destruct (d_id t =? task_id) eqn:E.
  - intros H. injection H as <-. cbn [first_with_id]. now rewrite Hf, E.
  - intros H. cbn [first_with_id]. rewrite E. auto.
Qed.

Lemma first_with_id_update_other task_id other f l :
  (forall t, d_id (f t) = d_id t) ->
  other <> task_id ->
  first_with_id other (update_first task_id f l) = first_with_id other l.
Proof.
  intros Hf Hne. induction l as [|t rest IH]; [reflexivity|].
  cbn [first_with_id update_first].
  destruct (d_id t =? task_id) eqn:E.
  - cbn [first_with_id]. rewrite Hf.
    apply Z.eqb_eq in E. rewrite E.
    destruct (task_id =? other) eqn:E2; [|reflexivity].
    apply Z.eqb_eq in E2. congruence.
  - cbn [first_with_id]. rewrite IH. reflexivity.
Qed.

Lemma kept_files_refl w : others_kept_files w w.
Proof. repeat split; auto. Qed.

Lemma kept_files_trans w1 w2 w3 :
  others_kept_files w1 w2 -> others_kept_files w2 w3 -> others_kept_files w1 w3.
Proof.
  intros (a & b & c) (a' & b' & c'). repeat split; try congruence; try lia.
  intros q H1 H2. rewrite a', a; auto.
Qed.

Lemma kept_files_of_kept w w' :
  others_kept [TODOS_FILE; TEMP_FILE] w w' -> others_kept_files w w'.
Proof.
  intros (a & b & _ & _ & e). repeat split; auto.
  intros q H1 H2. apply a. intros [E | [E | []]]; congruence.
Qed.

Lemma kept_files_of_quiet w w' : quiet w w' -> others_kept_files w w'.
Proof.
  intros (a & b & _ & _ & e). repeat split; auto. intros q _ _. now rewrite a.
Qed.

Lemma kept_files_tick w : others_kept_files w (tick w).
Proof. repeat split; auto. Qed.

Lemma update_task_spec task_id updates w :
  wp (Storage.update_task task_id updates) (update_post task_id updates w) w.
Proof.
  unfold Storage.update_task. apply wp_wrap.
  eapply wp_bind_spec; [apply load_tasks_spec | |].
  - intros l w1 (Hq & Hl). apply wp_bind. unfold wp at 1.
    rewrite update_loop_spec.
    destruct (first_with_id task_id l) as [d|] eqn:Hfind; cbn [fst snd negb].
    + eapply wp_bind_spec; [apply save_tasks_spec | |].
      * intros b w2 (Hs & _ & Hk). apply wp_ret.
        split.
        { apply kept_files_trans with w1; [apply kept_files_of_quiet, Hq|].
          apply kept_files_trans with (tick w1); [apply kept_files_tick|].
          apply kept_files_of_kept, Hk. }
        destruct Hs as [(_ & Hd & _) | (He & _)]; [|contradiction].
        exists l, d. repeat split; auto.
        destruct Hq as (_ & Hc & Ht & _). rewrite <- Hc, <- Ht. exact Hd.
      * intros e w2 (Hs & _ & Hk).
        destruct Hs as [(Hr & _) | (He & Hd & Hf)]; [discriminate Hr|].
        split.
        { apply kept_files_trans with w1; [apply kept_files_of_quiet, Hq|].
          apply kept_files_trans with (tick w1); [apply kept_files_tick|].
          apply kept_files_of_kept, Hk. }
        split; [reflexivity|]. split.
        { rewrite Hd. cbn [tick disk]. destruct Hq as (Hdsk & _). now rewrite Hdsk. }
        left. cbn [tick plan] in Hf. destruct Hq as (_ & _ & _ & _ & Hm). lia.
    + apply wp_ret. split; [apply kept_files_of_quiet, Hq|].
      exists l. repeat split; auto. destruct Hq as (Hdsk & _). now rewrite Hdsk.
  - intros e w1 (Hq & Hk & Hf).
    split; [apply kept_files_of_quiet, Hq|].
    split; [reflexivity|]. split; [|exact Hf].
    destruct Hq as (Hdsk & _). now rewrite Hdsk.
Qed.

Lemma filter_length_same (task_id : Z) (l : list task_dict) :
  Nat.eqb (List.length (filter (fun t => negb (d_id t =? task_id)) l))
          (List.length l)
  = match first_with_id task_id l with None => true | Some _ => false end.
Proof.
  induction l as [|t rest IH]; [reflexivity|].
  cbn [filter first_with_id List.length].
  destruct (d_id t =? task_id); cbn [negb].
  - apply Nat.eqb_neq.
    pose proof (filter_length_le (fun t => negb (d_id t =? task_id)) rest). lia.
  - cbn [List.length Nat.eqb]. exact IH.
Qed.

Lemma delete_task_spec task_id w :
  wp (Storage.delete_task task_id) (delete_post task_id w) w.
Proof.
  unfold Storage.delete_task. apply wp_wrap.
  eapply wp_bind_spec; [apply load_tasks_spec | |].
  - intros l w1 (Hq & Hl). rewrite filter_length_same.
    destruct (first_with_id task_id l) as [d|] eqn:Hfind.
    + eapply wp_bind_spec; [apply save_tasks_spec | |].
      * intros b w2 (Hs & _ & Hk). apply wp_ret.
        split.
        { apply kept_files_trans with w1; [apply kept_files_of_quiet, Hq|].
          apply kept_files_of_kept, Hk. }
        destruct Hs as [(_ & Hd & _) | (He & _)]; [|contradiction].
        exists l. repeat split; auto. congruence.
      * intros e w2 (Hs & _ & Hk).
        destruct Hs as [(Hr & _) | (He & Hd & Hf)]; [discriminate Hr|].
        split.
        { apply kept_files_trans with w1; [apply kept_files_of_quiet, Hq|].
          apply kept_files_of_kept, Hk. }
        split; [reflexivity|]. split.
        { rewrite Hd. destruct Hq as (Hdsk & _). now rewrite Hdsk. }
        left. destruct Hq as (_ & _ & _ & _ & Hm). lia.
    + apply wp_ret. split; [apply kept_files_of_quiet, Hq|].
      exists l. repeat split; auto. destruct Hq as (Hdsk & _). now rewrite Hdsk.
  - intros e w1 (Hq & Hk & Hf).
    split; [apply kept_files_of_quiet, Hq|].
    split; [reflexivity|]. split; [|exact Hf].
    destruct Hq as (Hdsk & _). now rewrite Hdsk.
Qed.

Lemma store_kept_refl w : store_kept w w.
Proof. repeat split; auto. Qed.

Lemma store_kept_trans w1 w2 w3 :
  store_kept w1 w2 -> store_kept w2 w3 -> store_kept w1 w3.
Proof.
  intros (a & b & c & d) (a' & b' & c' & d'). repeat split; try congruence. lia.
Qed.

Lemma store_kept_of_quiet w w' : quiet w w' -> store_kept w w'.
Proof. intros (a & b & _ & _ & e). repeat split; auto; now rewrite a. Qed.

Lemma read_file_spec p w :
  wp (read_file p) (fun _ w' => quiet w w') w.
Proof.
  unfold wp, read_file, syscall, next_fault, bind, quiet, raise.
  destruct w as [dsk pl clk tk out].
  destruct pl as [|[| |?] pl]; cbn; destruct (dsk p); cbn; repeat split; auto.
Qed.

Lemma backup_path_is_not_the_store (ts : string) :
  let p := BACKUP_PREFIX ++ "." ++ ts ++ ".json" in
  p <> TODOS_FILE /\ p <> TEMP_FILE.
Proof. split; discriminate. Qed.

Lemma backup_tasks_spec w :
  wp backup_tasks (fun r w' => (exists p, r = Ok p) /\ store_kept w w') w.
Proof.
  unfold backup_tasks. apply wp_try. apply wp_bind.
  unfold wp at 1, path_exists. cbn [fst snd].
  destruct (disk w TODOS_FILE) as [c|] eqn:E; cbn [negb].
  - apply wp_bind. unfold wp at 1, utcnow. cbn [fst snd]. fold (tick w).
    set (path := BACKUP_PREFIX ++ "." ++ backup_timestamp (clock w (ticks w)) ++ ".json").
    assert (Hp : path <> TODOS_FILE /\ path <> TEMP_FILE)
      by apply backup_path_is_not_the_store.
    assert (Hfail : forall (e : exn) w1, store_kept w w1 ->
              wp (_ <- print ("Warning: Could not create backup: " ++ msg e) ;; ret "")
                 (fun r w' => (exists p, r = Ok p) /\ store_kept w w') w1).
    { intros e w1 Hk. unfold wp, bind, print, ret. cbn. split; [eauto|].
      destruct Hk as (k1 & k2 & k3 & k4). repeat split; auto. }
    eapply wp_bind_spec; [apply read_file_spec | |].
    + intros raw w1 Hq.
      eapply wp_bind_spec; [apply write_file_spec | |].
      * intros [] w2 (Hk & _). apply wp_ret. split; [eauto|].
        apply store_kept_trans with w1.
        { apply store_kept_trans with (tick w); [repeat split; auto|].
          apply store_kept_of_quiet, Hq. }
        destruct Hk as (k1 & k2 & _ & _ & k4). repeat split; auto;
          apply k1; intros [H | []]; destruct Hp; contradiction.
      * intros e w2 (Hk & _). apply Hfail.
        apply store_kept_trans with w1.
        { apply store_kept_trans with (tick w); [repeat split; auto|].
          apply store_kept_of_quiet, Hq. }
        destruct Hk as (k1 & k2 & _ & _ & k4). repeat split; auto;
          apply k1; intros [H | []]; destruct Hp; contradiction.
    + intros e w1 Hq. apply Hfail.
      apply store_kept_trans with (tick w); [repeat split; auto|].
      apply store_kept_of_quiet, Hq.
  - apply wp_ret. split; [eauto | apply store_kept_refl].
Qed.

End StoreSpecs.

(** ** The operations *)

Section SkillSpecs.
Import Models World Storage Skills.

Lemma on_error_spec b e w :
  exists err code, on_error b e w = (Ok (error_result err code), w).
Proof.
  unfold on_error, ret.
  destruct (b && isinstance e ValueError); [eauto|].
  destruct (isinstance e StorageError); eauto.
Qed.

(** Reasoning under the handlers that close an operation: an exception
    of the body becomes some error result. *)
Lemma wp_on_error (m : M OperationResult) b Q w :
  wp m (fun r w1 => match r with
                    | Ok a => Q (Ok a) w1
                    | Raise e => forall err code, Q (Ok (error_result err code)) w1
                    end) w ->
  wp (try_except m (on_error b)) Q w.
Proof.
  intros H. apply wp_try. eapply wp_mono; [exact H|].
  intros [a | e] w1 Hq; [exact Hq|].
  destruct (on_error_spec b e w1) as (err & code & E).
  unfold wp. rewrite E. apply Hq.
Qed.

Lemma wp_lift_bind {A B} (o : outcome A) (f : A -> M B) Q w :
  match o with
  | Ok a => wp (f a) Q w
  | Raise e => Q (Raise e) w
  end ->
  wp (bind (lift o) f) Q w.
Proof. intros H. apply wp_bind. unfold wp at 1, lift. cbn. exact H. Qed.

Lemma wp_utcnow_bind {B} (f : PyDatetime.datetime -> M B) Q w :
  wp (f (clock w (ticks w))) Q (tick w) ->
  wp (bind utcnow f) Q w.
Proof. intros H. apply wp_bind. exact H. Qed.

Lemma error_result_well_formed err code : well_formed (error_result err code).
Proof.
  split; [discriminate|]. right. cbn. repeat split; try discriminate. eauto.
Qed.

Lemma success_result_well_formed m d :
  m <> "" -> well_formed (success_result m (Some d)).
Proof. intros Hm. split; [exact Hm|]. left. cbn. repeat split; discriminate. Qed.

Lemma Task_init_id i ttl prio cat st done created updated finished due t :
  Task_init i ttl prio cat st done created updated finished due = Ok t ->
  id t = i.
Proof.
  unfold Task_init, obind.
  destruct (Priority_from_string prio); [|discriminate].
  destruct (Status_from_string st); [|discriminate].
  destruct (negb (PyStr.truthy (PyStr.strip ttl))); [discriminate|].
  destruct (MAX_TITLE_LENGTH <? String.length (PyStr.strip ttl))%nat; [discriminate|].
  destruct (MAX_CATEGORY_LENGTH <? String.length cat)%nat; [discriminate|].
  intros H. injection H as <-. reflexivity.
Qed.

Lemma add_post_error w w' err code :
  disk w' TODOS_FILE = disk w TODOS_FILE ->
  add_post w (Ok (error_result err code)) w'.
Proof.
  intros H. eexists. split; [reflexivity|].
  split; [apply error_result_well_formed|]. split; [discriminate | auto].
Qed.

Lemma add_task_spec ttl priority category due w :
  wp (add_task ttl priority category due) (add_post w) w.
Proof.
  unfold add_task. apply wp_on_error.
  apply wp_lift_bind.
  destruct (validate_title ttl) as [vt | e];
    [|intros; now apply add_post_error].
  apply wp_lift_bind.
  destruct (Priority_from_string priority) as [pe | e];
    [|intros; now apply add_post_error].
  apply wp_lift_bind.
  destruct (validate_category category) as [vc | e];
    [|intros; now apply add_post_error].
  apply wp_lift_bind.
  match goal with |- match ?o with _ => _ end => destruct o as [vd | e] end;
    [|intros; now apply add_post_error].
  eapply wp_bind_spec; [apply get_next_id_spec | |].
  2: { intros e w1 (Hq & _) err code. apply add_post_error.
       destruct Hq as (Hd & _). now rewrite Hd. }
  intros i w1 (Hq1 & l & Hl & Hi).
  apply wp_utcnow_bind. apply wp_lift_bind.
  match goal with |- match ?o with _ => _ end => destruct o as [t | e] eqn:Ht end.
  2: { intros err code. apply add_post_error.
       destruct Hq1 as (Hd & _). cbn [tick disk]. now rewrite Hd. }
  apply Task_init_id in Ht.
  assert (Hd1 : disk (tick w1) = disk w) by (destruct Hq1 as (Hd & _); exact Hd).
  eapply wp_bind_spec; [apply load_tasks_spec | |].
  2: { intros e w2 (Hq & _) err code. apply add_post_error.
       destruct Hq as (Hd & _). now rewrite Hd, Hd1. }
  intros l2 w2 (Hq2 & Hl2).
  assert (l2 = l) as -> by (rewrite Hd1 in Hl2; congruence).
  assert (Hd2 : disk w2 = disk w) by (destruct Hq2 as (Hd & _); congruence).
  eapply wp_bind_spec; [apply save_tasks_spec | |].
  - intros b w3 (Hs & _). apply wp_ret.
    destruct Hs as [(_ & Hd & _) | (He & _)]; [|contradiction].
    eexists. split; [reflexivity|].
    split; [apply success_result_well_formed; discriminate|].
    split; [|discriminate].
    intros _. exists l, t. repeat split; auto. congruence.
  - intros e w3 (Hs & _) err code. apply add_post_error.
    destruct Hs as [(Hr & _) | (_ & Hd & _)]; [discriminate Hr|].
    now rewrite Hd, Hd2.
Qed.

Lemma remove_post_error task_id force w w' err code :
  disk w' TODOS_FILE = disk w TODOS_FILE ->
  remove_post task_id force w (Ok (error_result err code)) w'.
Proof.
  intros H. eexists. split; [reflexivity|].
  split; [apply error_result_well_formed|]. split; [discriminate | auto].
Qed.

Lemma delete_task_skill_spec task_id force w :
  wp (Skills.delete_task task_id force) (remove_post task_id force w) w.
Proof.
  unfold Skills.delete_task. apply wp_on_error.
  eapply wp_bind_spec; [apply find_task_by_id_spec | |].
  2: { intros e w1 (Hq & _) err code. apply remove_post_error.
       destruct Hq as (Hd & _). now rewrite Hd. }
  intros o w1 (Hq1 & l & Hl & Ho).
  assert (Hd1 : disk w1 = disk w) by (destruct Hq1 as (Hd & _); exact Hd).
  destruct o as [d|].
  2: { apply wp_ret. apply remove_post_error. now rewrite Hd1. }
  destruct force; cbn [negb].
  - eapply wp_bind_spec; [apply backup_tasks_spec | |].
    2: { intros e w2 ((p & Hp) & _). discriminate Hp. }
    intros path w2 (_ & Hk2).
    assert (Hd2 : disk w2 TODOS_FILE = disk w TODOS_FILE)
      by (destruct Hk2 as (Hd & _); now rewrite Hd, Hd1).
    apply wp_bind.
    assert (Hrest : forall w3, disk w3 TODOS_FILE = disk w TODOS_FILE ->
      wp (ok <- Storage.delete_task task_id ;;
          (if ok
           then ret (success_result
                  ("Task #" ++ PyStr.of_Z task_id ++ " deleted: "
                   ++ dquote ++ d_title d ++ dquote)
                  (Some (PDeleted d)))
           else ret (error_result ("Failed to delete task #" ++ PyStr.of_Z task_id)
                       ERR_STORAGE)))
         (fun r w1' =>
            match r with
            | Ok a => remove_post task_id true w (Ok a) w1'
            | Raise _ => forall err code,
                remove_post task_id true w (Ok (error_result err code)) w1'
            end) w3).
    { intros w3 Hd3.
      eapply wp_bind_spec; [apply delete_task_spec | |].
      - intros [|] w4 (_ & Hp).
        + destruct Hp as (l4 & Hl4 & Hf4 & Hd4). apply wp_ret.
          rewrite Hd3, Hl in Hl4. injection Hl4 as <-.
          eexists. split; [reflexivity|].
          split; [apply success_result_well_formed; discriminate|].
          split; [|discriminate].
          intros _. exists l, d. repeat split; auto.
        + destruct Hp as (l4 & Hl4 & Hf4 & Hd4). apply wp_ret.
          apply remove_post_error. now rewrite Hd4.
      - intros e w4 (_ & _ & Hd4 & _) err code. apply remove_post_error.
        now rewrite Hd4. }
    destruct (PyStr.truthy path).
    + unfold wp at 1, print. cbn [fst snd]. apply Hrest. exact Hd2.
    + unfold wp at 1, ret. cbn [fst snd]. apply Hrest. exact Hd2.
  - apply wp_ret. eexists. split; [reflexivity|].
    split; [split; [discriminate|]; left; cbn; repeat split; discriminate|].
    split; [|discriminate].
    intros _. exists l, d. repeat split; auto. now rewrite Hd1.
Qed.

End SkillSpecs.

(** ** Identifiers over a history of creations and deletions *)

Section Histories.
Import Models World Storage Skills.

Lemma largest_bound ids j : In j ids -> j <= largest ids.
Proof.
  induction ids as [|x ids IH]; [contradiction|].
  cbn [largest fold_right]. fold (largest ids).
  intros [<- | H]; [lia | specialize (IH H); lia].
Qed.

Lemma largest_nonneg ids : 0 <= largest ids.
Proof.
  induction ids as [|x ids IH]; cbn [largest fold_right]; [lia|].
  fold (largest ids). lia.
Qed.

Lemma fold_max_largest rest a :
  0 <= a ->
  fold_left (fun m t => Z.max m (d_id t)) rest a
  = Z.max a (largest (map d_id rest)).
Proof.
  revert a. induction rest as [|x rest IH]; intros a Ha.
  - cbn. lia.
  - cbn [fold_left map largest fold_right]. fold (largest (map d_id rest)).
    rewrite IH by lia. lia.
Qed.

Lemma next_id_largest l :
  Forall (fun j => 1 <= j) (map d_id l) ->
  next_id l = 1 + largest (map d_id l).
Proof.
  destruct l as [|t rest]; [reflexivity|].
  intros H. inversion H as [|? ? Ht _]; subst.
  unfold next_id, max_id. rewrite fold_max_largest by lia.
  cbn [map largest fold_right]. fold (largest (map d_id rest)). lia.
Qed.

Lemma sound_ids_app ids i :
  sound_ids ids -> i = 1 + largest ids -> sound_ids (ids ++ [i])%list.
Proof.
  intros (Hnd & Hpos) ->. split.
  - apply NoDup_app; [exact Hnd | repeat constructor; auto | ].
    intros x Hx [<- | []]. apply largest_bound in Hx. lia.
  - apply Forall_app. split; [exact Hpos|]. constructor; [|constructor].
    pose proof (largest_nonneg ids). lia.
Qed.

Lemma sound_ids_filter (l : list task_dict) (p : task_dict -> bool) :
  sound_ids (map d_id l) -> sound_ids (map d_id (filter p l)).
Proof.
  intros (Hnd & Hpos). induction l as [|t l IH]; [split; constructor|].
  cbn [map] in *. inversion Hnd as [|? ? Hni Hnd']; subst.
  inversion Hpos as [|? ? Ht Hpos']; subst.
  specialize (IH Hnd' Hpos'). destruct IH as (IH1 & IH2).
  cbn [filter]. destruct (p t); [|split; assumption].
  cbn [map]. split; constructor; auto.
  intros Hin. apply Hni. apply in_map_iff in Hin as (x & <- & Hx).
  apply filter_In in Hx as (Hx & _). apply in_map. exact Hx.
Qed.

Lemma first_with_id_in task_id l d :
  first_with_id task_id l = Some d -> In task_id (map d_id l).
Proof.
  induction l as [|t l IH]; [discriminate|].
  cbn [first_with_id map]. destruct (d_id t =? task_id) eqn:E.
  - intros _. left. now apply Z.eqb_eq.
  - intros H. right. auto.
Qed.

(** What one successful operation does to the ids in the store. *)
Lemma perform_spec o w ev w' :
  perform o w = Some (ev, w') ->
  exists l l',
    stored_tasks (disk w TODOS_FILE) = Some l
    /\ stored_tasks (disk w' TODOS_FILE) = Some l'
    /\ match o with
       | Create _ _ _ _ =>
           ev = Created (next_id l) (map d_id l)
           /\ map d_id l' = (map d_id l ++ [next_id l])%list
       | Delete i =>
           ev = Removed i (map d_id l) /\ In i (map d_id l)
           /\ exists p, l' = filter p l
       end.
Proof.
  destruct o as [t p c d | i]; cbn [perform].
  - destruct (add_task t p c d w) as [[r | e] w1] eqn:E; [|discriminate].
    pose proof (wp_run _ _ _ _ _ (add_task_spec t p c d w) E) as (res & Hr & _ & Hs & _).
    injection Hr as <-.
    destruct (success r) eqn:Es; [|discriminate].
    destruct (Hs eq_refl) as (l & tk & Hl & Hd & Hi & Hw).
    rewrite Hd. intros H. injection H as <- <-.
    exists l, (l ++ [to_dict tk])%list. split; [exact Hl|].
    split; [rewrite Hw; reflexivity|].
    unfold stored_ids. rewrite Hl.
    rewrite map_app. cbn [map to_dict d_id].
    rewrite Hi. split; reflexivity.
  - destruct (Skills.delete_task i true w) as [[r | e] w1] eqn:E; [|discriminate].
    pose proof (wp_run _ _ _ _ _ (delete_task_skill_spec i true w) E)
      as (res & Hr & _ & Hs & _).
    injection Hr as <-.
    destruct (success r) eqn:Es; [|discriminate].
    destruct (Hs eq_refl) as (l & d & Hl & Hf & _ & Hw).
    intros H. injection H as <- <-.
    exists l, (filter (fun t => negb (d_id t =? i)) l).
    split; [exact Hl|]. split; [rewrite Hw; reflexivity|].
    unfold stored_ids. rewrite Hl.
    split; [reflexivity|].
    split; [eapply first_with_id_in; eauto | eauto].
Qed.

Lemma history_events ops : forall w evs w',
  sound_ids (stored_ids w) ->
  history ops w = Some (evs, w') ->
  Forall event_ok evs.
Proof.
  induction ops as [|o ops IH]; intros w evs w' Hs; cbn [history].
  - intros H. injection H as <- <-. constructor.
  - destruct (perform o w) as [[ev w1]|] eqn:Ep; [|discriminate].
    destruct (history ops w1) as [[evs1 w2]|] eqn:Eh; [|discriminate].
    intros H. injection H as <- <-.
    destruct (perform_spec _ _ _ _ Ep) as (l & l' & Hl & Hl' & Ho).
    assert (Hids : stored_ids w = map d_id l) by (unfold stored_ids; now rewrite Hl).
    assert (Hids' : stored_ids w1 = map d_id l') by (unfold stored_ids; now rewrite Hl').
    rewrite Hids in Hs.
    destruct o as [t p c d | i].
    + destruct Ho as (-> & Hw1). constructor.
      * destruct Hs as (Hnd & Hpos).
        pose proof (next_id_largest l Hpos) as Hn.
        split; [exact Hnd|]. split; [exact Hn|].
        intros j Hj. rewrite Hn. split.
        { rewrite Forall_forall in Hpos. auto. }
        { apply largest_bound in Hj. lia. }
      * apply (IH w1 evs1 w2); auto. rewrite Hids', Hw1.
        apply sound_ids_app; [exact Hs|].
        apply next_id_largest, Hs.
    + destruct Ho as (-> & Hin & p & ->). constructor.
      * split; [apply Hs | exact Hin].
      * apply (IH w1 evs1 w2); auto. rewrite Hids'.
        apply sound_ids_filter, Hs.
Qed.

Lemma history_creations ops : forall w evs w' n,
  stored_ids w = map Z.of_nat (seq 1 n) ->
  forallb is_create ops = true ->
  history ops w = Some (evs, w') ->
  created evs = map Z.of_nat (seq (S n) (List.length ops)).
Proof.
  induction ops as [|o ops IH]; intros w evs w' n Hids Hc; cbn [history].
  - intros H. injection H as <- <-. reflexivity.
  - destruct (perform o w) as [[ev w1]|] eqn:Ep; [|discriminate].
    destruct (history ops w1) as [[evs1 w2]|] eqn:Eh; [|discriminate].
    intros H. injection H as <- <-.
    cbn [forallb] in Hc. apply andb_true_iff in Hc as (Ho & Hc).
    destruct o as [t p c d | i]; [|discriminate Ho].
    destruct (perform_spec _ _ _ _ Ep) as (l & l1 & Hl & Hl1 & -> & Hw1).
    assert (Hl' : map d_id l = map Z.of_nat (seq 1 n))
      by (unfold stored_ids in Hids; now rewrite Hl in Hids).
    assert (Hn : next_id l = Z.of_nat (S n)).
    { rewrite next_id_largest.
      - rewrite Hl'. clear. induction n as [|n IHn]; [reflexivity|].
        rewrite seq_S, map_app. cbn [map]. unfold largest in *.
        rewrite fold_right_app. cbn [fold_right].
        assert (G : forall ids a, 0 <= a ->
                  fold_right Z.max a ids = Z.max a (fold_right Z.max 0 ids)).
        { clear. induction ids as [|x ids IHi]; intros a Ha; cbn; [lia|].
          rewrite IHi by lia. lia. }
        rewrite G by lia. lia.
      - rewrite Hl'. apply Forall_forall. intros j Hj.
        apply in_map_iff in Hj as (k & <- & Hk). apply in_seq in Hk. lia. }
    cbn [created List.length seq map]. rewrite Hn. f_equal.
    apply (IH w1 evs1 w2 (S n)); auto.
    unfold stored_ids. rewrite Hl1, Hw1, Hl', Hn, seq_S, map_app. reflexivity.
Qed.

(** C1, as it holds on the code.  In every sequence of successful
    creations and deletions on an initially empty store, the ids in the
    store are always pairwise distinct and a creation receives one more
    than the largest id in the store at that moment (1 when the store
    is empty): the new id is above every id then stored, and a deletion
    removes an id that is stored.  When no deletion intervenes, [N]
    creations receive exactly 1, ..., [N] in this order. *)
Theorem ids_follow_the_largest_stored (ops : list op) (w : world)
    (evs : list event) (w' : world) :
  disk w TODOS_FILE = None ->
  history ops w = Some (evs, w') ->
  Forall event_ok evs
  /\ (forallb is_create ops = true ->
      created evs = map Z.of_nat (seq 1 (List.length ops))).
Proof.
  intros Hempty Hh. split.
  - apply (history_events ops w evs w'); auto.
    unfold stored_ids. rewrite Hempty. split; constructor.
  - intros Hc. apply (history_creations ops w evs w' 0); auto.
    unfold stored_ids. now rewrite Hempty.
Qed.

End Histories.

Lemma sample_history : history sample_ops fresh_world = Some sample_run.
Proof.
  unfold sample_run.
  destruct (history sample_ops fresh_world) as [r|] eqn:E; [reflexivity|].
  vm_compute in E. discriminate E.
Qed.

Lemma sample_events :
  fst sample_run
  = [Created 1 []; Created 2 [1]; Removed 2 [1; 2]; Created 2 [1]].
Proof. vm_compute. reflexivity. Qed.

Lemma ids_follow_the_largest_stored_witness :
  Forall event_ok (fst sample_run)
  /\ (forallb is_create sample_ops = true ->
      created (fst sample_run) = map Z.of_nat (seq 1 (List.length sample_ops))).
Proof.
  apply (ids_follow_the_largest_stored sample_ops fresh_world
           (fst sample_run) (snd sample_run)).
  - reflexivity.
  - rewrite sample_history. destruct sample_run. reflexivity.
Defined.

(** C1 as stated does not hold: create, create, delete 2, create hands
    out 1, 2 and 2 again, the id that was just deleted. *)
Lemma deleted_id_is_reassigned :
  ~ (forall ops w evs w',
       World.disk w Storage.TODOS_FILE = None ->
       history ops w = Some (evs, w') ->
       reassigned [] evs = false
       /\ NoDup (created evs)
       /\ (forall i, In i (created evs)
                     <-> 1 <= i <= Z.of_nat (List.length (created evs)))).
Proof.
  intros H.
  destruct (H sample_ops fresh_world (fst sample_run) (snd sample_run) eq_refl)
    as (Hr & _).
  - rewrite sample_history. destruct sample_run. reflexivity.
  - rewrite sample_events in Hr. vm_compute in Hr. discriminate Hr.
Qed.

(** ** Updating with an empty title *)

Section BlankTitle.
Import Models World Storage Skills.

Lemma on_error_storage b e w :
  kind e = StorageError ->
  on_error b e w = (Ok (error_result (msg e) ERR_STORAGE), w).
Proof.
  destruct e as [k m]. cbn. intros ->. unfold on_error. cbn.
  rewrite andb_false_r. reflexivity.
Qed.

(** C3, as it holds on the code.  [update_task(id, title="")] with no
    other field fails with the code [NO_CHANGES_PROVIDED] (an empty
    string counts as not given) and leaves the world as it was, so the
    task reads back unchanged.  With another field given as well, the
    call fails too and no file changes; when the store can be read and
    holds the task, that failure is the empty-title validation error. *)
Theorem update_with_blank_title (task_id : Z) (w : world) :
  Skills.update_task task_id (Some "") None None None None w
  = (Ok (error_result NO_FIELDS ERR_NO_CHANGES), w)
  /\ forall priority category st due,
       existsb given [priority; category; st; due] = true ->
       exists res w',
         Skills.update_task task_id (Some "") priority category st due w
         = (Ok res, w')
         /\ success res = false
         /\ disk w' = disk w
         /\ (forall l d,
               failures (plan w) = O ->
               stored_tasks (disk w TODOS_FILE) = Some l ->
               first_with_id task_id l = Some d ->
               error res = Some "Title cannot be empty"
               /\ error_code res = Some ERR_VALIDATION).
Proof.
  split; [reflexivity|].
  intros priority category st due Hg.
  set (Q := fun (r : outcome OperationResult) (w' : world) =>
              exists res, r = Ok res /\ success res = false /\ disk w' = disk w
                /\ (forall l d,
                      failures (plan w) = O ->
                      stored_tasks (disk w TODOS_FILE) = Some l ->
                      first_with_id task_id l = Some d ->
                      error res = Some "Title cannot be empty"
                      /\ error_code res = Some ERR_VALIDATION)).
  assert (H : wp (Skills.update_task task_id (Some "") priority category st due) Q w).
  { unfold Skills.update_task.
    replace (existsb given [Some ""; priority; category; st; due])
      with (existsb given [priority; category; st; due]) by reflexivity.
    rewrite Hg. cbn [negb]. apply wp_try.
    eapply wp_bind_spec; [apply find_task_by_id_spec | |].
    - intros o w1 (Hq & l & Hl & Ho). destruct Hq as (Hd & _).
      destruct o as [d0|].
      + apply wp_lift_bind.
        change (build_updates (Some "") priority category st due)
          with (@Raise (list field_update * list string)
                  (mk_exn ValueError "Title cannot be empty")).
        cbv beta iota. unfold wp. cbn.
        eexists. split; [reflexivity|]. split; [reflexivity|].
        split; [exact Hd|]. intros; split; reflexivity.
      + apply wp_ret. eexists. split; [reflexivity|]. split; [reflexivity|].
        split; [exact Hd|]. intros l' d' _ Hl' Hf'. congruence.
    - intros e w1 (Hq & Hk & Hf). destruct Hq as (Hd & _).
      unfold wp. rewrite on_error_storage by exact Hk. cbn.
      eexists. split; [reflexivity|]. split; [reflexivity|].
      split; [exact Hd|].
      intros l' d' H0 Hl' _. destruct Hf as [Hf | Hf]; [lia | congruence]. }
  unfold wp, Q in H.
  destruct (Skills.update_task task_id (Some "") priority category st due w)
    as [r w'] eqn:E.
  cbn [fst snd] in H. destruct H as (res & -> & H). eauto.
Qed.

End BlankTitle.

(** C3 as stated does not hold: on a store that holds task 1, the call
    [update_task(1, title="")] fails with [NO_CHANGES_PROVIDED], not with
    the validation code that an empty title gets elsewhere. *)
Lemma blank_title_alone_is_no_change :
  ~ (forall w l d,
       stored_tasks (World.disk w Storage.TODOS_FILE) = Some l ->
       Storage.first_with_id 1 l = Some d ->
       exists res w',
         Skills.update_task 1 (Some "") None None None None w = (Ok res, w')
         /\ Models.success res = false
         /\ Models.error_code res = Some Models.ERR_VALIDATION
         /\ fst (Storage.find_task_by_id 1 w') = Ok (Some d)).
Proof.
  intros H.
  destruct (H (world_with [milk]) [milk] milk eq_refl eq_refl)
    as (res & w' & E & _ & Hc & _).
  change (Skills.update_task 1 (Some "") None None None None (world_with [milk]))
    with (Ok (Models.error_result NO_FIELDS Models.ERR_NO_CHANGES), world_with [milk])
    in E.
  injection E as <- <-. discriminate Hc.
Qed.

(** The code an empty title gets where it is validated. *)
Example empty_title_code_on_add :
  option_map Models.error_code
    (match fst (Skills.add_task "" "medium" "general" None fresh_world) with
     | Ok r => Some r
     | Raise _ => None
     end)
  = Some (Some Models.ERR_VALIDATION).
Proof. reflexivity. Qed.

(** ** Status and completed flag under update *)

Section StatusCoupling.
Import Models World Storage Skills.

(** The updates of [update_task] set [completed] with the status
    ["completed"] and never clear it. *)
Lemma build_updates_never_clears ttl priority category st due ups changes :
  build_updates ttl priority category st due = Ok (ups, changes) ->
  ~ In (UCompleted false) ups.
Proof.
  unfold build_updates, obind, put, changed.
  destruct ttl as [t|]; [destruct (validate_title t); [|discriminate]|];
  (destruct priority as [p|]; [destruct (Priority_from_string p); [|discriminate]|]);
  (destruct category as [c|]; [destruct (validate_category c); [|discriminate]|]);
  (destruct st as [s|];
    [destruct (Status_from_string s) as [se|]; [destruct se|discriminate]|]);
  (destruct due as [d|];
    [destruct (PyStr.truthy d);
       [destruct (validate_due_date d); [|discriminate]|]|]);
  cbn; intros H; injection H as <- <-; cbn; intuition discriminate.
Qed.

(** C4, the code at the failing input: task 1 is completed (status
    ["completed"], flag set) and [update_task(1, status="pending")]
    succeeds; the task it returns and the task in the store then have
    status ["pending"] with the completed flag still set. *)
Theorem status_reset_keeps_completed_flag :
  let run := Skills.update_task 1 None None None (Some "pending") None
               (world_with [finished]) in
  option_map (fun d => (d_status d, d_completed d)) (payload_task (fst run))
  = Some ("pending", true)
  /\ option_map (map (fun d => (d_id d, d_status d, d_completed d)))
       (stored_tasks (disk (snd run) TODOS_FILE))
     = Some [(1, "pending", true)].
Proof. vm_compute. split; reflexivity. Qed.

End StatusCoupling.

(** ** Completing and reopening *)

Section Completion.
Import Models World Storage Skills.

Lemma complete_post_error task_id u g w w' err code :
  disk w' TODOS_FILE = disk w TODOS_FILE ->
  complete_post task_id u g w (Ok (error_result err code)) w'.
Proof.
  intros H. eexists. split; [reflexivity|].
  split; [apply error_result_well_formed|]. split; [discriminate | auto].
Qed.

Lemma complete_task_spec task_id uncomplete toggle w :
  wp (complete_task task_id uncomplete toggle)
    (complete_post task_id uncomplete toggle w) w.
Proof.
  unfold complete_task. apply wp_on_error.
  eapply wp_bind_spec; [apply find_task_by_id_spec | |].
  2: { intros e w1 (Hq & _) err code. apply complete_post_error.
       destruct Hq as (Hd & _). now rewrite Hd. }
  intros o w1 (Hq1 & l & Hl & Ho).
  assert (Hd1 : disk w1 = disk w) by (destruct Hq1 as (Hd & _); exact Hd).
  destruct o as [d|].
  2: { apply wp_ret. apply complete_post_error. now rewrite Hd1. }
  apply wp_lift_bind. destruct (from_dict d) as [t | e] eqn:Ht.
  2: { intros err code. apply complete_post_error. now rewrite Hd1. }
  apply wp_utcnow_bind.
  set (now := clock w1 (ticks w1)).
  assert (Hsplit :
    (if toggle
     then if completed t then (mark_incomplete now t, "reopened")
          else (mark_completed now t, "completed")
     else if uncomplete then (mark_incomplete now t, "reopened")
          else (mark_completed now t, "completed"))
    = (chosen uncomplete toggle now t,
       if toggle then if completed t then "reopened" else "completed"
       else if uncomplete then "reopened" else "completed")).
  { unfold chosen. destruct toggle, uncomplete, (completed t); reflexivity. }
  rewrite Hsplit. clear Hsplit.
  set (t' := chosen uncomplete toggle now t).
  eapply wp_bind_spec; [apply update_task_spec | |].
  - intros [|] w2 (_ & Hp).
    + destruct Hp as (l2 & d2 & Hl2 & Hf2 & Hw2). apply wp_ret.
      cbn [tick disk] in Hl2. rewrite Hd1, Hl in Hl2. injection Hl2 as <-.
      assert (d2 = d) as -> by congruence.
      eexists. split; [reflexivity|].
      split; [apply success_result_well_formed;
              destruct (completed t'); discriminate|].
      split; [|discriminate].
      intros _. eexists l, d, t, now, _.
      split; [exact Hl|]. split; [congruence|]. split; [exact Ht|].
      split; [reflexivity|].
      split.
      { eexists. split; [exact Hw2|].
        apply first_with_id_update; [intros; apply touched_id | symmetry; exact Ho]. }
      unfold touched, apply_updates. cbn. repeat split; reflexivity.
    + destruct Hp as (l2 & _ & _ & Hw2). apply wp_ret.
      apply complete_post_error. rewrite Hw2. cbn [tick disk]. now rewrite Hd1.
  - intros e w2 (_ & _ & Hw2 & _) err code. apply complete_post_error.
    rewrite Hw2. cbn [tick disk]. now rewrite Hd1.
Qed.

(** What does hold of completion.  After [mark_completed] a task has
    [completed] set, status ["completed"], a [completed_at] stamp and
    [updated_at] equal to it; after [mark_incomplete] it has
    [completed] unset, status ["pending"] and no [completed_at].  The
    same holds of the task that a successful [complete_task] returns,
    and the record it leaves in the store has the same flag, status and
    [completed_at].  The [updated_at] of that record is left out: the
    next theorem shows where it goes. *)
Lemma completion_is_consistent :
  (forall now t,
     let t' := mark_completed now t in
     completed t' = true /\ Status_value (status t') = "completed"
     /\ completed_at t' <> None /\ updated_at t' = completed_at t')
  /\ (forall now t,
        let t' := mark_incomplete now t in
        completed t' = false /\ Status_value (status t') = "pending"
        /\ completed_at t' = None)
  /\ (forall task_id uncomplete w res w',
        complete_task task_id uncomplete false w = (Ok res, w') ->
        success res = true ->
        exists d d' l',
          data res = Some (PTask d)
          /\ disk w' TODOS_FILE = Some (Tasks l')
          /\ first_with_id task_id l' = Some d'
          /\ if uncomplete then
               d_completed d = false /\ d_status d = "pending"
               /\ d_completed_at d = None
               /\ d_completed d' = false /\ d_status d' = "pending"
               /\ d_completed_at d' = None
             else
               d_completed d = true /\ d_status d = "completed"
               /\ d_completed_at d <> None
               /\ d_updated_at d = d_completed_at d
               /\ d_completed d' = true /\ d_status d' = "completed"
               /\ d_completed_at d' = d_completed_at d).
Proof.
  split; [|split].
  - intros now t. cbn. repeat split. discriminate.
  - intros now t. cbn. repeat split.
  - intros task_id uncomplete w res w' E Hs.
    pose proof (wp_run _ _ _ _ _ (complete_task_spec task_id uncomplete false w) E)
      as (res' & Hr & _ & Hok & _).
    injection Hr as <-.
    destruct (Hok Hs) as (l & d0 & t & now & d' & _ & _ & _ & Hd & (l' & Hw & Hf)
                          & Hc & Hst & Hca).
    exists (to_dict (chosen uncomplete false now t)), d', l'.
    split; [exact Hd|]. split; [exact Hw|]. split; [exact Hf|].
    rewrite Hc, Hst, Hca. unfold chosen.
    destruct uncomplete; cbn; repeat split; discriminate.
Qed.

(** C5, the code at the failing input: [complete_task(1)] on a store
    that holds the open task 1, with a clock that reads 10:00:00 and,
    at the next reading, 10:00:01.  The task handed back has
    [completed_at] and [updated_at] both at 10:00:00, as
    [mark_completed] sets them and as [complete_task] enters them in
    the updates.  The record in the store is completed with
    [completed_at] at 10:00:00, but its [updated_at] is 10:00:01: the
    store's [update_task] writes its own reading over the [updated_at]
    it was given, so in the store [updated_at] is not [completed_at]. *)
Theorem stored_completion_stamps_differ :
  let run := complete_task 1 false false (world_with [milk]) in
  option_map (fun d => (d_completed d, d_status d,
                        d_completed_at d, d_updated_at d))
    (payload_task (fst run))
  = Some (true, "completed", Some "2025-01-15T10:00:00Z",
          Some "2025-01-15T10:00:00Z")
  /\ option_map (map (fun d => (d_id d, d_completed d, d_status d,
                                d_completed_at d, d_updated_at d)))
       (stored_tasks (disk (snd run) TODOS_FILE))
     = Some [(1, true, "completed", Some "2025-01-15T10:00:00Z",
              Some "2025-01-15T10:00:01Z")]
  /\ (forall d', first_with_id 1
                   (match stored_tasks (disk (snd run) TODOS_FILE) with
                    | Some l => l
                    | None => []
                    end) = Some d' ->
                 d_updated_at d' <> d_completed_at d').
Proof.
  vm_compute. split; [reflexivity|]. split; [reflexivity|].
  intros d' H. injection H as <-. discriminate.
Qed.

End Completion.

(** ** The shape of results *)

Section ResultShape.
Import Models World Storage Skills.

Lemma wp_close (m : M OperationResult) b w :
  wp m shaped w -> wp (try_except m (on_error b)) returns_well_formed w.
Proof.
  intros H. apply wp_on_error. eapply wp_mono; [exact H|].
  intros [res | e] w1 Hs.
  - exists res. split; [reflexivity | exact Hs].
  - intros err code. eexists. split; [reflexivity|].
    apply error_result_well_formed.
Qed.

Lemma wp_bind_any {A B} (m : M A) (f : A -> M B) Q w :
  (forall a w1, wp (f a) Q w1) ->
  (forall e w1, Q (Raise e) w1) ->
  wp (bind m f) Q w.
Proof.
  intros Hok Herr. apply wp_bind. unfold wp at 1.
  destruct (m w) as [[a | e] w1]; cbn; auto.
Qed.

Lemma format_output_well_formed fmt l : well_formed (format_output fmt l).
Proof.
  unfold format_output.
  destruct (String.eqb fmt "json"); [apply success_result_well_formed; discriminate|].
  destruct (String.eqb fmt "simple"); apply success_result_well_formed; discriminate.
Qed.

Lemma update_task_shape task_id ttl priority category st due w :
  wp (Skills.update_task task_id ttl priority category st due)
    returns_well_formed w.
Proof.
  unfold Skills.update_task. apply wp_close.
  destruct (negb (existsb given [ttl; priority; category; st; due])).
  { apply wp_ret. apply error_result_well_formed. }
  apply wp_bind_any; [|exact (fun _ _ => I)].
  intros [d0|] w1; [|apply wp_ret; apply error_result_well_formed].
  apply wp_lift_bind.
  destruct (build_updates ttl priority category st due) as [acc | e]; [|exact I].
  eapply wp_bind_spec; [apply update_task_spec | |]; [|intros; exact I].
  intros [|] w2 (_ & Hp); [|apply wp_ret; apply error_result_well_formed].
  destruct Hp as (l & d & Hl & Hf & Hw).
  eapply wp_bind_spec; [apply find_task_by_id_spec | |]; [|intros; exact I].
  intros o w3 (_ & l3 & Hl3 & Ho). apply wp_ret.
  rewrite Hw in Hl3. cbn [stored_tasks] in Hl3. injection Hl3 as <-.
  rewrite (first_with_id_update task_id _ l d) in Ho;
    [|intros; apply touched_id | exact Hf].
  subst o. apply success_result_well_formed. discriminate.
Qed.

Lemma list_tasks_shape st priority category done overdue sort_by sort_order
    limit fmt w :
  wp (list_tasks st priority category done overdue sort_by sort_order limit fmt)
    returns_well_formed w.
Proof.
  unfold list_tasks, list_tasks_with. apply wp_close.
  apply wp_bind_any; [|exact (fun _ _ => I)]. intros ds w1.
  apply wp_lift_bind. destruct (map_outcome from_dict ds); [|exact I].
  apply wp_lift_bind.
  destruct (build_filter st priority category done overdue); [|exact I].
  apply wp_bind_any; [|exact (fun _ _ => I)]. intros fs w2.
  apply wp_bind_any; [|exact (fun _ _ => I)]. intros ss w3.
  apply wp_ret. apply format_output_well_formed.
Qed.

Lemma set_due_date_shape task_id due w :
  wp (set_due_date task_id due) returns_well_formed w.
Proof.
  unfold set_due_date. apply wp_close.
  apply wp_bind_any; [|exact (fun _ _ => I)].
  intros [d0|] w1; [|apply wp_ret; apply error_result_well_formed].
  apply wp_lift_bind. destruct (validate_due_date due); [|exact I].
  apply wp_bind_any; [|exact (fun _ _ => I)].
  intros [|] w2; apply wp_ret;
    [apply success_result_well_formed; discriminate
    |apply error_result_well_formed].
Qed.

Lemma get_upcoming_tasks_shape days w :
  wp (get_upcoming_tasks days) returns_well_formed w.
Proof.
  unfold get_upcoming_tasks. apply wp_close.
  apply wp_bind_any; [|exact (fun _ _ => I)]. intros ds w1.
  apply wp_lift_bind. destruct (map_outcome from_dict ds); [|exact I].
  apply wp_utcnow_bind. apply wp_ret.
  apply success_result_well_formed. discriminate.
Qed.

Lemma get_overdue_tasks_shape w :
  wp get_overdue_tasks returns_well_formed w.
Proof.
  unfold get_overdue_tasks. apply wp_close.
  apply wp_bind_any; [|exact (fun _ _ => I)]. intros ds w1.
  apply wp_lift_bind. destruct (map_outcome from_dict ds); [|exact I].
  apply wp_bind_any; [|exact (fun _ _ => I)]. intros od w2.
  apply wp_bind_any; [|exact (fun _ _ => I)]. intros keys w3.
  apply wp_ret. apply success_result_well_formed. discriminate.
Qed.

(** C6, as it holds on the code.  Every public operation returns an
    [OperationResult], whatever the store holds and whatever fails, and
    that result always carries a message and beyond it exactly one of
    the two paths: on success the data, with no error and no error
    code; on failure the error and its code, with no data, the message
    being the error behind ["Operation failed: "]. *)
Theorem every_result_is_well_formed (c : call) (w : world) :
  exists res w', run c w = (Ok res, w') /\ well_formed res.
Proof.
  assert (H : wp (run c) returns_well_formed w).
  { destruct c; cbn [run].
    - eapply wp_mono; [apply add_task_spec|].
      intros r w' (res & -> & Hwf & _). exists res. auto.
    - apply update_task_shape.
    - eapply wp_mono; [apply complete_task_spec|].
      intros r w' (res & -> & Hwf & _). exists res. auto.
    - eapply wp_mono; [apply delete_task_skill_spec|].
      intros r w' (res & -> & Hwf & _). exists res. auto.
    - apply list_tasks_shape.
    - apply set_due_date_shape.
    - apply get_upcoming_tasks_shape.
    - apply get_overdue_tasks_shape. }
  unfold wp, returns_well_formed in H.
  destruct (run c w) as [r w'] eqn:E. cbn [fst snd] in H.
  destruct H as (res & -> & Hwf). eauto.
Qed.

End ResultShape.

(** C6 as stated does not hold: a failure populates the message too.
    Deleting task 1 from an empty store fails with a message that is
    not empty. *)
Lemma failure_populates_message :
  ~ (forall c w res w',
       Skills.run c w = (Ok res, w') ->
       (Models.success res = true /\ Models.message res <> ""
        /\ Models.data res <> None
        /\ Models.error res = None /\ Models.error_code res = None)
       \/ (Models.success res = false /\ Models.message res = ""
           /\ Models.data res = None
           /\ Models.error res <> None /\ Models.error_code res <> None)).
Proof.
  intros H.
  destruct (H (Skills.DeleteTask 1 true) fresh_world
              (Skills.not_found 1) fresh_world eq_refl)
    as [(Hs & _) | (_ & Hm & _)]; discriminate.
Qed.

(** ** Listing with a sort key that is not an attribute *)

Section Listing.
Import Models World Storage Skills PySort.

Lemma getattr_missing name t : hasattr name = false -> getattr t name = None.
Proof.
  unfold hasattr, getattr, mem, FIELD_NAMES, TASK_METHODS, INHERITED_ATTRS.
  cbn [existsb]. intros H.
  repeat match goal with
         | H : (_ || _)%bool = false |- _ =>
             apply orb_false_elim in H; destruct H
         end.
  repeat match goal with
         | H : String.eqb name _ = false |- _ => rewrite H; clear H
         end.
  reflexivity.
Qed.

(** [hasattr] is exact: a name it knows has a value on every task. *)
Lemma getattr_present name t : hasattr name = true -> getattr t name <> None.
Proof.
  unfold hasattr, getattr, mem, FIELD_NAMES, TASK_METHODS, INHERITED_ATTRS.
  cbn [existsb]. intros H Hn.
  repeat match type of Hn with
         | context [String.eqb name ?s] =>
             destruct (String.eqb name s) eqn:?; cbn in Hn;
             try discriminate Hn
         end.
  cbn in H. discriminate H.
Qed.

Lemma sort_step_skipped sort_by reverse (l : list Task) w :
  hasattr sort_by = false ->
  sort_step sort_by reverse l w = (Ok l, w).
Proof.
  intros H. unfold sort_step, try_except, lift, sort_tasks.
  destruct l as [|t l]; [reflexivity|].
  cbn [map_outcome]. unfold sort_key at 1.
  rewrite (getattr_missing _ t H). reflexivity.
Qed.

Lemma list_tasks_with_ext (s1 s2 : list Task -> M (list Task))
    st priority category done overdue limit fmt w :
  (forall l w1, s1 l w1 = s2 l w1) ->
  list_tasks_with s1 st priority category done overdue limit fmt w
  = list_tasks_with s2 st priority category done overdue limit fmt w.
Proof.
  intros H. unfold list_tasks_with, try_except, bind.
  destruct (load_tasks w) as [[ds | e] w1]; [|reflexivity].
  unfold lift. destruct (map_outcome from_dict ds) as [ts | e]; [|reflexivity].
  destruct (build_filter st priority category done overdue) as [f | e];
    [|reflexivity].
  destruct (filterM (matches f) ts w1) as [[fs | e] w2]; [|reflexivity].
  rewrite H. reflexivity.
Qed.

Lemma load_tasks_ok w ds :
  failures (plan w) = O ->
  stored_tasks (disk w TODOS_FILE) = Some ds ->
  exists w1, load_tasks w = (Ok ds, w1) /\ quiet w w1.
Proof.
  intros Hf Hs. pose proof (load_tasks_spec w) as H. unfold wp in H.
  destruct (load_tasks w) as [[l | e] w1]; cbn [fst snd] in H.
  - destruct H as (Hq & Hl). exists w1. split; [congruence | exact Hq].
  - destruct H as (_ & _ & [H | H]); [lia | congruence].
Qed.

Lemma filterM_static f ts w :
  f_overdue_only f = false ->
  filterM (matches f) ts w = (Ok (filter (static_match f) ts), w).
Proof.
  intros Ho. induction ts as [|t ts IH]; [reflexivity|].
  cbn [filterM filter]. unfold bind at 1.
  assert (Hm : matches f t w = (Ok (static_match f t), w)).
  { unfold matches, static_match. rewrite Ho.
    destruct (match f_status f with
              | Some s => negb (Status_eqb (status t) s) | None => false end);
      [reflexivity|].
    destruct (match f_priority f with
              | Some p => negb (Priority_eqb (priority t) p) | None => false end);
      [reflexivity|].
    destruct (match f_category f with
              | Some c => PyStr.truthy c && negb (String.eqb (category t) c)
              | None => false end);
      [reflexivity|].
    destruct (match f_completed f with
              | Some b => negb (Bool.eqb (completed t) b) | None => false end);
      reflexivity. }
  rewrite Hm. unfold bind. rewrite IH. reflexivity.
Qed.

Lemma build_filter_overdue st priority category done overdue f :
  build_filter st priority category done overdue = Ok f ->
  f_overdue_only f = overdue.
Proof.
  unfold build_filter, obind.
  destruct st as [s|];
    [destruct (selective (Some s)); [destruct (Status_from_string s)|]|];
  try discriminate;
  (destruct priority as [p|];
    [destruct (selective (Some p)); [destruct (Priority_from_string p)|]|]);
  try discriminate; intros H; injection H as <-; reflexivity.
Qed.

(** C8, as it holds on the code.  For a [sort_by] that names no
    attribute of a task, sorting is passed over: [list_tasks] does
    exactly what it does without its sort step.  In particular, when
    no system call fails, the store reads as tasks that all convert and
    the filter arguments parse, the call succeeds with the filtered
    tasks in load order, cut to the limit (shown here for filters that
    do not ask for overdue tasks only). *)
Theorem unknown_sort_key_is_skipped (sort_by : string) :
  hasattr sort_by = false ->
  forall st priority category done overdue sort_order limit fmt w,
    list_tasks st priority category done overdue sort_by sort_order limit fmt w
    = list_tasks_in_load_order st priority category done overdue limit fmt w
    /\ (forall ds ts f,
          failures (plan w) = O ->
          stored_tasks (disk w TODOS_FILE) = Some ds ->
          map_outcome from_dict ds = Ok ts ->
          build_filter st priority category done overdue = Ok f ->
          overdue = false ->
          fst (list_tasks st priority category done overdue sort_by sort_order
                 limit fmt w)
          = Ok (format_output fmt (apply_limit limit (filter (static_match f) ts)))).
Proof.
  intros Hmiss st priority category done overdue sort_order limit fmt w.
  assert (E : list_tasks st priority category done overdue sort_by sort_order
                limit fmt w
              = list_tasks_in_load_order st priority category done overdue
                  limit fmt w).
  { unfold list_tasks, list_tasks_in_load_order. apply list_tasks_with_ext.
    intros l w1. now apply sort_step_skipped. }
  split; [exact E|].
  intros ds ts f Hf Hs Hts Hbf Ho. rewrite E.
  unfold list_tasks_in_load_order, list_tasks_with, try_except, bind.
  destruct (load_tasks_ok w ds Hf Hs) as (w1 & -> & _).
  unfold lift. rewrite Hts, Hbf.
  rewrite filterM_static
    by (rewrite (build_filter_overdue _ _ _ _ _ _ Hbf); exact Ho).
  reflexivity.
Qed.

End Listing.

Lemma unknown_sort_key_is_skipped_witness :
  Skills.list_tasks None None None None false "deadline" "asc" None "json"
    (world_with [errand; chore])
  = list_tasks_in_load_order None None None None false None "json"
      (world_with [errand; chore])
  /\ (forall ds ts f,
        failures (World.plan (world_with [errand; chore])) = O ->
        stored_tasks (World.disk (world_with [errand; chore]) Storage.TODOS_FILE)
        = Some ds ->
        Skills.map_outcome Models.from_dict ds = Ok ts ->
        Skills.build_filter None None None None false = Ok f ->
        false = false ->
        fst (Skills.list_tasks None None None None false "deadline" "asc" None
               "json" (world_with [errand; chore]))
        = Ok (Skills.format_output "json"
                (Skills.apply_limit None (filter (static_match f) ts)))).
Proof.
  apply (unknown_sort_key_is_skipped "deadline").
  vm_compute. reflexivity.
Defined.

(** C8 as stated does not hold: ["category"] is outside the five keys
    and yet sorts.  The store holds task 1 (category "work") before
    task 2 (category "home"); the listing by category has 2 before 1. *)
Lemma category_is_a_sort_key :
  ~ (forall sort_by,
       Skills.mem sort_by ["id"; "title"; "priority"; "created_at"; "due_date"]
       = false ->
       forall st priority category done overdue sort_order limit fmt w,
         fst (Skills.list_tasks st priority category done overdue sort_by
                sort_order limit fmt w)
         = fst (list_tasks_in_load_order st priority category done overdue
                  limit fmt w)).
Proof.
  intros H.
  specialize (H "category" eq_refl None None None None false "asc" None "json"
                (world_with [errand; chore])).
  apply (f_equal listed_ids) in H. vm_compute in H. discriminate H.
Qed.

Example list_by_category :
  listed_ids (fst (Skills.list_tasks None None None None false "category" "asc"
                     None "json" (world_with [errand; chore])))
  = Some [2; 1].
Proof. vm_compute. reflexivity. Qed.

Example list_by_unknown_key :
  listed_ids (fst (Skills.list_tasks None None None None false "deadline" "asc"
                     None "json" (world_with [errand; chore])))
  = Some [1; 2].
Proof. vm_compute. reflexivity. Qed.

Example list_by_id_descending :
  listed_ids (fst (Skills.list_tasks None None None None false "id" "desc"
                     None "json" (world_with [errand; chore])))
  = Some [2; 1].
Proof. vm_compute. reflexivity. Qed.

(** A method name is an attribute: its values cannot be ordered and the
    operation fails. *)
Example list_by_method_name :
  option_map Models.error_code
    (match fst (Skills.list_tasks None None None None false "to_dict" "asc"
                  None "json" (world_with [errand; chore])) with
     | Ok r => Some r
     | Raise _ => None
     end)
  = Some (Some "UNKNOWN_ERROR").
Proof. vm_compute. reflexivity. Qed.

(** ** The stable sort *)

Section SortFacts.
Import PySort.

Variable A : Type.
Variable lt : A -> A -> bool.

Hypothesis lt_asym : forall a b, lt a b = true -> lt b a = false.
Hypothesis not_after_trans :
  forall a b c, not_after lt a b -> not_after lt b c -> not_after lt a c.

Lemma insert_by_perm x l : Permutation (insert_by lt x l) (x :: l).
Proof.
  induction l as [|y l IH]; cbn [insert_by]; [apply Permutation_refl|].
  destruct (lt y x); [|apply Permutation_refl].
  apply perm_trans with (y :: x :: l); [now apply perm_skip | apply perm_swap].
Qed.

Lemma stable_sort_perm l : Permutation (stable_sort lt l) l.
Proof.
  induction l as [|x l IH]; cbn; [constructor|].
  apply perm_trans with (x :: stable_sort lt l);
    [apply insert_by_perm | now apply perm_skip].
Qed.

Lemma insert_by_sorted x l :
  StronglySorted (not_after lt) l -> StronglySorted (not_after lt) (insert_by lt x l).
Proof.
  induction 1 as [|y l Hs IH Hall]; cbn [insert_by].
  - repeat constructor.
  - destruct (lt y x) eqn:E.
    + constructor; [exact IH|].
      apply Permutation_Forall with (x :: l);
        [apply Permutation_sym, insert_by_perm|].
      constructor; [apply lt_asym, E | exact Hall].
    + constructor; [constructor; assumption|].
      constructor; [exact E|].
      rewrite Forall_forall in *. intros z Hz.
      apply not_after_trans with y; [exact E | auto].
Qed.

Lemma stable_sort_sorted l : StronglySorted (not_after lt) (stable_sort lt l).
Proof.
  induction l as [|x l IH]; cbn; [constructor | now apply insert_by_sorted].
Qed.

End SortFacts.

(** ** Upcoming tasks *)

Section Upcoming.
Import Models World Storage Skills PySort PyDatetime.

Lemma ltb_asym (a b : string) : String.ltb a b = true -> String.ltb b a = false.
Proof.
  unfold String.ltb. rewrite (String.compare_antisym b a).
  destruct (String.compare a b); cbn; congruence.
Qed.

Lemma ltb_trans (a b c : string) :
  String.ltb a b = true -> String.ltb b c = true -> String.ltb a c = true.
Proof.
  unfold String.ltb. intros Hab Hbc.
  destruct (String.compare a b) eqn:E1; try discriminate.
  destruct (String.compare b c) eqn:E2; try discriminate.
  apply String_as_OT.cmp_lt in E1, E2.
  pose proof (String_as_OT.lt_trans _ _ _ E1 E2) as H.
  apply String_as_OT.cmp_lt in H. unfold String_as_OT.cmp in H. now rewrite H.
Qed.

Lemma ltb_false_trans (a b c : string) :
  String.ltb b a = false -> String.ltb c b = false -> String.ltb c a = false.
Proof.
  intros Hba Hcb. destruct (String.ltb c a) eqn:Hca; [|reflexivity].
  destruct (String.compare a b) eqn:E.
  - apply String.compare_eq_iff in E. subst b. congruence.
  - assert (Hab : String.ltb a b = true) by (unfold String.ltb; now rewrite E).
    rewrite (ltb_trans c a b Hca Hab) in Hcb. discriminate.
  - unfold String.ltb in Hba. rewrite (String.compare_antisym b a), E in Hba.
    discriminate.
Qed.

Lemma ltb_false_leb (a b : string) :
  String.ltb b a = false <-> String.leb a b = true.
Proof.
  unfold String.ltb, String.leb. rewrite (String.compare_antisym b a).
  destruct (String.compare a b); cbn; split; congruence.
Qed.

(** The whole-day test of [get_upcoming_tasks] as a half-open window:
    [0 <= days_until <= days] says that the due reading lies from [now]
    up to, but not including, [days + 1] days later. *)
Lemma whole_days_window (due now : datetime) (days : Z) :
  (0 <=? sub_days due now) && (sub_days due now <=? days) = true
  <-> naive_us now <= naive_us due < naive_us now + (days + 1) * US_PER_DAY.
Proof.
  unfold sub_days. set (x := naive_us due - naive_us now).
  assert (HD : 0 < US_PER_DAY) by reflexivity.
  pose proof (Z.div_mod x US_PER_DAY ltac:(lia)) as Hdm.
  pose proof (Z.mod_pos_bound x US_PER_DAY HD) as Hm.
  rewrite andb_true_iff, Z.leb_le, Z.leb_le.
  subst x. split; intros H; nia.
Qed.

Lemma is_upcoming_iff now days t :
  is_upcoming now days t = true
  <-> completed t = false
      /\ exists d due,
           due_date t = Some d /\ parse_due d = Some due
           /\ naive_us now <= naive_us due
              < naive_us now + (days + 1) * US_PER_DAY.
Proof.
  unfold is_upcoming. destruct (due_date t) as [d|].
  - destruct (completed t); cbn [orb].
    + split; [discriminate | intros (H & _); discriminate H].
    + destruct (PyStr.truthy d) eqn:Ed; cbn [negb].
      * destruct (parse_due d) as [due|] eqn:Ep.
        { rewrite whole_days_window. split.
          - intros H. split; [reflexivity|]. exists d, due. auto.
          - intros (_ & d' & due' & Hd & Hp & H).
            injection Hd as <-. rewrite Ep in Hp. injection Hp as <-. exact H. }
        { split; [discriminate|].
          intros (_ & d' & due' & Hd & Hp & _). injection Hd as <-. congruence. }
      * split; [discriminate|].
        intros (_ & d' & due' & Hd & Hp & _). injection Hd as <-.
        destruct d; [discriminate Hp | discriminate Ed].
  - split; [discriminate|]. intros (_ & d & due & Hd & _). discriminate Hd.
Qed.

(** C9, as it holds on the code.  When no system call fails and the
    store reads as tasks that all convert, [get_upcoming_tasks(days)]
    succeeds with exactly the tasks that are not completed and whose
    due date parses to a wall-clock reading (any UTC offset dropped,
    not converted) from [now] up to, but not including, [days + 1] days
    after [now], i.e. whose count of whole days until due lies in
    [0, days].  They come stably sorted in ascending order of the
    due-date string. *)
Theorem upcoming_counts_whole_days (days : Z) (w : world)
    (ds : list task_dict) (ts : list Task) :
  failures (plan w) = O ->
  stored_tasks (disk w TODOS_FILE) = Some ds ->
  map_outcome from_dict ds = Ok ts ->
  let now := clock w (ticks w) in
  exists l,
    fst (get_upcoming_tasks days w)
    = Ok (success_result
            ("Found " ++ PyStr.of_Z (Z.of_nat (List.length l)) ++ " upcoming tasks")
            (Some (PTasks (map to_dict l))))
    /\ l = stable_sort due_lt (filter (is_upcoming now days) ts)
    /\ Permutation l (filter (is_upcoming now days) ts)
    /\ StronglySorted
         (fun a b => String.leb (due_key a) (due_key b) = true) l
    /\ forall t,
         In t l
         <-> In t ts /\ completed t = false
             /\ exists d due,
                  due_date t = Some d /\ parse_due d = Some due
                  /\ naive_us now <= naive_us due
                     < naive_us now + (days + 1) * US_PER_DAY.
Proof.
  intros Hf Hs Hts now.
  exists (stable_sort due_lt (filter (is_upcoming now days) ts)).
  assert (Hperm : Permutation
                    (stable_sort due_lt (filter (is_upcoming now days) ts))
                    (filter (is_upcoming now days) ts))
    by apply stable_sort_perm.
  split; [|split; [reflexivity|split; [exact Hperm|split]]].
  - unfold get_upcoming_tasks, try_except, bind.
    destruct (load_tasks_ok w ds Hf Hs) as (w1 & -> & Hq).
    unfold lift. rewrite Hts. unfold utcnow. cbn [fst].
    destruct Hq as (_ & Hc & Ht & _). rewrite Hc, Ht. reflexivity.
  - pose proof (stable_sort_sorted Task due_lt
                  (fun a b => ltb_asym _ _)
                  (fun a b c => ltb_false_trans _ _ _)
                  (filter (is_upcoming now days) ts)) as Hsorted.
    eapply StronglySorted_ind with
      (P := StronglySorted (fun a b => String.leb (due_key a) (due_key b) = true));
      [constructor | | exact Hsorted].
    intros a l _ IH Hall. constructor; [exact IH|].
    rewrite Forall_forall in *. intros z Hz.
    apply ltb_false_leb. apply (Hall z Hz).
  - intros t. split.
    + intros Hin. apply (Permutation_in _ Hperm) in Hin.
      apply filter_In in Hin as (Hin & Hup).
      apply is_upcoming_iff in Hup. tauto.
    + intros (Hin & Hrest).
      apply (Permutation_in _ (Permutation_sym Hperm)).
      apply filter_In. split; [exact Hin|]. apply is_upcoming_iff. exact Hrest.
Qed.

End Upcoming.

Lemma upcoming_counts_whole_days_witness :
  let w := world_with [errand; chore] in
  let now := World.clock w (World.ticks w) in
  exists l,
    fst (Skills.get_upcoming_tasks 0 w)
    = Ok (Models.success_result
            ("Found " ++ PyStr.of_Z (Z.of_nat (List.length l)) ++ " upcoming tasks")
            (Some (Models.PTasks (map Models.to_dict l))))
    /\ l = PySort.stable_sort due_lt (filter (Skills.is_upcoming now 0)
                                        [errand_task; chore_task])
    /\ Permutation l (filter (Skills.is_upcoming now 0) [errand_task; chore_task])
    /\ StronglySorted
         (fun a b => String.leb (Skills.due_key a) (Skills.due_key b) = true) l
    /\ forall t,
         In t l
         <-> In t [errand_task; chore_task] /\ Models.completed t = false
             /\ exists d due,
                  Models.due_date t = Some d /\ Models.parse_due d = Some due
                  /\ PyDatetime.naive_us now <= PyDatetime.naive_us due
                     < PyDatetime.naive_us now + (0 + 1) * PyDatetime.US_PER_DAY.
Proof.
  apply (upcoming_counts_whole_days 0 (world_with [errand; chore])
           [errand; chore] [errand_task; chore_task]);
    reflexivity.
Defined.

Example upcoming_today :
  listed_ids (fst (Skills.get_upcoming_tasks 0 (world_with [errand; chore])))
  = Some [2; 1].
Proof. vm_compute. reflexivity. Qed.

(** C9 as stated does not hold.  At 10:00 task 1 is due at 22:00 the
    same day; [get_upcoming_tasks(0)] returns it, although its due date
    is after [now + 0 days]. *)
Lemma due_later_today_is_upcoming :
  ~ (forall days w ds ts,
       0 <= days ->
       failures (World.plan w) = O ->
       stored_tasks (World.disk w Storage.TODOS_FILE) = Some ds ->
       Skills.map_outcome Models.from_dict ds = Ok ts ->
       let now := World.clock w (World.ticks w) in
       exists l,
         fst (Skills.get_upcoming_tasks days w)
         = Ok (Models.success_result
                 ("Found " ++ PyStr.of_Z (Z.of_nat (List.length l))
                  ++ " upcoming tasks")
                 (Some (Models.PTasks (map Models.to_dict l))))
         /\ StronglySorted
              (fun a b => String.leb (Skills.due_key a) (Skills.due_key b) = true) l
         /\ forall t,
              In t l
              <-> In t ts /\ Models.completed t = false
                  /\ exists d due,
                       Models.due_date t = Some d /\ Models.parse_due d = Some due
                       /\ PyDatetime.naive_us now <= PyDatetime.naive_us due
                          <= PyDatetime.naive_us now
                             + days * PyDatetime.US_PER_DAY).
Proof.
  intros H.
  destruct (H 0 (world_with [errand; chore]) [errand; chore]
              [errand_task; chore_task] (Z.le_refl 0) eq_refl eq_refl eq_refl)
    as (l & E & _ & Hin).
  apply (f_equal (fun r => match r with
                           | Ok res =>
                               match Models.data res with
                               | Some (Models.PTasks l) => l
                               | _ => []
                               end
                           | Raise _ => []
                           end)) in E.
  cbn [Models.data Models.success_result] in E.
  assert (E' : map Models.to_dict l = [chore; errand]).
  { rewrite <- E. vm_compute. reflexivity. }
  clear E.
  destruct l as [|t1 [|t2 [|t3 l]]]; try discriminate E'.
  apply (f_equal (map Models.d_due_date)) in E'.
  cbn [map Models.to_dict Models.d_due_date chore errand] in E'.
  injection E' as _ He.
  destruct (proj1 (Hin t2) (or_intror (or_introl eq_refl)))
    as (_ & _ & d & due & Hd & Hp & _ & Hup).
  rewrite He in Hd. injection Hd as <-.
  vm_compute in Hp. injection Hp as <-.
  apply Z.leb_le in Hup. vm_compute in Hup. discriminate Hup.
Qed.


(** ** Normalising titles, categories and enumeration values *)

Section Normalisation.
Import PyStr Models.

Lemma lstrip_length (s : string) :
  (String.length (lstrip s) <= String.length s)%nat.
Proof.
  induction s as [|c s IH]; simpl; [lia|].
  destruct (isspace c); simpl; lia.
Qed.

Lemma rstrip_cons (c : ascii) (s : string) :
  rstrip (String c s)
  = match rstrip s with
    | EmptyString => if isspace c then EmptyString else String c EmptyString
    | r => String c r
    end.
Proof. reflexivity. Qed.

Lemma rstrip_length (s : string) :
  (String.length (rstrip s) <= String.length s)%nat.
Proof.
  induction s as [|c s IH]; [simpl; lia|].
  rewrite rstrip_cons.
  destruct (rstrip s); [destruct (isspace c)|]; simpl in *; lia.
Qed.

Lemma strip_length (s : string) :
  (String.length (strip s) <= String.length s)%nat.
Proof.
  unfold strip. pose proof (rstrip_length (lstrip s)).
  pose proof (lstrip_length s). lia.
Qed.

Lemma rstrip_idem (s : string) : rstrip (rstrip s) = rstrip s.
Proof.
  induction s as [|c s IH]; [reflexivity|].
  rewrite rstrip_cons.
  destruct (rstrip s) as [|d r] eqn:E.
  - destruct (isspace c) eqn:Ec; [reflexivity|].
    rewrite rstrip_cons. simpl. now rewrite Ec.
  - rewrite rstrip_cons, IH. reflexivity.
Qed.

Lemma lstrip_head (s : string) (c : ascii) (r : string) :
  lstrip s = String c r -> isspace c = false.
Proof.
  induction s as [|d s IH]; simpl; [discriminate|].
  destruct (isspace d) eqn:Ed; [exact IH|].
  intros H. injection H as -> _. exact Ed.
Qed.

Lemma rstrip_head (c : ascii) (s : string) :
  isspace c = false -> exists r, rstrip (String c s) = String c r.
Proof.
  intros Hc. rewrite rstrip_cons.
  destruct (rstrip s); [rewrite Hc|]; eauto.
Qed.

Lemma lstrip_strip (s : string) : lstrip (strip s) = strip s.
Proof.
  unfold strip. destruct (lstrip s) as [|c r] eqn:E; [reflexivity|].
  destruct (rstrip_head c r (lstrip_head _ _ _ E)) as [r' ->].
  simpl. now rewrite (lstrip_head _ _ _ E).
Qed.

Lemma strip_idem (s : string) : strip (strip s) = strip s.
Proof.
  unfold strip at 1. rewrite lstrip_strip. unfold strip. apply rstrip_idem.
Qed.

Lemma truthy_false (s : string) : truthy s = false <-> s = "".
Proof. destruct s; simpl; split; congruence. Qed.

Lemma validate_title_ok (s t : string) :
  validate_title s = Ok t ->
  t = strip s /\ (1 <= String.length t <= MAX_TITLE_LENGTH)%nat.
Proof.
  unfold validate_title.
  destruct (truthy (strip s)) eqn:Et; [|discriminate]. cbn [negb].
  destruct (MAX_TITLE_LENGTH <? String.length (strip s))%nat eqn:El;
    [discriminate|].
  intros H. injection H as <-. split; [reflexivity|].
  apply Nat.ltb_ge in El. apply truthy_length in Et. lia.
Qed.

Lemma validate_title_raises (s : string) (e : exn) :
  validate_title s = Raise e ->
  kind e = ValueError
  /\ (strip s = "" \/ (MAX_TITLE_LENGTH < String.length (strip s))%nat).
Proof.
  unfold validate_title.
  destruct (truthy (strip s)) eqn:Et; cbn [negb].
  - destruct (MAX_TITLE_LENGTH <? String.length (strip s))%nat eqn:El;
      [|discriminate].
    intros H. injection H as <-. split; [reflexivity|]. right.
    now apply Nat.ltb_lt.
  - intros H. injection H as <-. split; [reflexivity|]. left.
    now apply truthy_false.
Qed.

Lemma validate_title_accepts (t : string) :
  strip t = t -> (1 <= String.length t <= MAX_TITLE_LENGTH)%nat ->
  validate_title t = Ok t.
Proof.
  intros E (H1 & H2). unfold validate_title. rewrite E.
  apply truthy_length in H1. rewrite H1. cbn [negb].
  apply Nat.ltb_ge in H2. now rewrite H2.
Qed.

(** X1: [validate_title] hands back the stripped title, between 1 and
    200 characters long, and accepts its own result unchanged; it
    refuses with a [ValueError] exactly when the stripped title is
    empty or longer than 200 characters. *)
Theorem validate_title_normalises (s : string) :
  match validate_title s with
  | Ok t =>
      t = strip s
      /\ (1 <= String.length t <= MAX_TITLE_LENGTH)%nat
      /\ validate_title t = Ok t
  | Raise e =>
      kind e = ValueError
      /\ (strip s = "" \/ (MAX_TITLE_LENGTH < String.length (strip s))%nat)
  end.
Proof.
  destruct (validate_title s) as [t | e] eqn:E.
  - destruct (validate_title_ok s t E) as (Ht & Hl).
    repeat split; try apply Hl; try exact Ht.
    apply validate_title_accepts; [|exact Hl]. rewrite Ht. apply strip_idem.
  - now apply validate_title_raises.
Qed.

Lemma validate_category_ok (c r : string) :
  validate_category c = Ok r ->
  r = (if truthy (strip c) then strip c else DEFAULT_CATEGORY)
  /\ r <> "" /\ (String.length r <= MAX_CATEGORY_LENGTH)%nat /\ strip r = r.
Proof.
  unfold validate_category.
  destruct (MAX_CATEGORY_LENGTH <? String.length (strip c))%nat eqn:El;
    [discriminate|].
  intros H. injection H as <-. split; [reflexivity|].
  destruct (truthy (strip c)) eqn:Et.
  - split; [intros E; rewrite E in Et; discriminate|].
    split; [now apply Nat.ltb_ge | apply strip_idem].
  - repeat split; [discriminate | vm_compute; lia].
Qed.

Lemma validate_category_raises (c : string) (e : exn) :
  validate_category c = Raise e ->
  kind e = ValueError /\ (MAX_CATEGORY_LENGTH < String.length (strip c))%nat.
Proof.
  unfold validate_category.
  destruct (MAX_CATEGORY_LENGTH <? String.length (strip c))%nat eqn:El;
    [|discriminate].
  intros H. injection H as <-. split; [reflexivity | now apply Nat.ltb_lt].
Qed.

(** X2: [validate_category] never hands back an empty category: a
    blank one becomes "general", any other is stripped and at most 50
    characters long, and the result is accepted unchanged when it is
    validated again; the only refusal is a [ValueError] for more than
    50 characters after stripping. *)
Theorem validate_category_normalises (c : string) :
  match validate_category c with
  | Ok r =>
      r <> ""
      /\ (String.length r <= MAX_CATEGORY_LENGTH)%nat
      /\ r = (if truthy (strip c) then strip c else DEFAULT_CATEGORY)
      /\ validate_category r = Ok r
  | Raise e =>
      kind e = ValueError
      /\ (MAX_CATEGORY_LENGTH < String.length (strip c))%nat
  end.
Proof.
  destruct (validate_category c) as [r | e] eqn:E.
  - destruct (validate_category_ok c r E) as (Hr & Hn & Hl & Hs).
    repeat split; auto. unfold validate_category. rewrite Hs.
    apply Nat.ltb_ge in Hl. rewrite Hl.
    destruct r; [congruence | reflexivity].
  - now apply validate_category_raises.
Qed.

Lemma Priority_of_value_iff (v : string) (p : Priority) :
  Priority_of_value v = Some p <-> v = Priority_value p.
Proof.
  unfold Priority_of_value.
  destruct (String.eqb_spec v "high") as [->|H1];
    [destruct p; simpl; split; congruence|].
  destruct (String.eqb_spec v "medium") as [->|H2];
    [destruct p; simpl; split; congruence|].
  destruct (String.eqb_spec v "low") as [->|H3];
    [destruct p; simpl; split; congruence|].
  destruct p; simpl; split; congruence.
Qed.

Lemma Status_of_value_iff (v : string) (s : Status) :
  Status_of_value v = Some s <-> v = Status_value s.
Proof.
  unfold Status_of_value.
  destruct (String.eqb_spec v "pending") as [->|H1];
    [destruct s; simpl; split; congruence|].
  destruct (String.eqb_spec v "in_progress") as [->|H2];
    [destruct s; simpl; split; congruence|].
  destruct (String.eqb_spec v "completed") as [->|H3];
    [destruct s; simpl; split; congruence|].
  destruct s; simpl; split; congruence.
Qed.

Lemma Priority_from_string_iff (v : string) (p : Priority) :
  Priority_from_string v = Ok p <-> lower v = Priority_value p.
Proof.
  unfold Priority_from_string. rewrite <- Priority_of_value_iff.
  destruct (Priority_of_value (lower v)); split; congruence.
Qed.

Lemma Status_from_string_iff (v : string) (s : Status) :
  Status_from_string v = Ok s <-> lower v = Status_value s.
Proof.
  unfold Status_from_string. rewrite <- Status_of_value_iff.
  destruct (Status_of_value (lower v)); split; congruence.
Qed.

Lemma Priority_from_value (p : Priority) :
  Priority_from_string (Priority_value p) = Ok p.
Proof. now destruct p. Qed.

Lemma Status_from_value (s : Status) :
  Status_from_string (Status_value s) = Ok s.
Proof. now destruct s. Qed.

Lemma Priority_from_string_raises (v : string) (e : exn) :
  Priority_from_string v = Raise e ->
  kind e = ValueError /\ forall p, lower v <> Priority_value p.
Proof.
  unfold Priority_from_string.
  destruct (Priority_of_value (lower v)) eqn:E; [discriminate|].
  intros H. injection H as <-. split; [reflexivity|].
  intros p Hp. apply Priority_of_value_iff in Hp. congruence.
Qed.

Lemma Status_from_string_raises (v : string) (e : exn) :
  Status_from_string v = Raise e ->
  kind e = ValueError /\ forall s, lower v <> Status_value s.
Proof.
  unfold Status_from_string.
  destruct (Status_of_value (lower v)) eqn:E; [discriminate|].
  intros H. injection H as <-. split; [reflexivity|].
  intros s Hs. apply Status_of_value_iff in Hs. congruence.
Qed.

(** X3: [Priority.from_string] and [Status.from_string] read a string
    by its lower-casing: the result is the member whose value that is,
    and a [ValueError] when no member has it.  So the value of every
    member is read back as the member, in any case of letters. *)
Theorem from_string_reads_values_in_any_case :
  (forall v, match Priority_from_string v with
             | Ok p => lower v = Priority_value p
             | Raise e => kind e = ValueError
                          /\ forall p, lower v <> Priority_value p
             end)
  /\ (forall v, match Status_from_string v with
                | Ok s => lower v = Status_value s
                | Raise e => kind e = ValueError
                             /\ forall s, lower v <> Status_value s
                end)
  /\ (forall v p, lower v = Priority_value p -> Priority_from_string v = Ok p)
  /\ (forall v s, lower v = Status_value s -> Status_from_string v = Ok s).
Proof.
  split; [|split; [|split]].
  - intros v. destruct (Priority_from_string v) as [p | e] eqn:E.
    + now apply Priority_from_string_iff.
    + now apply Priority_from_string_raises.
  - intros v. destruct (Status_from_string v) as [s | e] eqn:E.
    + now apply Status_from_string_iff.
    + now apply Status_from_string_raises.
  - intros v p. apply Priority_from_string_iff.
  - intros v s. apply Status_from_string_iff.
Qed.

Lemma Task_init_ok i ttl (p : Priority) cat (st : Status) done created u f due :
  (1 <= String.length (strip ttl) <= MAX_TITLE_LENGTH)%nat ->
  (String.length cat <= MAX_CATEGORY_LENGTH)%nat ->
  Task_init i ttl (Priority_value p) cat (Status_value st) done created u f due
  = Ok (mk_Task i (strip ttl) p cat st done created u f due).
Proof.
  intros [H1 H2] H3. unfold Task_init.
  rewrite Priority_from_value, Status_from_value. simpl.
  destruct (strip ttl) as [|a r] eqn:E; [simpl in H1; lia|].
  cbn [truthy negb].
  apply Nat.ltb_ge in H2, H3. now rewrite H2, H3.
Qed.

Lemma Task_init_validated (s c t c' : string) (i : Z) (p : Priority)
    (st : Status) (done : bool) (created : string) (u f due : option string) :
  validate_title s = Ok t ->
  validate_category c = Ok c' ->
  Task_init i t (Priority_value p) c' (Status_value st) done created u f due
  = Ok (mk_Task i t p c' st done created u f due).
Proof.
  intros Ht Hc.
  destruct (validate_title_ok s t Ht) as (Es & Hl).
  destruct (validate_category_ok c c' Hc) as (_ & _ & Hc' & _).
  assert (E : strip t = t) by (rewrite Es; apply strip_idem).
  rewrite Task_init_ok; rewrite ?E; auto.
Qed.

(** X4: whatever the validators let through passes the [Task]
    constructor: with a title from [validate_title], a category from
    [validate_category] and a priority and a status that [from_string]
    reads (in any case of letters), [__post_init__] refuses nothing and
    keeps the title and the category as they are. *)
Theorem validated_fields_pass_the_constructor
    (s c t c' prio st : string) (i : Z) (p : Priority) (q : Status)
    (done : bool) (created : string) (u f due : option string) :
  validate_title s = Ok t ->
  validate_category c = Ok c' ->
  Priority_from_string prio = Ok p ->
  Status_from_string st = Ok q ->
  Task_init i t prio c' st done created u f due
  = Ok (mk_Task i t p c' q done created u f due).
Proof.
  intros Ht Hc Hp Hq.
  destruct (validate_title_ok s t Ht) as (Es & Hl1 & Hl2).
  destruct (validate_category_ok c c' Hc) as (_ & _ & Hc' & _).
  assert (E : strip t = t) by (rewrite Es; apply strip_idem).
  unfold Task_init. rewrite Hp, Hq. cbn [obind]. rewrite E.
  apply truthy_length in Hl1. rewrite Hl1. cbn [negb].
  apply Nat.ltb_ge in Hl2, Hc'. now rewrite Hl2, Hc'.
Qed.

Lemma validated_fields_pass_the_constructor_witness :
  Task_init 1 "Buy milk" "LOW" "home" "Pending"
    false "2025-01-15T10:00:00Z" None None None
  = Ok (mk_Task 1 "Buy milk" LOW "home" PENDING false "2025-01-15T10:00:00Z"
          None None None).
Proof.
  apply (validated_fields_pass_the_constructor "  Buy milk " " home ");
    reflexivity.
Defined.

(** X5: a task that was read from its dictionary is written back to a
    dictionary that reads as the same task (round trip); writing it
    back changes only the title, which comes back stripped, and the
    priority and the status, which come back in lower case. *)
Theorem task_dict_round_trip (d : task_dict) (t : Task) :
  from_dict d = Ok t ->
  from_dict (to_dict t) = Ok t
  /\ to_dict t
     = mk_task_dict (d_id d) (strip (d_title d)) (lower (d_priority d))
         (d_category d) (lower (d_status d)) (d_completed d) (d_created_at d)
         (d_updated_at d) (d_completed_at d) (d_due_date d).
Proof.
  unfold from_dict, Task_init. intros H.
  destruct (Priority_from_string (d_priority d)) as [p|] eqn:Ep; [|discriminate].
  destruct (Status_from_string (d_status d)) as [s|] eqn:Es; [|discriminate].
  simpl in H.
  destruct (truthy (strip (d_title d))) eqn:Et; [|discriminate]. simpl in H.
  destruct (MAX_TITLE_LENGTH <? String.length (strip (d_title d)))%nat eqn:El;
    [discriminate|].
  destruct (MAX_CATEGORY_LENGTH <? String.length (d_category d))%nat eqn:Ec;
    [discriminate|].
  injection H as <-. simpl.
  rewrite Priority_from_value, Status_from_value. simpl.
  rewrite strip_idem, Et, El, Ec. simpl.
  apply Priority_from_string_iff in Ep. apply Status_from_string_iff in Es.
  unfold to_dict. simpl. now rewrite Ep, Es.
Qed.

Lemma task_dict_round_trip_witness :
  from_dict (to_dict shouted_task) = Ok shouted_task
  /\ to_dict shouted_task
     = mk_task_dict (d_id shouted) (strip (d_title shouted))
         (lower (d_priority shouted)) (d_category shouted)
         (lower (d_status shouted)) (d_completed shouted)
         (d_created_at shouted) (d_updated_at shouted)
         (d_completed_at shouted) (d_due_date shouted).
Proof. apply (task_dict_round_trip shouted shouted_task). reflexivity. Defined.

End Normalisation.

(** ** The store when no system call fails, and what it keeps *)

Section StoreFacts.
Import Models World Storage.

Lemma wp_result {A} (m : M A) (Q : outcome A -> world -> Prop) w :
  wp m Q w -> exists r w', m w = (r, w') /\ Q r w'.
Proof.
  unfold wp. intros H. destruct (m w) as [r w'] eqn:E. exists r, w'. auto.
Qed.

Lemma quiet_no_failure w w' :
  quiet w w' -> failures (plan w) = O -> failures (plan w') = O.
Proof. intros (_ & _ & _ & _ & H) H0. lia. Qed.

Lemma save_tasks_ok tasks w :
  failures (plan w) = O ->
  exists w1,
    save_tasks tasks w = (Ok true, w1)
    /\ disk w1 TODOS_FILE = Some (Tasks tasks)
    /\ disk w1 TEMP_FILE = None
    /\ others_kept [TODOS_FILE; TEMP_FILE] w w1.
Proof.
  intros H0.
  destruct (wp_result _ _ _ (save_tasks_spec tasks w)) as (r & w1 & E & Hs & _ & Hk).
  exists w1. destruct Hs as [(-> & Hd & Ht) | (_ & _ & Hf)]; [auto | lia].
Qed.

(** X6: with no system call failing, a list that was saved is the list
    that the next load returns, and the load changes no file. *)
Theorem saved_tasks_load_back (tasks : list task_dict) (w : world) :
  failures (plan w) = O ->
  exists w1 w2,
    save_tasks tasks w = (Ok true, w1)
    /\ load_tasks w1 = (Ok tasks, w2)
    /\ disk w2 = disk w1.
Proof.
  intros H0. destruct (save_tasks_ok tasks w H0) as (w1 & E & Hd & _ & Hk).
  assert (H1 : failures (plan w1) = O)
    by (destruct Hk as (_ & _ & _ & _ & Hf); lia).
  destruct (load_tasks_ok w1 tasks H1) as (w2 & E2 & Hq);
    [now rewrite Hd|].
  exists w1, w2. repeat split; auto. apply Hq.
Qed.

Lemma saved_tasks_load_back_witness :
  exists w1 w2,
    save_tasks [milk; chore] (world_with [errand]) = (Ok true, w1)
    /\ load_tasks w1 = (Ok [milk; chore], w2)
    /\ disk w2 = disk w1.
Proof. apply (saved_tasks_load_back [milk; chore] (world_with [errand])). reflexivity. Defined.

Lemma max_id_bound (rest : list task_dict) : forall a,
  a <= fold_left (fun m t => Z.max m (d_id t)) rest a
  /\ forall t, In t rest ->
       d_id t <= fold_left (fun m t => Z.max m (d_id t)) rest a.
Proof.
  induction rest as [|x rest IH]; intros a; cbn [fold_left].
  - split; [lia | intros t []].
  - destruct (IH (Z.max a (d_id x))) as (H1 & H2). split; [lia|].
    intros t [<- | Ht]; [lia | auto].
Qed.

Lemma next_id_above (l : list task_dict) (t : task_dict) :
  In t l -> d_id t < next_id l.
Proof.
  destruct l as [|x rest]; [intros []|]. unfold next_id, max_id.
  destruct (max_id_bound rest (d_id x)) as (H1 & H2).
  intros [<- | Ht]; [lia|]. specialize (H2 t Ht). lia.
Qed.

Lemma first_with_id_none (task_id : Z) (l : list task_dict) :
  first_with_id task_id l = None <-> forall t, In t l -> d_id t <> task_id.
Proof.
  induction l as [|x rest IH]; cbn [first_with_id].
  - split; [intros _ t [] | reflexivity].
  - destruct (Z.eqb_spec (d_id x) task_id) as [E | N].
    + split; [discriminate|]. intros H. exfalso. apply (H x); [now left | exact E].
    + rewrite IH. split.
      * intros H t [<- | Ht]; auto.
      * intros H t Ht. apply H. now right.
Qed.

(** X7: the id that [get_next_id] hands out is above the id of every
    task in the store, so no stored task has it; it is 1 for an empty
    or absent store.  A failure is a [StorageError], and no file is
    changed either way. *)
Theorem next_id_is_above_every_stored_id (w : world) :
  let r := fst (get_next_id w) in
  let w' := snd (get_next_id w) in
  disk w' = disk w
  /\ match r with
     | Ok i =>
         exists l,
           stored_tasks (disk w TODOS_FILE) = Some l
           /\ (forall t, In t l -> d_id t < i)
           /\ first_with_id i l = None
           /\ (l = [] -> i = 1)
     | Raise e => kind e = StorageError
     end.
Proof.
  intros r w'. pose proof (get_next_id_spec w) as H. unfold wp in H.
  fold r w' in H. destruct H as (Hq & H). split; [apply Hq|].
  destruct r as [i | e]; [|apply H].
  destruct H as (l & Hl & ->). exists l. split; [exact Hl|].
  split; [intros t; apply next_id_above|]. split; [|now intros ->].
  apply first_with_id_none. intros t Ht E.
  pose proof (next_id_above l t Ht). lia.
Qed.

Lemma first_with_id_split (task_id : Z) (l : list task_dict) (d : task_dict) :
  first_with_id task_id l = Some d ->
  exists pre post,
    l = (pre ++ d :: post)%list
    /\ (forall t, In t pre -> d_id t <> task_id)
    /\ d_id d = task_id
    /\ forall f, update_first task_id f l = (pre ++ f d :: post)%list.
Proof.
  induction l as [|x rest IH]; cbn [first_with_id update_first]; [discriminate|].
  destruct (Z.eqb_spec (d_id x) task_id) as [E | N].
  - intros H. injection H as <-. exists [], rest.
    repeat split; auto.
  - intros H. destruct (IH H) as (pre & post & -> & Hpre & Hd & Hf).
    exists (x :: pre), post. repeat split; auto.
    + intros t [<- | Ht]; auto.
    + intros f. cbn [app]. now rewrite Hf.
Qed.

(** X8: [update_task] of the store rewrites one record only, the first
    one that carries the id: the records before and after it are kept
    as they are and in place, the record keeps its id, and its
    [updated_at] is the clock reading of the store, whatever the
    updates say.  When no record carries the id the answer is [False]
    and the store file is as it was; a failure is a [StorageError] and
    leaves the store file as it was. *)
Theorem store_update_touches_one_record
    (task_id : Z) (updates : list field_update) (w : world) :
  let r := fst (Storage.update_task task_id updates w) in
  let w' := snd (Storage.update_task task_id updates w) in
  let now := clock w (ticks w) in
  match r with
  | Ok true =>
      exists pre d post,
        stored_tasks (disk w TODOS_FILE) = Some (pre ++ d :: post)%list
        /\ (forall t, In t pre -> d_id t <> task_id)
        /\ d_id d = task_id
        /\ let d' := assign (apply_updates updates d)
                       (UUpdatedAt (Some (stamp now))) in
           disk w' TODOS_FILE = Some (Tasks (pre ++ d' :: post)%list)
           /\ d_id d' = task_id
           /\ d_updated_at d' = Some (stamp now)
  | Ok false =>
      exists l,
        stored_tasks (disk w TODOS_FILE) = Some l
        /\ (forall t, In t l -> d_id t <> task_id)
        /\ disk w' TODOS_FILE = disk w TODOS_FILE
  | Raise e =>
      kind e = StorageError /\ disk w' TODOS_FILE = disk w TODOS_FILE
  end.
Proof.
  intros r w' now. pose proof (update_task_spec task_id updates w) as H.
  unfold wp, update_post in H. fold r w' in H. destruct H as (_ & H).
  destruct r as [[|] | e].
  - destruct H as (l & d & Hl & Hf & Hd).
    destruct (first_with_id_split _ _ _ Hf) as (pre & post & -> & Hpre & Hid & Hu).
    exists pre, d, post. repeat split; auto.
    + rewrite Hd, Hu. reflexivity.
    + now rewrite assign_id, apply_updates_id.
  - destruct H as (l & Hl & Hf & Hd). exists l. repeat split; auto.
    now apply first_with_id_none.
  - destruct H as (Hk & Hd & _). auto.
Qed.

Lemma first_with_id_filter_other (task_id other : Z) (l : list task_dict) :
  other <> task_id ->
  first_with_id other (filter (fun t => negb (d_id t =? task_id)) l)
  = first_with_id other l.
Proof.
  intros N. induction l as [|x rest IH]; [reflexivity|].
  cbn [filter first_with_id].
  destruct (Z.eqb_spec (d_id x) task_id) as [E | N']; cbn [negb].
  - rewrite IH. destruct (Z.eqb_spec (d_id x) other); [congruence | reflexivity].
  - cbn [first_with_id]. now rewrite IH.
Qed.

Lemma first_with_id_filter_same (task_id : Z) (l : list task_dict) :
  first_with_id task_id (filter (fun t => negb (d_id t =? task_id)) l) = None.
Proof.
  apply first_with_id_none. intros t Ht. apply filter_In in Ht.
  destruct Ht as (_ & Ht). destruct (Z.eqb_spec (d_id t) task_id); [discriminate | auto].
Qed.

(** X9: [delete_task] of the store removes every record that carries
    the id and nothing else: the records left are those with another
    id, in the order they had, so a search for the id finds nothing
    afterwards and a search for any other id finds what it found
    before.  When no record carries the id the answer is [False] and
    the store file is as it was; a failure is a [StorageError] and
    leaves the store file as it was. *)
Theorem store_delete_removes_every_record (task_id : Z) (w : world) :
  let r := fst (Storage.delete_task task_id w) in
  let w' := snd (Storage.delete_task task_id w) in
  match r with
  | Ok true =>
      exists l l',
        stored_tasks (disk w TODOS_FILE) = Some l
        /\ disk w' TODOS_FILE = Some (Tasks l')
        /\ l' = filter (fun t => negb (d_id t =? task_id)) l
        /\ (forall t, In t l' <-> In t l /\ d_id t <> task_id)
        /\ (List.length l' < List.length l)%nat
        /\ first_with_id task_id l' = None
        /\ (forall other, other <> task_id ->
              first_with_id other l' = first_with_id other l)
  | Ok false =>
      exists l,
        stored_tasks (disk w TODOS_FILE) = Some l
        /\ (forall t, In t l -> d_id t <> task_id)
        /\ disk w' TODOS_FILE = disk w TODOS_FILE
  | Raise e =>
      kind e = StorageError /\ disk w' TODOS_FILE = disk w TODOS_FILE
  end.
Proof.
  intros r w'. pose proof (delete_task_spec task_id w) as H.
  unfold wp, delete_post in H. fold r w' in H. destruct H as (_ & H).
  destruct r as [[|] | e].
  - destruct H as (l & Hl & Hf & Hd).
    exists l, (filter (fun t => negb (d_id t =? task_id)) l).
    split; [exact Hl|]. split; [exact Hd|]. split; [reflexivity|].
    split; [|split; [|split]].
    + intros t. rewrite filter_In.
      destruct (Z.eqb_spec (d_id t) task_id); cbn [negb]; split;
        intros (? & ?); split; auto; discriminate.
    + pose proof (filter_length_same task_id l) as E.
      pose proof (filter_length_le (fun t => negb (d_id t =? task_id)) l) as Le.
      destruct (first_with_id task_id l); [|congruence].
      apply Nat.eqb_neq in E. lia.
    + apply first_with_id_filter_same.
    + intros other N. now apply first_with_id_filter_other.
  - destruct H as (l & Hl & Hf & Hd). exists l. repeat split; auto.
    now apply first_with_id_none.
  - destruct H as (Hk & Hd & _). auto.
Qed.

Lemma read_file_ok p c w :
  failures (plan w) = O -> disk w p = Some c ->
  exists w1, read_file p w = (Ok c, w1) /\ quiet w w1.
Proof.
  intros H0 Hd. unfold read_file, syscall, next_fault, bind, quiet.
  destruct w as [dsk pl clk tk out]. cbn in *.
  destruct pl as [|[| |?] pl]; cbn in *; try discriminate;
    rewrite Hd; eexists; (split; [reflexivity|]); cbn; repeat split; auto.
Qed.

Lemma write_file_ok p c w :
  failures (plan w) = O ->
  exists w1, write_file p c w = (Ok tt, w1)
             /\ disk w1 p = Some c /\ others_kept [p] w w1.
Proof.
  intros H0.
  destruct (wp_result _ _ _ (write_file_spec p c w)) as (r & w1 & E & Hk & H).
  exists w1. destruct r as [[] | e].
  - destruct H as (Hd & _). auto.
  - destruct H as (_ & Hs). unfold spent in Hs. lia.
Qed.

Lemma backup_tasks_ok c w :
  failures (plan w) = O -> disk w TODOS_FILE = Some c ->
  exists w1,
    backup_tasks w = (Ok (backup_path (clock w (ticks w))), w1)
    /\ disk w1 (backup_path (clock w (ticks w))) = Some c
    /\ (forall q, q <> backup_path (clock w (ticks w)) -> disk w1 q = disk w q)
    /\ stdout w1 = stdout w /\ clock w1 = clock w /\ ticks w1 = S (ticks w)
    /\ failures (plan w1) = O.
Proof.
  intros H0 Hd. unfold backup_tasks, try_except, bind at 1, path_exists.
  rewrite Hd. cbn [negb]. unfold bind at 1, utcnow. fold (tick w).
  fold (backup_path (clock w (ticks w))).
  set (path := backup_path (clock w (ticks w))).
  destruct (read_file_ok TODOS_FILE c (tick w) H0 Hd) as (w1 & E1 & Hq1).
  unfold bind at 1. rewrite E1.
  pose proof (quiet_no_failure _ _ Hq1 H0) as H1.
  destruct (write_file_ok path c w1 H1) as (w2 & E2 & Hd2 & Hk2).
  unfold bind at 1. rewrite E2. unfold ret.
  exists w2. split; [reflexivity|]. split; [exact Hd2|].
  destruct Hq1 as (q1 & q2 & q3 & q4 & q5).
  destruct Hk2 as (k1 & k2 & k3 & k4 & k5).
  split; [|repeat split].
  - intros q Hq. rewrite k1; [now rewrite q1 | intros [H | []]; congruence].
  - now rewrite k4, q4.
  - now rewrite k2, q2.
  - now rewrite k3, q3.
  - lia.
Qed.

(** X10: [backup_tasks] never raises and never changes the store file.
    Without a store it answers with the empty path and does nothing at
    all; with a store and no system call failing it answers with
    "todos.backup.<timestamp>.json", that file then holds what the
    store holds, and no other file and not the console is touched. *)
Theorem backup_copies_the_store (w : world) :
  let r := fst (backup_tasks w) in
  let w' := snd (backup_tasks w) in
  let path := BACKUP_PREFIX ++ "." ++ backup_timestamp (clock w (ticks w))
              ++ ".json" in
  (exists p, r = Ok p)
  /\ disk w' TODOS_FILE = disk w TODOS_FILE
  /\ (disk w TODOS_FILE = None -> r = Ok "" /\ w' = w)
  /\ (disk w TODOS_FILE <> None -> failures (plan w) = O ->
      r = Ok path
      /\ disk w' path = disk w TODOS_FILE
      /\ (forall q, q <> path -> disk w' q = disk w q)
      /\ stdout w' = stdout w).
Proof.
  intros r w' path. pose proof (backup_tasks_spec w) as H. unfold wp in H.
  fold r w' in H. destruct H as (Hr & Hk).
  split; [exact Hr|]. split; [apply Hk|]. split.
  - intros Hn. subst r w'. unfold backup_tasks, try_except, bind, path_exists.
    rewrite Hn. cbn. auto.
  - intros Hs H0. destruct (disk w TODOS_FILE) as [c|] eqn:Hd; [|congruence].
    destruct (backup_tasks_ok c w H0 Hd) as (w1 & E & Hp & Ho & Hout & _).
    subst r w'. rewrite E. cbn [fst snd]. auto.
Qed.

Lemma with_loaded {A} (k : list task_dict -> M A) (h : exn -> M A) w l :
  failures (plan w) = O ->
  stored_tasks (disk w TODOS_FILE) = Some l ->
  exists w1, quiet w w1
    /\ try_except (tasks <- load_tasks ;; k tasks) h w
       = try_except (k l) h w1.
Proof.
  intros H0 Hl. destruct (load_tasks_ok w l H0 Hl) as (w1 & E & Hq).
  exists w1. split; [exact Hq|]. unfold try_except, bind. now rewrite E.
Qed.

Lemma get_next_id_ok w l :
  failures (plan w) = O ->
  stored_tasks (disk w TODOS_FILE) = Some l ->
  exists w1, get_next_id w = (Ok (next_id l), w1) /\ quiet w w1.
Proof.
  intros H0 Hl. unfold get_next_id.
  destruct (with_loaded
              (fun tasks => match tasks with
                            | [] => ret 1
                            | t :: rest => ret (max_id t rest + 1)
                            end)
              (fun e => storage_error ("Failed to generate next ID: " ++ msg e))
              w l H0 Hl) as (w1 & Hq & ->).
  exists w1. split; [|exact Hq]. now destruct l.
Qed.

Lemma find_task_by_id_ok task_id w l :
  failures (plan w) = O ->
  stored_tasks (disk w TODOS_FILE) = Some l ->
  exists w1, find_task_by_id task_id w = (Ok (first_with_id task_id l), w1)
             /\ quiet w w1.
Proof.
  intros H0 Hl. unfold find_task_by_id.
  destruct (with_loaded (fun tasks => ret (first_with_id task_id tasks))
              (fun e => storage_error ("Failed to find task: " ++ msg e))
              w l H0 Hl) as (w1 & Hq & ->).
  exists w1. split; [reflexivity | exact Hq].
Qed.

Lemma update_task_ok task_id updates w l d :
  failures (plan w) = O ->
  stored_tasks (disk w TODOS_FILE) = Some l ->
  first_with_id task_id l = Some d ->
  exists w1,
    Storage.update_task task_id updates w = (Ok true, w1)
    /\ disk w1 TODOS_FILE
       = Some (Tasks (update_first task_id (touched updates (clock w (ticks w))) l))
    /\ disk w1 TEMP_FILE = None
    /\ (forall q, q <> TODOS_FILE -> q <> TEMP_FILE -> disk w1 q = disk w q)
    /\ stdout w1 = stdout w /\ clock w1 = clock w /\ ticks w1 = S (ticks w)
    /\ failures (plan w1) = O.
Proof.
  intros H0 Hl Hf. unfold Storage.update_task.
  destruct (with_loaded
              (fun tasks =>
                 r <- update_loop task_id updates tasks ;;
                 if negb (fst r) then ret false
                 else _ <- save_tasks (snd r) ;; ret true)
              (fun e => storage_error ("Failed to update task: " ++ msg e))
              w l H0 Hl) as (w1 & Hq & ->).
  unfold try_except, bind at 1. rewrite update_loop_spec, Hf. cbn [fst snd negb].
  pose proof (quiet_no_failure _ _ Hq H0) as H1.
  destruct (save_tasks_ok (update_first task_id (touched updates (clock w1 (ticks w1))) l)
              (tick w1) H1) as (w2 & E & Hd & Ht & Hk).
  unfold bind. rewrite E. unfold ret. exists w2. split; [reflexivity|].
  destruct Hq as (q1 & q2 & q3 & q4 & q5).
  destruct Hk as (k1 & k2 & k3 & k4 & k5). cbn [tick disk clock ticks stdout plan] in *.
  rewrite q2, q3 in Hd. repeat split; auto; try congruence.
  - intros q N1 N2. rewrite k1; [now rewrite q1 | intros [H | [H | []]]; congruence].
  - lia.
Qed.

Lemma delete_task_ok task_id w l d :
  failures (plan w) = O ->
  stored_tasks (disk w TODOS_FILE) = Some l ->
  first_with_id task_id l = Some d ->
  exists w1,
    Storage.delete_task task_id w = (Ok true, w1)
    /\ disk w1 TODOS_FILE
       = Some (Tasks (filter (fun t => negb (d_id t =? task_id)) l))
    /\ (forall q, q <> TODOS_FILE -> q <> TEMP_FILE -> disk w1 q = disk w q)
    /\ stdout w1 = stdout w /\ clock w1 = clock w /\ ticks w1 = ticks w
    /\ failures (plan w1) = O.
Proof.
  intros H0 Hl Hf. destruct (load_tasks_ok w l H0 Hl) as (w1 & E1 & Hq).
  unfold Storage.delete_task, try_except. unfold bind at 1. rewrite E1.
  cbv zeta. rewrite filter_length_same, Hf.
  pose proof (quiet_no_failure _ _ Hq H0) as H1.
  destruct (save_tasks_ok (filter (fun t => negb (d_id t =? task_id)) l) w1 H1)
    as (w2 & E & Hd & Ht & Hk).
  unfold bind. rewrite E. unfold ret. exists w2. split; [reflexivity|].
  destruct Hq as (q1 & q2 & q3 & q4 & q5).
  destruct Hk as (k1 & k2 & k3 & k4 & k5).
  repeat split; auto; try congruence.
  - intros q N1 N2. rewrite k1; [now rewrite q1 | intros [H | [H | []]]; congruence].
  - lia.
Qed.

End StoreFacts.

(** ** Adding and removing tasks *)

Section AddAndRemove.
Import PyStr Models World Storage Skills.

Lemma fromisoformat_raises s e :
  PyDatetime.fromisoformat s = Raise e -> kind e = ValueError.
Proof.
  unfold PyDatetime.fromisoformat, PyDatetime.of_option, PyDatetime.invalid, obind.
  destruct (PyDatetime.parse_isoformat_date _) as [[[y m] d]|];
    [|intros H; injection H as <-; reflexivity].
  destruct (truthy _).
  - destruct (PyDatetime.parse_isoformat_time _) as [[[[[hh mm] ss] us] tz]|];
      [|intros H; injection H as <-; reflexivity].
    destruct (PyDatetime.check_fields _); [discriminate|].
    intros H; injection H as <-; reflexivity.
  - destruct (PyDatetime.check_fields _); [discriminate|].
    intros H; injection H as <-; reflexivity.
Qed.

Lemma validate_due_date_raises s e :
  validate_due_date s = Raise e -> kind e = ValueError.
Proof.
  unfold validate_due_date.
  destruct (PyDatetime.fromisoformat _) as [dt | e0] eqn:E; [discriminate|].
  apply fromisoformat_raises in E.
  assert (H : isinstance e0 ValueError = true)
    by (unfold isinstance; rewrite E; reflexivity).
  rewrite H. cbn [orb]. intros H1. injection H1 as <-. reflexivity.
Qed.

Lemma on_error_value e w :
  kind e = ValueError ->
  on_error true e w = (Ok (error_result (msg e) ERR_VALIDATION), w).
Proof.
  intros H. unfold on_error, isinstance. rewrite H. reflexivity.
Qed.

(** X11: [add_task] validates everything before it looks at the store:
    when the title, the priority, the category or a due date that is
    given is refused, the result is a VALIDATION_ERROR and the world
    is exactly as it was: no file read or written, the clock not read,
    no planned failure used up. *)
Theorem add_task_validates_before_io
    (ttl priority category : string) (due : option string) (w : world) :
  (exists e, validate_title ttl = Raise e)
  \/ (exists e, Priority_from_string priority = Raise e)
  \/ (exists e, validate_category category = Raise e)
  \/ (exists d e, due = Some d /\ d <> "" /\ validate_due_date d = Raise e) ->
  exists err,
    add_task ttl priority category due w
    = (Ok (error_result err ERR_VALIDATION), w).
Proof.
  intros H. unfold add_task, try_except. unfold bind at 1, lift at 1.
  destruct (validate_title ttl) as [vt | e1] eqn:E1.
  2: { rewrite on_error_value by (eapply validate_title_raises; eauto). eauto. }
  unfold bind at 1, lift at 1.
  destruct (Priority_from_string priority) as [p | e2] eqn:E2.
  2: { rewrite on_error_value by (eapply Priority_from_string_raises; eauto). eauto. }
  unfold bind at 1, lift at 1.
  destruct (validate_category category) as [vc | e3] eqn:E3.
  2: { rewrite on_error_value by (eapply validate_category_raises; eauto). eauto. }
  unfold bind at 1, lift at 1.
  destruct H as [(e & H) | [(e & H) | [(e & H) | (d & e & -> & Hd & H)]]];
    try congruence.
  assert (Hg : given (Some d) = true) by (destruct d; [congruence | reflexivity]).
  rewrite Hg, H. cbn [obind].
  rewrite on_error_value by (eapply validate_due_date_raises; eauto). eauto.
Qed.

Lemma add_task_validates_before_io_witness :
  exists err,
    add_task "Pay rent" "urgent" "home" (Some "tomorrow") (world_with [milk])
    = (Ok (error_result err ERR_VALIDATION), world_with [milk]).
Proof.
  apply (add_task_validates_before_io "Pay rent" "urgent" "home"
           (Some "tomorrow") (world_with [milk])).
  right. left. eexists. reflexivity.
Defined.

Lemma first_with_id_app_new (l : list task_dict) (d : task_dict) :
  (forall t, In t l -> d_id t <> d_id d) ->
  first_with_id (d_id d) (l ++ [d]) = Some d.
Proof.
  induction l as [|x rest IH]; intros H; cbn [app first_with_id].
  - now rewrite Z.eqb_refl.
  - destruct (Z.eqb_spec (d_id x) (d_id d)) as [E | N].
    + exfalso. apply (H x); [now left | exact E].
    + apply IH. intros t Ht. apply H. now right.
Qed.

Lemma add_task_ok
    (ttl priority category : string) (due due' : option string) (w : world)
    (l : list task_dict) (vt vc : string) (p : Priority) :
  failures (plan w) = O ->
  stored_tasks (disk w TODOS_FILE) = Some l ->
  validate_title ttl = Ok vt ->
  Priority_from_string priority = Ok p ->
  validate_category category = Ok vc ->
  checked_due due = Ok due' ->
  let t := mk_Task (next_id l) vt p vc PENDING false
             (stamp (clock w (ticks w))) None None due' in
  exists w',
    add_task ttl priority category due w
    = (Ok (success_result
             ("Task #" ++ PyStr.of_Z (next_id l) ++ " added successfully")
             (Some (PTask (to_dict t)))), w')
    /\ disk w' TODOS_FILE = Some (Tasks (l ++ [to_dict t]))
    /\ failures (plan w') = O.
Proof.
  intros H0 Hl Ht Hp Hc Hd t.
  unfold add_task, try_except. unfold bind at 1, lift at 1. rewrite Ht.
  unfold bind at 1, lift at 1. rewrite Hp.
  unfold bind at 1, lift at 1. rewrite Hc.
  unfold bind at 1, lift at 1. fold (checked_due due). rewrite Hd.
  destruct (get_next_id_ok w l H0 Hl) as (w1 & E1 & Hq1).
  unfold bind at 1. rewrite E1.
  unfold bind at 1, utcnow at 1. fold (tick w1).
  unfold bind at 1, lift at 1.
  rewrite (Task_init_validated ttl category) by assumption.
  destruct Hq1 as (q1 & q2 & q3 & q4 & q5).
  assert (H1 : failures (plan (tick w1)) = O) by (cbn; lia).
  assert (Hl1 : stored_tasks (disk (tick w1) TODOS_FILE) = Some l)
    by (cbn; now rewrite q1).
  destruct (load_tasks_ok _ l H1 Hl1) as (w2 & E2 & Hq2).
  unfold bind at 1. rewrite E2.
  pose proof (quiet_no_failure _ _ Hq2 H1) as H2.
  rewrite q2, q3. fold t.
  destruct (save_tasks_ok (l ++ [to_dict t]) w2 H2) as (w3 & E3 & Hd3 & _ & Hk3).
  unfold bind at 1. rewrite E3. unfold ret. cbn [id].
  exists w3. split; [reflexivity|]. split; [exact Hd3|].
  destruct Hk3 as (_ & _ & _ & _ & Hf). lia.
Qed.

(** X12: with a readable store, no system call failing and every
    argument accepted by its validator, [add_task] succeeds: the new
    task carries the next id, the validated title and category, the
    priority that was read, status "pending", [completed] false, the
    clock reading as [created_at] and no [updated_at]; its dictionary
    is the payload and is appended behind the stored records, where a
    search for its id finds it, and it reads back as the same task. *)
Theorem add_task_appends
    (ttl priority category : string) (due due' : option string) (w : world)
    (l : list task_dict) (vt vc : string) (p : Priority) :
  failures (plan w) = O ->
  stored_tasks (disk w TODOS_FILE) = Some l ->
  validate_title ttl = Ok vt ->
  Priority_from_string priority = Ok p ->
  validate_category category = Ok vc ->
  checked_due due = Ok due' ->
  let t := mk_Task (next_id l) vt p vc PENDING false
             (stamp (clock w (ticks w))) None None due' in
  exists w',
    add_task ttl priority category due w
    = (Ok (success_result
             ("Task #" ++ PyStr.of_Z (next_id l) ++ " added successfully")
             (Some (PTask (to_dict t)))), w')
    /\ disk w' TODOS_FILE = Some (Tasks (l ++ [to_dict t]))
    /\ first_with_id (next_id l) (l ++ [to_dict t]) = Some (to_dict t)
    /\ from_dict (to_dict t) = Ok t.
Proof.
  intros H0 Hl Ht Hp Hc Hd t.
  destruct (add_task_ok ttl priority category due due' w l vt vc p
              H0 Hl Ht Hp Hc Hd) as (w' & E & Hw & _).
  exists w'. split; [exact E|]. split; [exact Hw|]. split.
  - apply (first_with_id_app_new l (to_dict t)).
    intros x Hx. pose proof (next_id_above l x Hx). cbn. lia.
  - unfold from_dict, to_dict. cbn [d_id d_title d_priority d_category d_status
      d_completed d_created_at d_updated_at d_completed_at d_due_date
      id title Models.priority Models.category status completed created_at
      updated_at completed_at due_date t].
    apply (Task_init_validated ttl category); assumption.
Qed.

Lemma add_task_appends_witness :
  let w := world_with [milk; chore] in
  let t := mk_Task (next_id [milk; chore]) "Pay rent" HIGH "general" PENDING
             false (stamp (clock w (ticks w))) None None
             (Some "2025-02-01T00:00:00") in
  exists w',
    add_task "  Pay rent " "High" "  " (Some "2025-02-01") w
    = (Ok (success_result
             ("Task #" ++ PyStr.of_Z (next_id [milk; chore])
              ++ " added successfully")
             (Some (PTask (to_dict t)))), w')
    /\ disk w' TODOS_FILE = Some (Tasks ([milk; chore] ++ [to_dict t]))
    /\ first_with_id (next_id [milk; chore]) ([milk; chore] ++ [to_dict t])
       = Some (to_dict t)
    /\ from_dict (to_dict t) = Ok t.
Proof.
  apply (add_task_appends "  Pay rent " "High" "  " (Some "2025-02-01")
           (Some "2025-02-01T00:00:00") (world_with [milk; chore])
           [milk; chore] "Pay rent" "general" HIGH); reflexivity.
Defined.

(** X13: asking [delete_task] without [force] changes nothing: no file,
    not the clock, not the console.  It answers with the stored record
    behind "Confirmation required" when a task has the id, and with
    TASK_NOT_FOUND when the store can be read and none has. *)
Theorem delete_without_force_changes_nothing (task_id : Z) (w : world) :
  let r := fst (Skills.delete_task task_id false w) in
  let w' := snd (Skills.delete_task task_id false w) in
  disk w' = disk w /\ clock w' = clock w /\ ticks w' = ticks w
  /\ stdout w' = stdout w
  /\ exists res,
       r = Ok res
       /\ (forall l, failures (plan w) = O ->
             stored_tasks (disk w TODOS_FILE) = Some l ->
             match first_with_id task_id l with
             | Some d =>
                 res = mk_result true "Confirmation required"
                         (Some (PConfirm d)) None None
             | None => res = not_found task_id
             end).
Proof.
  intros r w'. subst r w'. unfold Skills.delete_task, try_except, bind.
  pose proof (find_task_by_id_spec task_id w) as H. unfold wp in H.
  destruct (find_task_by_id task_id w) as [[o | e] w1]; cbn [fst snd] in H.
  - destruct H as ((q1 & q2 & q3 & q4 & q5) & l & Hl & ->).
    destruct (first_with_id task_id l) as [d|] eqn:Hf; cbn [negb ret fst snd];
      (repeat (split; [assumption|])); eexists; (split; [reflexivity|]);
      intros l' _ Hl'; rewrite Hl in Hl'; injection Hl' as <-; now rewrite Hf.
  - destruct H as ((q1 & q2 & q3 & q4 & q5) & Hk & Hfail).
    destruct (on_error_spec false e w1) as (err & code & E). rewrite E.
    cbn [fst snd]. repeat (split; [assumption|]). eexists. split; [reflexivity|].
    intros l H0 Hl. destruct Hfail as [Hf | Hf]; [lia | congruence].
Qed.

Lemma forced_delete_ok
    (task_id : Z) (w : world) (l : list task_dict) (d : task_dict) :
  failures (plan w) = O ->
  stored_tasks (disk w TODOS_FILE) = Some l ->
  first_with_id task_id l = Some d ->
  exists w',
    Skills.delete_task task_id true w
    = (Ok (success_result
             ("Task #" ++ PyStr.of_Z task_id ++ " deleted: "
              ++ dquote ++ d_title d ++ dquote)
             (Some (PDeleted d))), w')
    /\ disk w' TODOS_FILE
       = Some (Tasks (filter (fun t => negb (d_id t =? task_id)) l))
    /\ disk w' (backup_path (clock w (ticks w))) = Some (Tasks l)
    /\ (forall q, q <> TODOS_FILE -> q <> TEMP_FILE ->
          q <> backup_path (clock w (ticks w)) -> disk w' q = disk w q)
    /\ stdout w'
       = (stdout w
          ++ [("Backup created: " ++ backup_path (clock w (ticks w)))%string])%list
    /\ failures (plan w') = O.
Proof.
  intros H0 Hl Hf.
  assert (Hc : disk w TODOS_FILE = Some (Tasks l)).
  { destruct (disk w TODOS_FILE) as [[l0 | |]|]; cbn in Hl; try discriminate.
    - congruence.
    - injection Hl as <-. discriminate Hf. }
  destruct (find_task_by_id_ok task_id w l H0 Hl) as (w1 & E1 & Hq1).
  unfold Skills.delete_task, try_except. unfold bind at 1. rewrite E1, Hf.
  cbn [negb].
  pose proof (quiet_no_failure _ _ Hq1 H0) as H1.
  destruct Hq1 as (q1 & q2 & q3 & q4 & q5).
  assert (Hc1 : disk w1 TODOS_FILE = Some (Tasks l)) by now rewrite q1.
  destruct (backup_tasks_ok (Tasks l) w1 H1 Hc1)
    as (w2 & E2 & Hp2 & Ho2 & Hout2 & Hclk2 & Htk2 & H2).
  unfold bind at 1. rewrite E2. rewrite q2, q3 in *.
  set (path := backup_path (clock w (ticks w))) in *.
  assert (Hpath : path <> TODOS_FILE /\ path <> TEMP_FILE)
    by apply backup_path_is_not_the_store.
  assert (Htruthy : truthy path = true) by reflexivity.
  rewrite Htruthy. unfold bind at 1, print at 1.
  set (w3 := mk_world (disk w2) (plan w2) (clock w2) (ticks w2)
               (stdout w2 ++ ["Backup created: " ++ path])).
  assert (Hl3 : stored_tasks (disk w3 TODOS_FILE) = Some l).
  { cbn. rewrite Ho2 by (intros E; symmetry in E; destruct Hpath; contradiction).
    now rewrite Hc1. }
  destruct (delete_task_ok task_id w3 l d H2 Hl3 Hf)
    as (w4 & E4 & Hd4 & Ho4 & Hout4 & _ & _ & H4).
  unfold bind at 1. rewrite E4. unfold ret.
  exists w4. split; [reflexivity|]. split; [exact Hd4|]. split; [|split; [|split]].
  - rewrite Ho4 by apply Hpath. exact Hp2.
  - intros q N1 N2 N3. rewrite Ho4 by assumption. cbn [w3 disk].
    rewrite Ho2 by assumption. now rewrite q1.
  - rewrite Hout4. cbn. now rewrite Hout2, q4.
  - exact H4.
Qed.

(** X14: a forced [delete_task] of a stored task, no system call
    failing, first copies the store to "todos.backup.<timestamp>.json"
    and says so on the console, then removes the records with the id:
    what was deleted can still be read from the backup. *)
Theorem forced_delete_keeps_a_backup
    (task_id : Z) (w : world) (l : list task_dict) (d : task_dict) :
  failures (plan w) = O ->
  stored_tasks (disk w TODOS_FILE) = Some l ->
  first_with_id task_id l = Some d ->
  let path := BACKUP_PREFIX ++ "." ++ backup_timestamp (clock w (ticks w))
              ++ ".json" in
  exists w',
    Skills.delete_task task_id true w
    = (Ok (success_result
             ("Task #" ++ PyStr.of_Z task_id ++ " deleted: "
              ++ dquote ++ d_title d ++ dquote)
             (Some (PDeleted d))), w')
    /\ disk w' TODOS_FILE
       = Some (Tasks (filter (fun t => negb (d_id t =? task_id)) l))
    /\ disk w' path = Some (Tasks l)
    /\ In d l /\ ~ In d (filter (fun t => negb (d_id t =? task_id)) l)
    /\ stdout w' = (stdout w ++ [("Backup created: " ++ path)%string])%list.
Proof.
  intros H0 Hl Hf path.
  destruct (forced_delete_ok task_id w l d H0 Hl Hf)
    as (w' & E & Hd & Hb & _ & Hout & _).
  exists w'. split; [exact E|]. split; [exact Hd|]. split; [exact Hb|].
  destruct (first_with_id_split _ _ _ Hf) as (pre & post & -> & _ & Hid & _).
  split; [apply in_or_app; right; now left|].
  split; [|exact Hout].
  intros Hin. apply filter_In in Hin. destruct Hin as (_ & Hn).
  rewrite Hid, Z.eqb_refl in Hn. discriminate Hn.
Qed.

Lemma forced_delete_keeps_a_backup_witness :
  let w := world_with [milk; chore] in
  let path := BACKUP_PREFIX ++ "." ++ backup_timestamp (clock w (ticks w))
              ++ ".json" in
  exists w',
    Skills.delete_task 2 true w
    = (Ok (success_result
             ("Task #" ++ PyStr.of_Z 2 ++ " deleted: "
              ++ dquote ++ d_title chore ++ dquote)
             (Some (PDeleted chore))), w')
    /\ disk w' TODOS_FILE
       = Some (Tasks (filter (fun t => negb (d_id t =? 2)) [milk; chore]))
    /\ disk w' path = Some (Tasks [milk; chore])
    /\ In chore [milk; chore]
    /\ ~ In chore (filter (fun t => negb (d_id t =? 2)) [milk; chore])
    /\ stdout w' = (stdout w ++ [("Backup created: " ++ path)%string])%list.
Proof.
  apply (forced_delete_keeps_a_backup 2 (world_with [milk; chore])
           [milk; chore] chore); reflexivity.
Defined.

Lemma filter_appended (l : list task_dict) (d : task_dict) :
  (forall t, In t l -> d_id t <> d_id d) ->
  filter (fun t => negb (d_id t =? d_id d)) (l ++ [d]) = l.
Proof.
  intros H. rewrite filter_app. cbn [filter]. rewrite Z.eqb_refl. cbn [negb].
  rewrite app_nil_r. induction l as [|x rest IH]; [reflexivity|].
  cbn [filter]. destruct (Z.eqb_spec (d_id x) (d_id d)) as [E | N].
  - exfalso. apply (H x); [now left | exact E].
  - cbn [negb]. rewrite IH; [reflexivity|]. intros t Ht. apply H. now right.
Qed.

(** X29: deleting what was just added gives the store back.  With a
    readable store, no system call failing and arguments that their
    validators accept, [add_task] followed by a forced [delete_task]
    of the id it returned both succeed and leave the store holding
    exactly the records it held before, in their order. *)
Theorem add_then_delete_restores_the_store
    (ttl priority category : string) (due due' : option string) (w : world)
    (l : list task_dict) (vt vc : string) (p : Priority) :
  failures (plan w) = O ->
  stored_tasks (disk w TODOS_FILE) = Some l ->
  validate_title ttl = Ok vt ->
  Priority_from_string priority = Ok p ->
  validate_category category = Ok vc ->
  checked_due due = Ok due' ->
  exists r1 w1 r2 w2,
    add_task ttl priority category due w = (Ok r1, w1)
    /\ success r1 = true
    /\ (exists d, data r1 = Some (PTask d) /\ d_id d = next_id l)
    /\ Skills.delete_task (next_id l) true w1 = (Ok r2, w2)
    /\ success r2 = true
    /\ disk w2 TODOS_FILE = Some (Tasks l).
Proof.
  intros H0 Hl Ht Hp Hc Hd.
  destruct (add_task_ok ttl priority category due due' w l vt vc p
              H0 Hl Ht Hp Hc Hd) as (w1 & E1 & Hw1 & H1).
  set (t := mk_Task (next_id l) vt p vc PENDING false
              (stamp (clock w (ticks w))) None None due') in *.
  assert (Hnew : forall x, In x l -> d_id x <> d_id (to_dict t)).
  { intros x Hx. pose proof (next_id_above l x Hx). cbn. lia. }
  assert (Hl1 : stored_tasks (disk w1 TODOS_FILE) = Some (l ++ [to_dict t])%list)
    by now rewrite Hw1.
  destruct (forced_delete_ok (next_id l) w1 _ (to_dict t) H1 Hl1
              (first_with_id_app_new l (to_dict t) Hnew))
    as (w2 & E2 & Hw2 & _).
  eexists _, w1, _, w2. split; [exact E1|]. split; [reflexivity|].
  split; [eexists; split; reflexivity|].
  split; [exact E2|]. split; [reflexivity|].
  rewrite Hw2. do 2 f_equal. apply (filter_appended l (to_dict t) Hnew).
Qed.

Lemma add_then_delete_restores_the_store_witness :
  exists r1 w1 r2 w2,
    add_task "Pay rent" "high" "home" None (world_with [milk; chore])
    = (Ok r1, w1)
    /\ success r1 = true
    /\ (exists d, data r1 = Some (PTask d) /\ d_id d = next_id [milk; chore])
    /\ Skills.delete_task (next_id [milk; chore]) true w1 = (Ok r2, w2)
    /\ success r2 = true
    /\ disk w2 TODOS_FILE = Some (Tasks [milk; chore]).
Proof.
  apply (add_then_delete_restores_the_store "Pay rent" "high" "home" None None
           (world_with [milk; chore]) [milk; chore] "Pay rent" "home" HIGH);
    reflexivity.
Defined.

End AddAndRemove.

(** ** Overdue tasks and the calls that only ask *)

Section Queries.
Import PyStr PyDatetime Models World Storage Skills PySort.

Lemma only_clock_refl w : only_clock w w.
Proof. repeat split; auto. Qed.

Lemma only_clock_trans w1 w2 w3 :
  only_clock w1 w2 -> only_clock w2 w3 -> only_clock w1 w3.
Proof.
  intros (a & b & c & d & e) (a' & b' & c' & d' & e').
  repeat split; try congruence. lia.
Qed.

Lemma only_clock_tick w : only_clock w (tick w).
Proof. repeat split; auto. cbn. lia. Qed.

Lemma parse_due_truthy d due : parse_due d = Some due -> truthy d = true.
Proof. destruct d; [discriminate | reflexivity]. Qed.

Lemma is_overdue_run (t : Task) (w : world) :
  exists b w',
    is_overdue t w = (Ok b, w') /\ only_clock w w'
    /\ (b = true <-> past_due (clock w (ticks w)) t).
Proof.
  unfold is_overdue, past_due.
  destruct (due_date t) as [d|] eqn:Ed.
  2: { exists false, w. split; [reflexivity|]. split; [apply only_clock_refl|].
       split; [discriminate|]. intros (_ & d & due & H & _). discriminate H. }
  destruct (truthy d) eqn:Et; cbn [negb orb].
  2: { exists false, w. split; [reflexivity|]. split; [apply only_clock_refl|].
       split; [discriminate|]. intros (_ & d' & due & H & Hp & _).
       injection H as <-. apply parse_due_truthy in Hp. congruence. }
  destruct (completed t) eqn:Ec.
  { exists false, w. split; [reflexivity|]. split; [apply only_clock_refl|].
    split; [discriminate|]. intros (H & _). discriminate H. }
  destruct (parse_due d) as [due|] eqn:Ep.
  2: { exists false, w. split; [reflexivity|]. split; [apply only_clock_refl|].
       split; [discriminate|]. intros (_ & d' & due & H & Hp & _). congruence. }
  exists (naive_us due <? naive_us (clock w (ticks w))), (tick w).
  split; [reflexivity|]. split; [apply only_clock_tick|].
  rewrite Z.ltb_lt. split.
  - intros H. split; [reflexivity|]. exists d, due. auto.
  - intros (_ & d' & due' & H & Hp & Hlt). congruence.
Qed.

Lemma days_until_due_run (t : Task) (w : world) :
  exists o w',
    days_until_due t w = (Ok o, w') /\ only_clock w w'
    /\ forall d due, due_date t = Some d -> parse_due d = Some due ->
         o = Some (sub_days due (clock w (ticks w))).
Proof.
  unfold days_until_due.
  destruct (due_date t) as [d|] eqn:Ed.
  2: { exists None, w. split; [reflexivity|]. split; [apply only_clock_refl|].
       discriminate. }
  destruct (truthy d) eqn:Et; cbn [negb].
  2: { exists None, w. split; [reflexivity|]. split; [apply only_clock_refl|].
       intros d' due H Hp. injection H as <-. apply parse_due_truthy in Hp.
       congruence. }
  destruct (parse_due d) as [due|] eqn:Ep.
  2: { exists None, w. split; [reflexivity|]. split; [apply only_clock_refl|].
       intros d' due H Hp. congruence. }
  exists (Some (sub_days due (clock w (ticks w)))), (tick w).
  split; [reflexivity|]. split; [apply only_clock_tick|].
  intros d' due' H Hp. congruence.
Qed.

Lemma sub_days_negative (due now : datetime) :
  naive_us due < naive_us now -> sub_days due now < 0.
Proof.
  intros H. unfold sub_days. apply Z.div_lt_upper_bound; [reflexivity | lia].
Qed.

(** X15: [is_overdue] answers [True] exactly for a task that is not
    completed and whose due date parses and, taken as it is written,
    is before the clock reading: the two are compared as wall-clock
    readings, and an offset in the due date is dropped, not applied.
    It never raises and touches nothing but the clock.  Such a task
    has a negative [days_until_due] and is never among the upcoming
    ones, however wide the window. *)
Theorem overdue_is_past_due_and_never_upcoming (t : Task) (w : world) :
  (fst (is_overdue t w) = Ok true <-> past_due (clock w (ticks w)) t)
  /\ (exists b, fst (is_overdue t w) = Ok b)
  /\ disk (snd (is_overdue t w)) = disk w
  /\ (past_due (clock w (ticks w)) t ->
      (exists n, fst (days_until_due t w) = Ok (Some n) /\ n < 0)
      /\ forall days, is_upcoming (clock w (ticks w)) days t = false).
Proof.
  destruct (is_overdue_run t w) as (b & w' & E & Hk & Hb).
  rewrite E. cbn [fst snd]. split; [|split; [eauto|split; [apply Hk|]]].
  - rewrite <- Hb. split; [intros H; now injection H | now intros ->].
  - intros (Hc & d & due & Hd & Hp & Hlt).
    pose proof (sub_days_negative _ _ Hlt) as Hneg. split.
    + destruct (days_until_due_run t w) as (o & w1 & E1 & _ & Ho).
      rewrite E1, (Ho d due Hd Hp). cbn. eauto.
    + intros days. unfold is_upcoming. rewrite Hd, Hc, Hp.
      rewrite (parse_due_truthy _ _ Hp). cbn [negb orb].
      apply andb_false_iff. left. apply Z.leb_gt. exact Hneg.
Qed.

(** The offset of a due date is not applied: at 10:00 on the clock a
    task due at "12:00+05:00", which is 07:00 UTC, is not overdue and
    has zero days left, and one due at "08:00-05:00", which is 13:00
    UTC, is overdue. *)
Example offset_of_a_due_date_is_dropped :
  let due_at d := mk_Task 9 "Call" MEDIUM "general" PENDING false
                    "2025-01-10T09:00:00Z" None None (Some d) in
  let w := world_with [] in
  fst (is_overdue (due_at "2025-01-15T12:00:00+05:00") w) = Ok false
  /\ fst (days_until_due (due_at "2025-01-15T12:00:00+05:00") w) = Ok (Some 0)
  /\ fst (is_overdue (due_at "2025-01-15T08:00:00-05:00") w) = Ok true.
Proof. vm_compute. repeat split; reflexivity. Qed.

Lemma filterM_only_clock {A} (p : A -> M bool) (P : world -> A -> Prop) :
  (forall x w, exists b w',
      p x w = (Ok b, w') /\ only_clock w w' /\ (b = true -> P w x)) ->
  (forall x w w', only_clock w w' -> P w' x -> P w x) ->
  forall l w, exists l' w',
    filterM p l w = (Ok l', w') /\ only_clock w w'
    /\ forall x, In x l' -> In x l /\ P w x.
Proof.
  intros Hp Hmono.
  induction l as [|x rest IH]; intros w; cbn [filterM].
  - exists [], w. split; [reflexivity|]. split; [apply only_clock_refl|].
    intros x [].
  - destruct (Hp x w) as (b & w1 & E & K & HP).
    destruct (IH w1) as (l' & w2 & E2 & K2 & Hin).
    unfold bind. rewrite E, E2. unfold ret.
    exists (if b then x :: l' else l'), w2. split; [reflexivity|].
    split; [eapply only_clock_trans; eauto|].
    intros y Hy. destruct b.
    + destruct Hy as [<- | Hy]; [split; [now left | auto]|].
      destruct (Hin y Hy). split; [now right | eauto].
    + destruct (Hin y Hy). split; [now right | eauto].
Qed.

Lemma mapM_only_clock {A B} (f : A -> M B) (R : A -> B -> Prop) :
  (forall x w, exists y w', f x w = (Ok y, w') /\ only_clock w w' /\ R x y) ->
  forall l w, exists ys w',
    mapM f l w = (Ok ys, w') /\ only_clock w w' /\ Forall2 R l ys.
Proof.
  intros Hf. induction l as [|x rest IH]; intros w; cbn [mapM].
  - exists [], w. split; [reflexivity|]. split; [apply only_clock_refl | constructor].
  - destruct (Hf x w) as (y & w1 & E & K & HR).
    destruct (IH w1) as (ys & w2 & E2 & K2 & HF).
    unfold bind. rewrite E, E2. unfold ret.
    exists (y :: ys), w2. split; [reflexivity|].
    split; [eapply only_clock_trans; eauto | now constructor].
Qed.

(** What a task kept by an overdue-only filter looks like. *)
Lemma matches_run (f : TaskFilter) (t : Task) (w : world) :
  exists b w',
    matches f t w = (Ok b, w') /\ only_clock w w'
    /\ (b = true ->
        static_match f t = true
        /\ (f_overdue_only f = true ->
            completed t = false /\ due_date t <> None)).
Proof.
  unfold matches, static_match.
  destruct (match f_status f with
            | Some s => negb (Status_eqb (status t) s) | None => false end).
  { exists false, w. split; [reflexivity|]. split; [apply only_clock_refl|discriminate]. }
  destruct (match f_priority f with
            | Some p => negb (Priority_eqb (priority t) p) | None => false end).
  { exists false, w. split; [reflexivity|]. split; [apply only_clock_refl|discriminate]. }
  destruct (match f_category f with
            | Some c => truthy c && negb (String.eqb (category t) c)
            | None => false end).
  { exists false, w. split; [reflexivity|]. split; [apply only_clock_refl|discriminate]. }
  destruct (match f_completed f with
            | Some b => negb (Bool.eqb (completed t) b) | None => false end).
  { exists false, w. split; [reflexivity|]. split; [apply only_clock_refl|discriminate]. }
  destruct (f_overdue_only f).
  - destruct (is_overdue_run t w) as (b & w' & E & K & Hb).
    unfold bind. rewrite E. unfold ret. exists b, w'.
    split; [reflexivity|]. split; [exact K|].
    intros Hb'. split; [reflexivity|]. intros _.
    apply Hb in Hb'. destruct Hb' as (Hc & d & due & Hd & _).
    split; [exact Hc | congruence].
  - exists true, w. split; [reflexivity|]. split; [apply only_clock_refl|].
    intros _. split; [reflexivity | discriminate].
Qed.

Lemma map_outcome_length {A B} (f : A -> outcome B) (l : list A) (ys : list B) :
  map_outcome f l = Ok ys -> List.length ys = List.length l.
Proof.
  revert ys. induction l as [|x rest IH]; intros ys; cbn [map_outcome].
  - intros H. injection H as <-. reflexivity.
  - destruct (f x) as [y|]; [|discriminate]. cbn [obind].
    destruct (map_outcome f rest) as [ys'|]; [|discriminate]. cbn [obind].
    intros H. injection H as <-. cbn. now rewrite (IH ys').
Qed.

Lemma map_snd_combine {A B} (xs : list A) (ys : list B) :
  List.length xs = List.length ys -> map snd (combine xs ys) = ys.
Proof.
  revert ys. induction xs as [|x xs IH]; intros [|y ys]; cbn; try discriminate;
    auto. intros H. injection H as H. now rewrite IH.
Qed.

Lemma sort_keyed_perm {A} (reverse : bool) (l : list (pyval * A)) (l' : list A) :
  sort_keyed reverse l = Ok l' -> Permutation l' (map snd l).
Proof.
  unfold sort_keyed.
  destruct ((2 <=? List.length l)%nat && negb (orderable (map fst l)));
    [discriminate|].
  intros H. injection H as <-. apply Permutation_map, stable_sort_perm.
Qed.

Lemma sort_tasks_perm sort_by reverse (l l' : list Task) :
  sort_tasks sort_by reverse l = Ok l' -> Permutation l' l.
Proof.
  unfold sort_tasks.
  destruct (map_outcome (sort_key sort_by) l) as [keys|] eqn:E; [|discriminate].
  cbn [obind]. intros H. apply sort_keyed_perm in H.
  now rewrite map_snd_combine in H by (eapply map_outcome_length; eauto).
Qed.

Lemma sort_step_run sort_by reverse (l : list Task) w :
  exists r, sort_step sort_by reverse l w = (r, w)
            /\ forall l', r = Ok l' -> Permutation l' l.
Proof.
  unfold sort_step, try_except, lift.
  destruct (sort_tasks sort_by reverse l) as [l1 | e] eqn:E.
  - eexists. split; [reflexivity|]. intros l' H. injection H as <-.
    eapply sort_tasks_perm; eauto.
  - destruct (isinstance e AttributeError); eexists; (split; [reflexivity|]);
      intros l' H; [injection H as <-; reflexivity | discriminate].
Qed.

Lemma apply_limit_in limit (l : list Task) t :
  In t (apply_limit limit l) -> In t l.
Proof.
  unfold apply_limit. destruct limit as [n|]; [|auto].
  destruct (negb (n =? 0) && (0 <? n)); [|auto].
  intros H. rewrite <- (firstn_skipn (Z.to_nat n) l). apply in_or_app. now left.
Qed.

Lemma apply_limit_length n (l : list Task) :
  0 < n -> Z.of_nat (List.length (apply_limit (Some n) l)) <= n.
Proof.
  intros H. unfold apply_limit.
  assert (E : negb (n =? 0) && (0 <? n) = true).
  { apply andb_true_iff. split; [apply negb_true_iff, Z.eqb_neq | apply Z.ltb_lt]; lia. }
  rewrite E. pose proof (firstn_le_length (Z.to_nat n) l). lia.
Qed.

Lemma selective_true (a : option string) (s : string) :
  a = Some s -> s <> "" -> s <> "all" -> selective a = true.
Proof.
  intros -> H1 H2. unfold selective. destruct s as [|a s]; [congruence|].
  cbn [truthy andb]. apply negb_true_iff, String.eqb_neq. exact H2.
Qed.

Lemma Status_eqb_eq a b : Status_eqb a b = true -> a = b.
Proof. destruct a, b; cbn; congruence. Qed.

Lemma Priority_eqb_eq a b : Priority_eqb a b = true -> a = b.
Proof. destruct a, b; cbn; congruence. Qed.

(** What the criteria of [list_tasks] ask of a task that its filter
    lets through. *)
Lemma build_filter_criteria st priority category done overdue f t :
  build_filter st priority category done overdue = Ok f ->
  static_match f t = true ->
  (forall s, st = Some s -> s <> "" -> s <> "all" ->
     Status_from_string s = Ok (status t))
  /\ (forall p, priority = Some p -> p <> "" -> p <> "all" ->
        Priority_from_string p = Ok (Models.priority t))
  /\ (forall c, category = Some c -> c <> "" -> c <> "all" ->
        Models.category t = c)
  /\ (forall b, done = Some b -> completed t = b).
Proof.
  unfold build_filter, static_match. intros Hb Hm.
  destruct (match st with
            | Some s => if selective st
                        then let? x := Status_from_string s in Ok (Some x)
                        else Ok None
            | None => Ok None
            end) as [fs|] eqn:Es; [|discriminate].
  cbn [obind] in Hb.
  destruct (match priority with
            | Some p => if selective priority
                        then let? x := Priority_from_string p in Ok (Some x)
                        else Ok None
            | None => Ok None
            end) as [fp|] eqn:Ep; [|discriminate].
  cbn [obind] in Hb. injection Hb as <-.
  cbn [f_status f_priority f_category f_completed] in Hm.
  apply andb_true_iff in Hm. destruct Hm as (Hm & H4).
  apply andb_true_iff in Hm. destruct Hm as (Hm & H3).
  apply andb_true_iff in Hm. destruct Hm as (H1 & H2).
  apply negb_true_iff in H1, H2, H3, H4.
  split; [|split; [|split]].
  - intros s -> Hs1 Hs2.
    rewrite (selective_true (Some s) s eq_refl Hs1 Hs2) in Es.
    destruct (Status_from_string s) as [x|]; [|discriminate].
    cbn [obind] in Es. injection Es as <-.
    apply negb_false_iff, Status_eqb_eq in H1. now subst.
  - intros p -> Hp1 Hp2.
    rewrite (selective_true (Some p) p eq_refl Hp1 Hp2) in Ep.
    destruct (Priority_from_string p) as [x|]; [|discriminate].
    cbn [obind] in Ep. injection Ep as <-.
    apply negb_false_iff, Priority_eqb_eq in H2. now subst.
  - intros c -> Hc1 Hc2.
    rewrite (selective_true (Some c) c eq_refl Hc1 Hc2) in H3.
    assert (Ht : truthy c = true) by (destruct c; [congruence | reflexivity]).
    rewrite Ht in H3. cbn [andb] in H3.
    apply negb_false_iff, String.eqb_eq in H3. exact H3.
  - intros b ->. apply negb_false_iff in H4. now apply Bool.eqb_prop.
Qed.

Lemma list_tasks_run st priority category done overdue sort_by sort_order
    limit fmt w :
  wp (list_tasks st priority category done overdue sort_by sort_order limit fmt)
    (listing_post st priority category done overdue limit fmt w) w.
Proof.
  unfold list_tasks, list_tasks_with.
  assert (Hfail : forall w1 err code,
            disk w1 = disk w -> stdout w1 = stdout w ->
            listing_post st priority category done overdue limit fmt w
              (Ok (error_result err code)) w1).
  { intros w1 err code Hd Ho. split; [exact Hd|]. split; [exact Ho|].
    intros res H Hs. injection H as <-. discriminate Hs. }
  apply wp_on_error.
  eapply wp_bind_spec; [apply load_tasks_spec | |].
  2: { intros e w1 ((q1 & _ & _ & q4 & _) & _) err code. now apply Hfail. }
  intros ds w1 ((q1 & _ & _ & q4 & _) & Hds).
  apply wp_lift_bind.
  destruct (map_outcome from_dict ds) as [ts | e] eqn:Ets;
    [|intros; now apply Hfail].
  apply wp_lift_bind.
  destruct (build_filter st priority category done overdue) as [f | e] eqn:Ef;
    [|intros; now apply Hfail].
  destruct (filterM_only_clock (matches f)
              (fun _ t => static_match f t = true
                          /\ (f_overdue_only f = true ->
                              completed t = false /\ due_date t <> None))
              (matches_run f) (fun _ _ _ _ H => H) ts w1)
    as (l1 & w2 & E2 & (k1 & _ & _ & k4 & _) & Hin).
  apply wp_bind. unfold wp at 1. rewrite E2. cbn [fst snd].
  destruct (sort_step_run sort_by (String.eqb sort_order "desc") l1 w2)
    as (r & E3 & Hperm).
  apply wp_bind. unfold wp at 1. rewrite E3. cbn [fst snd].
  destruct r as [l2 | e]; [|intros; apply Hfail; congruence].
  apply wp_ret. split; [congruence|]. split; [congruence|].
  intros res H _. injection H as <-.
  exists ds, ts, f, l2. repeat split; auto.
  - apply (Hin t). eapply Permutation_in; [apply (Hperm l2 eq_refl)|]. exact H.
  - apply (Hin t). eapply Permutation_in; [apply (Hperm l2 eq_refl)|]. exact H.
  - apply (Hin t); [eapply Permutation_in; [apply (Hperm l2 eq_refl)|]; exact H|].
    erewrite build_filter_overdue; eauto.
  - apply (Hin t); [eapply Permutation_in; [apply (Hperm l2 eq_refl)|]; exact H|].
    erewrite build_filter_overdue; eauto.
Qed.

(** X16: whatever [list_tasks] lists is a task of the store that meets
    every criterion that was given (a criterion that is empty or "all"
    is not one): it has the status, the priority, the category and the
    completed flag that were asked for, and with [overdue_only] it is
    open and has a due date.  With a positive limit no more than that
    many tasks are listed. *)
Theorem listing_is_sound
    (st priority category : option string) (done : option bool)
    (overdue : bool) (sort_by sort_order : string) (limit : option Z)
    (fmt : string) (w : world) (res : OperationResult) (w' : world) :
  list_tasks st priority category done overdue sort_by sort_order limit fmt w
  = (Ok res, w') ->
  success res = true ->
  exists ds ts l,
    stored_tasks (disk w TODOS_FILE) = Some ds
    /\ map_outcome from_dict ds = Ok ts
    /\ res = format_output fmt l
    /\ (forall n, limit = Some n -> 0 < n -> Z.of_nat (List.length l) <= n)
    /\ forall t, In t l ->
         In t ts
         /\ (forall s, st = Some s -> s <> "" -> s <> "all" ->
               Status_from_string s = Ok (status t))
         /\ (forall p, priority = Some p -> p <> "" -> p <> "all" ->
               Priority_from_string p = Ok (Models.priority t))
         /\ (forall c, category = Some c -> c <> "" -> c <> "all" ->
               Models.category t = c)
         /\ (forall b, done = Some b -> completed t = b)
         /\ (overdue = true -> completed t = false /\ due_date t <> None).
Proof.
  intros E Hs.
  pose proof (wp_run _ _ _ _ _
                (list_tasks_run st priority category done overdue sort_by
                   sort_order limit fmt w) E) as (_ & _ & H).
  destruct (H res eq_refl Hs) as (ds & ts & f & l & Hds & Hts & Hf & -> & Hin).
  exists ds, ts, (apply_limit limit l).
  split; [exact Hds|]. split; [exact Hts|]. split; [reflexivity|]. split.
  - intros n -> Hn. now apply apply_limit_length.
  - intros t Ht. apply apply_limit_in in Ht.
    destruct (Hin t Ht) as (H1 & H2 & H3).
    split; [exact H1|].
    destruct (build_filter_criteria _ _ _ _ _ _ t Hf H2) as (c1 & c2 & c3 & c4).
    repeat split; auto; apply H3; assumption.
Qed.

Lemma listing_is_sound_witness :
  let w := world_with [errand; chore; finished] in
  let run := list_tasks (Some "Pending") (Some "HIGH") (Some "work") (Some false)
               false "id" "desc" (Some 5) "json" w in
  exists ds ts l,
    stored_tasks (disk w TODOS_FILE) = Some ds
    /\ map_outcome from_dict ds = Ok ts
    /\ result_of run = format_output "json" l
    /\ (forall n, Some 5 = Some n -> 0 < n -> Z.of_nat (List.length l) <= n)
    /\ forall t, In t l ->
         In t ts
         /\ (forall s, Some "Pending" = Some s -> s <> "" -> s <> "all" ->
               Status_from_string s = Ok (status t))
         /\ (forall p, Some "HIGH" = Some p -> p <> "" -> p <> "all" ->
               Priority_from_string p = Ok (Models.priority t))
         /\ (forall c, Some "work" = Some c -> c <> "" -> c <> "all" ->
               Models.category t = c)
         /\ (forall b, Some false = Some b -> completed t = b)
         /\ (false = true -> completed t = false /\ due_date t <> None).
Proof.
  apply (listing_is_sound (Some "Pending") (Some "HIGH") (Some "work")
           (Some false) false "id" "desc" (Some 5) "json"
           (world_with [errand; chore; finished])
           (result_of (list_tasks (Some "Pending") (Some "HIGH") (Some "work")
                         (Some false) false "id" "desc" (Some 5) "json"
                         (world_with [errand; chore; finished])))
           (snd (list_tasks (Some "Pending") (Some "HIGH") (Some "work")
                   (Some false) false "id" "desc" (Some 5) "json"
                   (world_with [errand; chore; finished]))));
    reflexivity.
Defined.

Lemma StronglySorted_map_weaken {A B} (R : A -> A -> Prop) (R' : B -> B -> Prop)
    (I : A -> Prop) (f : A -> B) (l : list A) :
  (forall a b, I a -> I b -> R a b -> R' (f a) (f b)) ->
  Forall I l -> StronglySorted R l -> StronglySorted R' (map f l).
Proof.
  intros HR HI HS. induction HS as [|a l HS IH Hall]; cbn; constructor.
  - apply IH. now inversion HI.
  - inversion HI as [|? ? Ia Il]; subst.
    rewrite Forall_forall in *. intros y Hy. apply in_map_iff in Hy.
    destruct Hy as (x & <- & Hx). apply HR; auto.
Qed.

Lemma Forall2_combine {A B} (R : A -> B -> Prop) (l : list A) (ys : list B) :
  Forall2 R l ys -> Forall (fun p => R (snd p) (fst p)) (combine ys l).
Proof. induction 1; cbn; constructor; auto. Qed.

Lemma Forall2_length_eq {A B} (R : A -> B -> Prop) (l : list A) (ys : list B) :
  Forall2 R l ys -> List.length ys = List.length l.
Proof. induction 1; cbn; auto. Qed.

Lemma overdue_key_run (t : Task) (w : world) :
  exists k w',
    overdue_key t w = (Ok k, w') /\ only_clock w w'
    /\ fst k = priority_rank (priority t).
Proof.
  unfold overdue_key. destruct (days_until_due_run t w) as (o & w' & E & K & _).
  unfold bind. rewrite E. unfold ret. eexists _, w'.
  split; [reflexivity|]. split; [exact K | reflexivity].
Qed.

Lemma pair_ltb_false (a b : Z * Z) : pair_ltb b a = false -> fst a <= fst b.
Proof.
  unfold pair_ltb. intros H. apply orb_false_iff in H. destruct H as (H & _).
  apply Z.ltb_ge in H. exact H.
Qed.

Lemma pair_ltb_iff (a b : Z * Z) :
  pair_ltb a b = true <-> fst a < fst b \/ (fst a = fst b /\ snd a < snd b).
Proof.
  unfold pair_ltb. rewrite orb_true_iff, andb_true_iff, !Z.ltb_lt, Z.eqb_eq.
  reflexivity.
Qed.

(** [is_overdue] answers [True] only after a look at the clock. *)
Lemma is_overdue_reads_the_clock (t : Task) (w w' : world) :
  is_overdue t w = (Ok true, w') -> w' = tick w.
Proof.
  unfold is_overdue.
  destruct (due_date t) as [d|]; [|discriminate].
  destruct (negb (truthy d) || completed t); [discriminate|].
  destruct (parse_due d) as [due|]; [|discriminate].
  unfold bind, utcnow, ret, tick. intros H. now injection H.
Qed.

(** The filter of [get_overdue_tasks]: each task kept was past due at
    the reading taken for it. *)
Lemma filter_overdue_during (l : list Task) : forall w,
  exists l' w',
    filterM is_overdue l w = (Ok l', w') /\ only_clock w w'
    /\ forall t, In t l' -> In t l /\ past_due_during w w' t.
Proof.
  induction l as [|x rest IH]; intros w; cbn [filterM].
  - exists [], w. split; [reflexivity|]. split; [apply only_clock_refl|].
    intros t [].
  - destruct (is_overdue_run x w) as (b & w1 & E & K & Hb).
    destruct (IH w1) as (l' & w2 & E2 & K2 & Hin).
    unfold bind. rewrite E, E2. unfold ret.
    exists (if b then x :: l' else l'), w2. split; [reflexivity|].
    split; [eapply only_clock_trans; eauto|].
    assert (Hrest : forall t, In t l' -> In t (x :: rest) /\ past_due_during w w2 t).
    { intros t Ht. destruct (Hin t Ht) as (H1 & n & Hn & Hp).
      split; [now right|]. destruct K as (_ & _ & Hc & _ & Hk).
      exists n. split; [lia | now rewrite <- Hc]. }
    intros t Ht. destruct b; [|auto].
    destruct Ht as [<- | Ht]; [|auto].
    split; [now left|]. exists (ticks w).
    split; [|now apply Hb].
    rewrite (is_overdue_reads_the_clock _ _ _ E) in K2.
    destruct K2 as (_ & _ & _ & _ & Hk). cbn [tick ticks] in Hk. lia.
Qed.

Lemma get_overdue_tasks_run w : wp get_overdue_tasks (overdue_post w) w.
Proof.
  unfold get_overdue_tasks.
  assert (Hfail : forall w1 err code,
            disk w1 = disk w -> stdout w1 = stdout w ->
            overdue_post w (Ok (error_result err code)) w1).
  { intros w1 err code Hd Ho. split; [exact Hd|]. split; [exact Ho|].
    intros res H Hs. injection H as <-. discriminate Hs. }
  apply wp_on_error.
  eapply wp_bind_spec; [apply load_tasks_spec | |].
  2: { intros e w1 ((q1 & _ & _ & q4 & _) & _) err code. now apply Hfail. }
  intros ds w1 ((q1 & q2 & q3 & q4 & _) & Hds).
  apply wp_lift_bind.
  destruct (map_outcome from_dict ds) as [ts | e] eqn:Ets;
    [|intros; now apply Hfail].
  destruct (filter_overdue_during ts w1)
    as (l1 & w2 & E2 & (k1 & _ & _ & k4 & _) & Hin).
  apply wp_bind. unfold wp at 1. rewrite E2. cbn [fst snd].
  destruct (mapM_only_clock overdue_key
              (fun t k => fst k = priority_rank (priority t))
              overdue_key_run l1 w2)
    as (keys & w3 & E3 & (m1 & _ & _ & m4 & m5) & HF).
  apply wp_bind. unfold wp at 1. rewrite E3. cbn [fst snd].
  apply wp_ret. split; [congruence|]. split; [congruence|].
  intros res H _. injection H as <-.
  set (lt := fun a b : Z * Z * Task => pair_ltb (fst a) (fst b)).
  set (sorted := stable_sort lt (combine keys l1)).
  assert (Hperm : Permutation sorted (combine keys l1)) by apply stable_sort_perm.
  assert (Hinv : Forall (fun p => fst (fst p) = priority_rank (priority (snd p)))
                   sorted).
  { rewrite Forall_forall. intros p Hp.
    pose proof (Forall2_combine _ _ _ HF) as Hc. rewrite Forall_forall in Hc.
    apply (Hc p). eapply Permutation_in; eauto. }
  exists ds, ts, (map snd sorted).
  split; [exact Hds|]. split; [exact Ets|]. split; [reflexivity|]. split.
  - eapply StronglySorted_map_weaken; [|exact Hinv|apply stable_sort_sorted].
    + intros a b Ia Ib Hab. unfold not_after, lt in Hab.
      apply pair_ltb_false in Hab. rewrite <- Ia, <- Ib. exact Hab.
    + intros a b. unfold lt. rewrite pair_ltb_iff.
      intros H. apply not_true_iff_false. rewrite pair_ltb_iff. lia.
    + intros a b c. unfold not_after, lt.
      rewrite <- !not_true_iff_false, !pair_ltb_iff. lia.
  - intros t Ht.
    assert (Ht1 : In t l1).
    { apply (Permutation_in _ (Permutation_map snd Hperm)) in Ht.
      rewrite map_snd_combine in Ht by (eapply Forall2_length_eq; eauto).
      exact Ht. }
    destruct (Hin t Ht1) as (H1 & n & Hn & Hp). split; [exact H1|].
    exists n. split; [destruct q3; lia|]. now rewrite <- q2.
Qed.

(** X17: the overdue report comes in the order of the priorities, high
    before medium before low, and holds only tasks of the store that
    were open and past due at a reading of the clock taken during the
    call, after its start and before its end.  Past due is meant as
    [is_overdue] has it: the due date as written, its offset dropped,
    is before the reading. *)
Theorem overdue_tasks_come_by_priority
    (w : world) (res : OperationResult) (w' : world) :
  get_overdue_tasks w = (Ok res, w') ->
  success res = true ->
  exists ds ts l,
    stored_tasks (disk w TODOS_FILE) = Some ds
    /\ map_outcome from_dict ds = Ok ts
    /\ data res = Some (PTasks (map to_dict l))
    /\ StronglySorted
         (fun a b => priority_rank (priority a) <= priority_rank (priority b)) l
    /\ forall t, In t l ->
         In t ts
         /\ exists n, (ticks w <= n < ticks w')%nat /\ past_due (clock w n) t.
Proof.
  intros E Hs.
  pose proof (wp_run _ _ _ _ _ (get_overdue_tasks_run w) E) as (_ & _ & H).
  destruct (H res eq_refl Hs) as (ds & ts & l & Hds & Hts & -> & Hsorted & Hin).
  exists ds, ts, l. repeat split; auto; apply Hin; assumption.
Qed.

Lemma overdue_tasks_come_by_priority_witness :
  let w := tick (world_with [chore; errand; to_dict rent_task]) in
  let run := get_overdue_tasks w in
  exists ds ts l,
    stored_tasks (disk w TODOS_FILE) = Some ds
    /\ map_outcome from_dict ds = Ok ts
    /\ data (result_of run) = Some (PTasks (map to_dict l))
    /\ StronglySorted
         (fun a b => priority_rank (priority a) <= priority_rank (priority b)) l
    /\ forall t, In t l ->
         In t ts
         /\ exists n, (ticks w <= n < ticks (snd run))%nat
                      /\ past_due (clock w n) t.
Proof.
  apply (overdue_tasks_come_by_priority
           (tick (world_with [chore; errand; to_dict rent_task]))
           (result_of (get_overdue_tasks
                         (tick (world_with [chore; errand; to_dict rent_task]))))
           (snd (get_overdue_tasks
                   (tick (world_with [chore; errand; to_dict rent_task])))));
    reflexivity.
Defined.

(** The report of the example: the rent (high) before the plants (low);
    the errand is due later today. *)
Example overdue_report_order :
  listed_ids (fst (get_overdue_tasks
                     (tick (world_with [chore; errand; to_dict rent_task]))))
  = Some [7; 2].
Proof. reflexivity. Qed.

Lemma get_upcoming_tasks_frame days w :
  wp (get_upcoming_tasks days)
    (fun _ w' => disk w' = disk w /\ stdout w' = stdout w) w.
Proof.
  unfold get_upcoming_tasks. apply wp_on_error.
  eapply wp_bind_spec; [apply load_tasks_spec | |].
  2: { intros e w1 ((q1 & _ & _ & q4 & _) & _) err code. auto. }
  intros ds w1 ((q1 & _ & _ & q4 & _) & _).
  apply wp_lift_bind.
  destruct (map_outcome from_dict ds) as [ts | e]; [|intros; auto].
  apply wp_utcnow_bind. apply wp_ret. cbn. auto.
Qed.

Lemma delete_confirm_frame task_id w :
  wp (Skills.delete_task task_id false)
    (fun _ w' => disk w' = disk w /\ stdout w' = stdout w) w.
Proof.
  unfold Skills.delete_task. apply wp_on_error.
  eapply wp_bind_spec; [apply find_task_by_id_spec | |].
  2: { intros e w1 ((q1 & _ & _ & q4 & _) & _) err code. auto. }
  intros o w1 ((q1 & _ & _ & q4 & _) & _).
  destruct o as [d|]; cbn [negb]; apply wp_ret; auto.
Qed.

(** X18: the calls that only ask ([list_tasks], [get_upcoming_tasks],
    [get_overdue_tasks], and [delete_task] without [force]) change no
    file and print nothing, whatever the store holds and whichever
    system calls fail. *)
Theorem queries_change_no_file (c : call) (w : world) :
  is_query c = true ->
  disk (snd (run c w)) = disk w /\ stdout (snd (run c w)) = stdout w.
Proof.
  destruct c as [| | | i force | s p c d o sb so l f | | n |]; cbn [is_query run];
    try discriminate; intros Hq.
  - destruct force; [discriminate|]. apply (delete_confirm_frame i w).
  - pose proof (list_tasks_run s p c d o sb so l f w) as (H1 & H2 & _). auto.
  - apply (get_upcoming_tasks_frame n w).
  - pose proof (get_overdue_tasks_run w) as (H1 & H2 & _). auto.
Qed.

Lemma queries_change_no_file_witness :
  let c := ListTasks (Some "pending") None None None true "due_date" "asc"
             None "simple" in
  let w := with_plan [NoFault; Denied] (world_with [errand; chore]) in
  disk (snd (run c w)) = disk w /\ stdout (snd (run c w)) = stdout w.
Proof.
  apply (queries_change_no_file
           (ListTasks (Some "pending") None None None true "due_date" "asc"
              None "simple")
           (with_plan [NoFault; Denied] (world_with [errand; chore]))).
  reflexivity.
Defined.

End Queries.

(** ** Changing a stored task *)

Section Changes.
Import PyStr Models World Storage Skills.

Lemma from_dict_fields (d : task_dict) (t : Task) :
  from_dict d = Ok t ->
  id t = d_id d /\ completed t = d_completed d
  /\ created_at t = d_created_at d /\ completed_at t = d_completed_at d
  /\ due_date t = d_due_date d /\ category t = d_category d.
Proof.
  unfold from_dict, Task_init, obind.
  destruct (Priority_from_string (d_priority d)); [|discriminate].
  destruct (Status_from_string (d_status d)); [|discriminate].
  destruct (negb (truthy (strip (d_title d)))); [discriminate|].
  destruct (MAX_TITLE_LENGTH <? String.length (strip (d_title d)))%nat;
    [discriminate|].
  destruct (MAX_CATEGORY_LENGTH <? String.length (d_category d))%nat;
    [discriminate|].
  intros H. injection H as <-. cbn. repeat split.
Qed.

Lemma complete_task_exact task_id uncomplete toggle w :
  wp (complete_task task_id uncomplete toggle)
    (completed_exactly task_id uncomplete toggle w) w.
Proof.
  unfold complete_task.
  assert (Hfail : forall w1 err code,
            completed_exactly task_id uncomplete toggle w
              (Ok (error_result err code)) w1).
  { intros w1 err code res H Hs. injection H as <-. discriminate Hs. }
  apply wp_on_error.
  eapply wp_bind_spec; [apply find_task_by_id_spec | |].
  2: { intros e w1 _ err code. apply Hfail. }
  intros o w1 ((q1 & q2 & q3 & _) & l & Hl & Ho).
  destruct o as [d|]; [|apply wp_ret, Hfail].
  apply wp_lift_bind. destruct (from_dict d) as [t | e] eqn:Ht;
    [|intros; apply Hfail].
  apply wp_utcnow_bind. rewrite q2, q3.
  set (now := clock w (ticks w)).
  assert (Hsplit :
    (if toggle
     then if completed t then (mark_incomplete now t, "reopened")
          else (mark_completed now t, "completed")
     else if uncomplete then (mark_incomplete now t, "reopened")
          else (mark_completed now t, "completed"))
    = (chosen uncomplete toggle now t,
       if toggle then if completed t then "reopened" else "completed"
       else if uncomplete then "reopened" else "completed")).
  { unfold chosen. destruct toggle, uncomplete, (completed t); reflexivity. }
  rewrite Hsplit. clear Hsplit.
  set (t' := chosen uncomplete toggle now t).
  fold (completion_updates t').
  eapply wp_bind_spec; [apply update_task_spec | |].
  2: { intros e w2 _ err code. apply Hfail. }
  intros [|] w2 (_ & Hp); [|apply wp_ret, Hfail].
  destruct Hp as (l2 & d2 & Hl2 & Hf2 & Hw2). apply wp_ret.
  cbn [tick disk clock ticks] in Hl2, Hw2. rewrite q1, Hl in Hl2.
  injection Hl2 as <-. rewrite q2, q3 in Hw2.
  intros res H _. injection H as <-.
  exists l, d, t. split; [exact Hl|]. split; [now symmetry|]. split; [exact Ht|].
  split; [reflexivity | exact Hw2].
Qed.

(** X19: with [toggle], [complete_task] goes by the stored completed
    flag alone and turns it round: an open task is stored as completed
    with status "completed" and the clock reading as [completed_at],
    a completed one as open with status "pending" and no
    [completed_at]; the flag [uncomplete] plays no part. *)
Theorem toggle_turns_the_completed_flag
    (task_id : Z) (uncomplete : bool) (w : world)
    (res : OperationResult) (w' : world) :
  complete_task task_id uncomplete true w = (Ok res, w') ->
  success res = true ->
  exists l d l' d',
    stored_tasks (disk w TODOS_FILE) = Some l
    /\ first_with_id task_id l = Some d
    /\ disk w' TODOS_FILE = Some (Tasks l')
    /\ first_with_id task_id l' = Some d'
    /\ d_completed d' = negb (d_completed d)
    /\ d_status d' = (if d_completed d then "pending" else "completed")
    /\ d_completed_at d'
       = (if d_completed d then None else Some (stamp (clock w (ticks w)))).
Proof.
  intros E Hs.
  destruct (wp_run _ _ _ _ _ (complete_task_exact task_id uncomplete true w) E
              res eq_refl Hs) as (l & d & t & Hl & Hf & Ht & _ & Hw).
  destruct (from_dict_fields d t Ht) as (_ & Hc & _).
  eexists l, d, _, _. split; [exact Hl|]. split; [exact Hf|].
  split; [exact Hw|].
  split; [apply first_with_id_update; [intros; apply touched_id | exact Hf]|].
  unfold chosen. rewrite <- Hc. destruct (completed t); cbn; repeat split.
Qed.

Lemma toggle_turns_the_completed_flag_witness :
  let w := world_with [finished; chore] in
  let run := complete_task 1 false true w in
  exists l d l' d',
    stored_tasks (disk w TODOS_FILE) = Some l
    /\ first_with_id 1 l = Some d
    /\ disk (snd run) TODOS_FILE = Some (Tasks l')
    /\ first_with_id 1 l' = Some d'
    /\ d_completed d' = negb (d_completed d)
    /\ d_status d' = (if d_completed d then "pending" else "completed")
    /\ d_completed_at d'
       = (if d_completed d then None else Some (stamp (clock w (ticks w)))).
Proof.
  apply (toggle_turns_the_completed_flag 1 false (world_with [finished; chore])
           (result_of (complete_task 1 false true (world_with [finished; chore])))
           (snd (complete_task 1 false true (world_with [finished; chore]))));
    reflexivity.
Defined.

(** X20: the task that [complete_task] returns carries its own clock
    reading as [updated_at], but the record it leaves in the store
    carries the reading that the store took afterwards: flag, status
    and [completed_at] agree between the two, [updated_at] is that of
    the later reading. *)
Theorem completion_is_restamped_by_the_store
    (task_id : Z) (uncomplete toggle : bool) (w : world)
    (res : OperationResult) (w' : world) :
  complete_task task_id uncomplete toggle w = (Ok res, w') ->
  success res = true ->
  exists p l' d',
    data res = Some (PTask p)
    /\ disk w' TODOS_FILE = Some (Tasks l')
    /\ first_with_id task_id l' = Some d'
    /\ d_completed d' = d_completed p
    /\ d_status d' = d_status p
    /\ d_completed_at d' = d_completed_at p
    /\ d_updated_at p = Some (stamp (clock w (ticks w)))
    /\ d_updated_at d' = Some (stamp (clock w (S (ticks w)))).
Proof.
  intros E Hs.
  destruct (wp_run _ _ _ _ _ (complete_task_exact task_id uncomplete toggle w) E
              res eq_refl Hs) as (l & d & t & Hl & Hf & Ht & Hd & Hw).
  eexists _, _, _. split; [exact Hd|]. split; [exact Hw|].
  split; [apply first_with_id_update; [intros; apply touched_id | exact Hf]|].
  unfold chosen. destruct toggle, uncomplete, (completed t); cbn; repeat split.
Qed.

Lemma completion_is_restamped_by_the_store_witness :
  let w := world_with [milk; chore] in
  let run := complete_task 2 false false w in
  exists p l' d',
    data (result_of run) = Some (PTask p)
    /\ disk (snd run) TODOS_FILE = Some (Tasks l')
    /\ first_with_id 2 l' = Some d'
    /\ d_completed d' = d_completed p
    /\ d_status d' = d_status p
    /\ d_completed_at d' = d_completed_at p
    /\ d_updated_at p = Some (stamp (clock w (ticks w)))
    /\ d_updated_at d' = Some (stamp (clock w (S (ticks w)))).
Proof.
  apply (completion_is_restamped_by_the_store 2 false false
           (world_with [milk; chore])
           (result_of (complete_task 2 false false (world_with [milk; chore])))
           (snd (complete_task 2 false false (world_with [milk; chore]))));
    reflexivity.
Defined.

Lemma build_updates_user_fields ttl priority category st due ups changes :
  build_updates ttl priority category st due = Ok (ups, changes) ->
  forallb user_field ups = true.
Proof.
  unfold build_updates, obind, put, changed.
  destruct ttl as [t|]; [destruct (validate_title t); [|discriminate]|];
  (destruct priority as [p|]; [destruct (Priority_from_string p); [|discriminate]|]);
  (destruct category as [c|]; [destruct (validate_category c); [|discriminate]|]);
  (destruct st as [s|];
    [destruct (Status_from_string s) as [se|]; [destruct se|discriminate]|]);
  (destruct due as [d|];
    [destruct (PyStr.truthy d);
       [destruct (validate_due_date d); [|discriminate]|]|]);
  cbn; intros H; injection H as <- <-; reflexivity.
Qed.

Lemma apply_user_fields (ups : list field_update) : forall d,
  forallb user_field ups = true ->
  d_id (apply_updates ups d) = d_id d
  /\ d_created_at (apply_updates ups d) = d_created_at d
  /\ d_completed_at (apply_updates ups d) = d_completed_at d
  /\ d_updated_at (apply_updates ups d) = d_updated_at d
  /\ (d_completed d = true -> d_completed (apply_updates ups d) = true).
Proof.
  unfold apply_updates.
  induction ups as [|u ups IH]; intros d H; cbn [fold_left]; [auto|].
  cbn [forallb] in H. apply andb_true_iff in H. destruct H as (Hu & H).
  destruct (IH (assign d u) H) as (a & b & c & e & f).
  rewrite a, b, c, e.
  destruct u as [v|v|v|v|[|]|v|v|v]; try discriminate Hu; cbn; repeat split; auto.
Qed.

Lemma map_id_update_first task_id f (l : list task_dict) :
  (forall t, d_id (f t) = d_id t) ->
  map d_id (update_first task_id f l) = map d_id l.
Proof.
  intros Hf. induction l as [|x rest IH]; [reflexivity|].
  cbn [update_first]. destruct (d_id x =? task_id); cbn [map].
  - now rewrite Hf.
  - now rewrite IH.
Qed.

Lemma update_task_exact task_id ttl priority category st due w :
  wp (Skills.update_task task_id ttl priority category st due)
    (updated_exactly task_id ttl priority category st due w) w.
Proof.
  unfold Skills.update_task.
  assert (Hfail : forall w1 err code,
            disk w1 = disk w ->
            updated_exactly task_id ttl priority category st due w
              (Ok (error_result err code)) w1).
  { intros w1 err code Hd. split.
    - intros e _. split; [exact Hd | eauto].
    - intros res H Hs. injection H as <-. discriminate Hs. }
  assert (Hlate : forall w1 err code acc,
            build_updates ttl priority category st due = Ok acc ->
            updated_exactly task_id ttl priority category st due w
              (Ok (error_result err code)) w1).
  { intros w1 err code acc Hb. split.
    - intros e He. congruence.
    - intros res H Hs. injection H as <-. discriminate Hs. }
  apply wp_on_error.
  destruct (negb (existsb given [ttl; priority; category; st; due]));
    [apply wp_ret, Hfail; reflexivity|].
  eapply wp_bind_spec; [apply find_task_by_id_spec | |].
  2: { intros e w1 ((q1 & _) & _) err code. now apply Hfail. }
  intros o w1 ((q1 & q2 & q3 & _) & l & Hl & Ho).
  destruct o as [d|]; [|apply wp_ret, Hfail; exact q1].
  apply wp_lift_bind.
  destruct (build_updates ttl priority category st due) as [[ups changes] | e] eqn:Hb;
    [|intros; now apply Hfail].
  cbn [fst snd].
  eapply wp_bind_spec; [apply update_task_spec | |].
  2: { intros e w2 _ err code. eapply Hlate; reflexivity. }
  intros [|] w2 (_ & Hp); [|apply wp_ret; eapply Hlate; reflexivity].
  destruct Hp as (l2 & d2 & Hl2 & Hf2 & Hw2).
  rewrite q1, Hl in Hl2. injection Hl2 as <-. rewrite q2, q3 in Hw2.
  assert (d2 = d) as -> by congruence.
  eapply wp_bind_spec; [apply find_task_by_id_spec | |].
  2: { intros e w3 _ err code. eapply Hlate; reflexivity. }
  intros o' w3 ((r1 & _) & l3 & Hl3 & Ho'). apply wp_ret.
  rewrite Hw2 in Hl3. cbn in Hl3. injection Hl3 as <-.
  rewrite (first_with_id_update task_id _ l d) in Ho'
    by (auto; intros; apply touched_id).
  subst o'. split; [intros e He; congruence|].
  intros res H _. injection H as <-.
  exists l, d, ups, changes. split; [exact Hl|]. split; [exact Hf2|].
  split; [exact Hb|]. split; [reflexivity|]. now rewrite r1.
Qed.

(** X21: a successful [update_task] rewrites one record and returns it.
    The record keeps its id, its [created_at] and its [completed_at],
    a completed flag that was set stays set whatever the new status
    is, [updated_at] becomes the clock reading, and the ids of the
    store and their order are as before. *)
Theorem update_keeps_identity_and_completion_time
    (task_id : Z) (ttl priority category st due : option string)
    (w : world) (res : OperationResult) (w' : world) :
  Skills.update_task task_id ttl priority category st due w = (Ok res, w') ->
  success res = true ->
  exists l d l' d',
    stored_tasks (disk w TODOS_FILE) = Some l
    /\ first_with_id task_id l = Some d
    /\ disk w' TODOS_FILE = Some (Tasks l')
    /\ first_with_id task_id l' = Some d'
    /\ data res = Some (PTask d')
    /\ map d_id l' = map d_id l
    /\ d_id d' = d_id d
    /\ d_created_at d' = d_created_at d
    /\ d_completed_at d' = d_completed_at d
    /\ (d_completed d = true -> d_completed d' = true)
    /\ d_updated_at d' = Some (stamp (clock w (ticks w))).
Proof.
  intros E Hs.
  destruct (wp_run _ _ _ _ _
              (update_task_exact task_id ttl priority category st due w) E)
    as (_ & H).
  destruct (H res eq_refl Hs) as (l & d & ups & changes & Hl & Hf & Hb & Hd & Hw).
  pose proof (build_updates_user_fields _ _ _ _ _ _ _ Hb) as Hu.
  destruct (apply_user_fields ups d Hu) as (a & b & c & _ & f).
  eexists l, d, _, _. split; [exact Hl|]. split; [exact Hf|].
  split; [exact Hw|].
  split; [apply first_with_id_update; [intros; apply touched_id | exact Hf]|].
  split; [exact Hd|].
  split; [apply map_id_update_first; intros; apply touched_id|].
  unfold touched. cbn. auto 10.
Qed.

Lemma update_keeps_identity_and_completion_time_witness :
  let w := world_with [finished; chore] in
  let run := Skills.update_task 1 (Some " Buy oat milk ") None None
               (Some "in_progress") None w in
  exists l d l' d',
    stored_tasks (disk w TODOS_FILE) = Some l
    /\ first_with_id 1 l = Some d
    /\ disk (snd run) TODOS_FILE = Some (Tasks l')
    /\ first_with_id 1 l' = Some d'
    /\ data (result_of run) = Some (PTask d')
    /\ map d_id l' = map d_id l
    /\ d_id d' = d_id d
    /\ d_created_at d' = d_created_at d
    /\ d_completed_at d' = d_completed_at d
    /\ (d_completed d = true -> d_completed d' = true)
    /\ d_updated_at d' = Some (stamp (clock w (ticks w))).
Proof.
  apply (update_keeps_identity_and_completion_time 1 (Some " Buy oat milk ")
           None None (Some "in_progress") None (world_with [finished; chore])
           (result_of (Skills.update_task 1 (Some " Buy oat milk ") None None
                         (Some "in_progress") None (world_with [finished; chore])))
           (snd (Skills.update_task 1 (Some " Buy oat milk ") None None
                   (Some "in_progress") None (world_with [finished; chore]))));
    reflexivity.
Defined.

(** X22: [update_task] is all or nothing over its fields: when one of
    the fields that are given is refused, the call fails and no file is
    changed, however many of the other fields are valid. *)
Theorem update_rejects_the_whole_request
    (task_id : Z) (ttl priority category st due : option string)
    (w : world) (e : exn) :
  build_updates ttl priority category st due = Raise e ->
  exists res w',
    Skills.update_task task_id ttl priority category st due w = (Ok res, w')
    /\ success res = false
    /\ disk w' = disk w.
Proof.
  intros Hb.
  pose proof (update_task_exact task_id ttl priority category st due w) as H.
  unfold wp in H.
  destruct (Skills.update_task task_id ttl priority category st due w)
    as [r w'] eqn:E. cbn [fst snd] in H.
  destruct H as (H & _). destruct (H e Hb) as (Hd & res & -> & Hs).
  exists res, w'. auto.
Qed.

Lemma update_rejects_the_whole_request_witness :
  exists res w',
    Skills.update_task 1 (Some "Buy oat milk") (Some "urgent") (Some "food")
      None None (world_with [milk])
    = (Ok res, w')
    /\ success res = false
    /\ disk w' = disk (world_with [milk]).
Proof.
  apply (update_rejects_the_whole_request 1 (Some "Buy oat milk") (Some "urgent")
           (Some "food") None None (world_with [milk])
           (mk_exn ValueError
              "Invalid priority: urgent. Must be one of: high, medium, low")).
  reflexivity.
Defined.

Lemma set_due_date_run task_id due w :
  wp (set_due_date task_id due) (due_date_set task_id due w) w.
Proof.
  unfold set_due_date.
  assert (Hfail : forall w1 err code,
            disk w1 TODOS_FILE = disk w TODOS_FILE ->
            due_date_set task_id due w (Ok (error_result err code)) w1).
  { intros w1 err code Hd. eexists. split; [reflexivity|].
    split; [auto | discriminate]. }
  apply wp_on_error.
  eapply wp_bind_spec; [apply find_task_by_id_spec | |].
  2: { intros e w1 ((q1 & _) & _) err code. apply Hfail. now rewrite q1. }
  intros o w1 ((q1 & q2 & q3 & _) & l & Hl & Ho).
  destruct o as [d|]; [|apply wp_ret, Hfail; now rewrite q1].
  apply wp_lift_bind.
  destruct (validate_due_date due) as [v | e] eqn:Hv;
    [|intros; apply Hfail; now rewrite q1].
  eapply wp_bind_spec; [apply update_task_spec | |].
  2: { intros e w2 (_ & _ & Hd & _) err code. apply Hfail. now rewrite Hd, q1. }
  intros [|] w2 (_ & Hp).
  - destruct Hp as (l2 & d2 & Hl2 & Hf2 & Hw2). apply wp_ret.
    rewrite q1, Hl in Hl2. injection Hl2 as <-. rewrite q2, q3 in Hw2.
    eexists. split; [reflexivity|]. split; [discriminate|]. intros _.
    exists l, d2, v. repeat split; auto.
  - destruct Hp as (l2 & _ & _ & Hd). apply wp_ret, Hfail. now rewrite Hd, q1.
Qed.

(** X23: [set_due_date] always returns a result; when it fails the store
    file is as it was, and when it succeeds the date was accepted by
    [validate_due_date], the normalised date is what is returned and
    what the first record with the id now holds as its due date, and
    that record is otherwise unchanged but for [updated_at], which is
    the clock reading. *)
Theorem set_due_date_changes_one_field (task_id : Z) (due : string) (w : world) :
  exists res w',
    set_due_date task_id due w = (Ok res, w')
    /\ (success res = false -> disk w' TODOS_FILE = disk w TODOS_FILE)
    /\ (success res = true ->
        exists l d v,
          stored_tasks (disk w TODOS_FILE) = Some l
          /\ first_with_id task_id l = Some d
          /\ validate_due_date due = Ok v
          /\ data res = Some (PDue task_id v)
          /\ exists l',
               disk w' TODOS_FILE = Some (Tasks l')
               /\ first_with_id task_id l'
                  = Some (mk_task_dict (d_id d) (d_title d) (d_priority d)
                            (d_category d) (d_status d) (d_completed d)
                            (d_created_at d) (Some (stamp (clock w (ticks w))))
                            (d_completed_at d) (Some v))).
Proof.
  pose proof (set_due_date_run task_id due w) as H. unfold wp in H.
  destruct (set_due_date task_id due w) as [r w'] eqn:E. cbn [fst snd] in H.
  destruct H as (res & -> & Hfail & Hok).
  exists res, w'. split; [reflexivity|]. split; [exact Hfail|].
  intros Hs. destruct (Hok Hs) as (l & d & v & Hl & Hf & Hv & Hd & Hw).
  exists l, d, v. repeat (split; [assumption|]).
  eexists. split; [exact Hw|].
  rewrite (first_with_id_update task_id _ l d) by (auto; intros; apply touched_id).
  reflexivity.
Qed.

End Changes.

(** ** Reading back what [isoformat] writes *)

Section ReadingBack.
Import PyStr PyDatetime Models.

Lemma parse_digits_acc_pos (u : Decimal.uint) : forall acc : positive,
  parse_digits_acc (Zpos acc) (NilEmpty.string_of_uint u)
  = Some (Zpos (Pos.of_uint_acc u acc)).
Proof.
  induction u; intros acc; cbn [NilEmpty.string_of_uint Pos.of_uint_acc];
    [reflexivity | ..];
    cbn [parse_digits_acc]; 
    match goal with
    | |- context [digit_val ?c] =>
        let v := eval vm_compute in (digit_val c) in
        change (digit_val c) with v
    end; cbv beta iota; rewrite <- IHu; f_equal; lia.
Qed.

Lemma parse_digits_acc_zero (u : Decimal.uint) :
  parse_digits_acc 0 (NilEmpty.string_of_uint u) = Some (Z.of_N (Pos.of_uint u)).
Proof.
  induction u; cbn [NilEmpty.string_of_uint Pos.of_uint];
    [reflexivity | ..];
    cbn [parse_digits_acc];
    match goal with
    | |- context [digit_val ?c] =>
        let v := eval vm_compute in (digit_val c) in
        change (digit_val c) with v
    end; cbv beta iota;
    [exact IHu | ..]; apply parse_digits_acc_pos.
Qed.

Lemma string_of_uint_length (u : Decimal.uint) :
  String.length (NilEmpty.string_of_uint u) = Decimal.nb_digits u.
Proof. induction u; cbn; congruence. Qed.

Lemma of_uint_acc_lower (u : Decimal.uint) : forall acc : positive,
  Zpos acc * 10 ^ Z.of_nat (Decimal.nb_digits u) <= Zpos (Pos.of_uint_acc u acc).
Proof.
  induction u; intros acc; cbn [Decimal.nb_digits Pos.of_uint_acc];
    [cbn; lia | ..];
    rewrite Nat2Z.inj_succ, Z.pow_succ_r by lia;
    match goal with
    | |- _ <= Zpos (Pos.of_uint_acc _ ?a) =>
        specialize (IHu a); nia
    end.
Qed.

Lemma nzhead_head (u : Decimal.uint) :
  match Decimal.nzhead u with Decimal.D0 _ => False | _ => True end.
Proof. induction u; cbn; auto. Qed.

Lemma to_uint_digits (n : N) (w : nat) :
  (1 <= w)%nat -> Z.of_N n < 10 ^ Z.of_nat w ->
  (Decimal.nb_digits (N.to_uint n) <= w)%nat.
Proof.
  intros Hw Hn.
  pose proof (DecimalN.Unsigned.of_to n) as Hof.
  pose proof (DecimalN.Unsigned.to_of (N.to_uint n)) as Hto.
  rewrite Hof in Hto. set (u := N.to_uint n) in *.
  unfold N.of_uint in Hof.
  assert (Hcase : u = Decimal.D0 Decimal.Nil
                  \/ match u with
                     | Decimal.Nil | Decimal.D0 _ => False
                     | _ => True
                     end).
  { unfold Decimal.unorm in Hto. pose proof (nzhead_head u) as Hh.
    destruct (Decimal.nzhead u) eqn:E; try contradiction;
      rewrite Hto; auto. }
  destruct Hcase as [-> | Hc]; [cbn; lia|].
  assert (Hb : 10 ^ Z.of_nat (Decimal.nb_digits u - 1) <= Z.of_N n).
  { rewrite <- Hof.
    destruct u as [|r|r|r|r|r|r|r|r|r|r]; try contradiction;
      cbn [Pos.of_uint Decimal.nb_digits Z.of_N];
      rewrite Nat.sub_succ, Nat.sub_0_r;
      match goal with
      | |- _ <= Zpos (Pos.of_uint_acc _ ?a) =>
          pose proof (of_uint_acc_lower r a);
          assert (0 < 10 ^ Z.of_nat (Decimal.nb_digits r)) by (apply Z.pow_pos_nonneg; lia);
          nia
      end. }
  assert (Hlt : 10 ^ Z.of_nat (Decimal.nb_digits u - 1) < 10 ^ Z.of_nat w) by lia.
  apply Z.pow_lt_mono_r_iff in Hlt; lia.
Qed.

Lemma repeat_length (c : ascii) (n : nat) : String.length (PyStr.repeat c n) = n.
Proof. induction n; cbn; congruence. Qed.

Lemma length_append (a b : string) :
  String.length (a ++ b) = (String.length a + String.length b)%nat.
Proof. induction a; cbn; congruence. Qed.

Lemma parse_digits_acc_zeros (k : nat) (s : string) :
  parse_digits_acc 0 (PyStr.repeat "0" k ++ s) = parse_digits_acc 0 s.
Proof. induction k; [reflexivity|]. cbn [PyStr.repeat append]. exact IHk. Qed.

Lemma zfill_written (w : nat) (n : Z) :
  (1 <= w)%nat -> 0 <= n < 10 ^ Z.of_nat w -> written w (zfill w n) n.
Proof.
  intros Hw Hn. unfold written. split; [|split; [apply zfill_digits|]].
  - unfold zfill. rewrite length_append, repeat_length, string_of_uint_length.
    pose proof (to_uint_digits (Z.to_N n) w Hw). rewrite Z2N.id in H by lia.
    specialize (H (proj2 Hn)). lia.
  - assert (Hlen : String.length (zfill w n) = w).
    { unfold zfill. rewrite length_append, repeat_length, string_of_uint_length.
      pose proof (to_uint_digits (Z.to_N n) w Hw). rewrite Z2N.id in H by lia.
      specialize (H (proj2 Hn)). lia. }
    unfold parse_int. destruct (zfill w n) eqn:E; [cbn in Hlen; lia|].
    rewrite <- E. unfold zfill. rewrite parse_digits_acc_zeros.
    rewrite parse_digits_acc_zero.
    change (Pos.of_uint (N.to_uint (Z.to_N n))) with (N.of_uint (N.to_uint (Z.to_N n))).
    rewrite DecimalN.Unsigned.of_to. f_equal. lia.
Qed.

Ltac explode H :=
  let Hl := fresh "Hl" in let Hd := fresh "Hd" in let Hp := fresh "Hp" in
  destruct H as (Hl & Hd & Hp);
  match type of Hl with
  | String.length ?s = _ =>
      repeat (let c := fresh "c" in destruct s as [|c s]; cbn in Hl;
              try discriminate Hl)
  end;
  clear Hl.

Lemma parse_hms (a b c : string) (A B C : Z) :
  written 2 a A -> written 2 b B -> written 2 c C ->
  parse_hh_mm_ss_ff (a ++ ":" ++ b) = Some (A, B, 0, 0)
  /\ parse_hh_mm_ss_ff (a ++ ":" ++ b ++ ":" ++ c) = Some (A, B, C, 0)
  /\ forall u U, written 6 u U ->
       parse_hh_mm_ss_ff (a ++ ":" ++ b ++ ":" ++ c ++ "." ++ u)
       = Some (A, B, C, U).
Proof.
  intros Ha Hb Hc. explode Ha. explode Hb. explode Hc.
  split; [|split; [|intros u U Hu; explode Hu]];
    unfold parse_hh_mm_ss_ff, parse_fraction;
    set (pi := parse_int) in *; clearbody pi; cbn;
    rewrite ?Hp, ?Hp0, ?Hp1, ?Hp2; reflexivity.
Qed.

Lemma parse_date (y m d : string) (Y M D : Z) :
  written 4 y Y -> written 2 m M -> written 2 d D ->
  parse_isoformat_date (y ++ "-" ++ m ++ "-" ++ d) = Some (Y, M, D).
Proof.
  intros Hy Hm Hd. explode Hy. explode Hm. explode Hd.
  unfold parse_isoformat_date.
  set (pi := parse_int) in *. clearbody pi.
  cbn. now rewrite Hp, Hp0, Hp1.
Qed.

Lemma append_assoc_s (a b c : string) : (a ++ b) ++ c = a ++ (b ++ c).
Proof. induction a; cbn; congruence. Qed.

Lemma substring_0_app (a b : string) : substring 0 (String.length a) (a ++ b) = a.
Proof.
  induction a as [|c a IH]; cbn [String.length append substring].
  - now destruct b.
  - now rewrite IH.
Qed.

Lemma substring_0_all (s : string) : substring 0 (String.length s) s = s.
Proof.
  rewrite <- (append_nil_r_iso s) at 2. apply substring_0_app.
Qed.

Lemma substring_skip_app (a b : string) (n m : nat) :
  substring (String.length a + n) m (a ++ b) = substring n m b.
Proof. induction a as [|c a IH]; cbn [String.length append substring Nat.add]; auto. Qed.

Lemma substring_after (a b : string) (c : ascii) :
  substring (S (String.length a))
    (String.length (a ++ String c b) - S (String.length a)) (a ++ String c b)
  = b.
Proof.
  rewrite length_append. cbn [String.length].
  replace (String.length a + S (String.length b) - S (String.length a))%nat
    with (String.length b) by lia.
  replace (S (String.length a)) with (String.length a + 1)%nat by lia.
  rewrite substring_skip_app. cbn [substring]. apply substring_0_all.
Qed.

Lemma unsigned_not_sign (c x : ascii) :
  unsigned_char x = true -> c = "-"%char \/ c = "+"%char ->
  Ascii.eqb c x = false.
Proof.
  intros Hx Hc. apply Ascii.eqb_neq. intros <-.
  destruct Hc as [-> | ->]; discriminate Hx.
Qed.

Lemma find_char_none (c : ascii) (s : string) :
  c = "-"%char \/ c = "+"%char ->
  all_chars unsigned_char s = true -> find_char c s = None.
Proof.
  intros Hc. induction s as [|x s IH]; cbn [all_chars find_char]; [reflexivity|].
  intros H. apply andb_true_iff in H. destruct H as (Hx & Hs).
  rewrite (unsigned_not_sign c x Hx Hc), (IH Hs). reflexivity.
Qed.

Lemma find_char_app (c : ascii) (a b : string) :
  c = "-"%char \/ c = "+"%char ->
  all_chars unsigned_char a = true ->
  find_char c (a ++ b) = option_map (Nat.add (String.length a)) (find_char c b).
Proof.
  intros Hc. induction a as [|x a IH]; cbn [all_chars find_char append String.length].
  - intros _. now destruct (find_char c b).
  - intros H. apply andb_true_iff in H. destruct H as (Hx & Ha).
    rewrite (unsigned_not_sign c x Hx Hc), (IH Ha).
    now destruct (find_char c b).
Qed.

Lemma digits_unsigned (s : string) :
  all_chars is_digit s = true -> all_chars unsigned_char s = true.
Proof.
  apply all_chars_weaken. intros c H. unfold unsigned_char. now rewrite H.
Qed.

Lemma parse_time_naive (P : string) (h mi s us : Z) :
  parse_hh_mm_ss_ff P = Some (h, mi, s, us) ->
  all_chars unsigned_char P = true ->
  parse_isoformat_time P = Some (h, mi, s, us, None).
Proof.
  intros Hp Hu. unfold parse_isoformat_time, tz_sign_pos.
  rewrite !find_char_none by auto. rewrite Hp.
  destruct (String.length P <? 2)%nat eqn:E; [|reflexivity].
  unfold parse_hh_mm_ss_ff in Hp. rewrite E in Hp. discriminate Hp.
Qed.

Lemma parse_time_offset (P body : string) (sg : ascii)
    (h mi s us th tm ts tu : Z) :
  parse_hh_mm_ss_ff P = Some (h, mi, s, us) ->
  all_chars unsigned_char P = true ->
  parse_hh_mm_ss_ff body = Some (th, tm, ts, tu) ->
  all_chars unsigned_char body = true ->
  sg = "-"%char \/ sg = "+"%char ->
  String.length body = 5%nat \/ String.length body = 8%nat
  \/ String.length body = 15%nat ->
  parse_isoformat_time (P ++ String sg body)
  = if (th =? 0) && (tm =? 0) && (ts =? 0) && (tu =? 0)
    then Some (h, mi, s, us, Some 0)
    else
      let sign := if Ascii.eqb sg "-" then -1 else 1 in
      let td := sign * ((th * 3600 + tm * 60 + ts) * US_PER_SECOND + tu) in
      if (- US_PER_DAY <? td) && (td <? US_PER_DAY)
      then Some (h, mi, s, us, Some td) else None.
Proof.
  intros Hp Hu Hb Hbu Hsg Hlen. unfold parse_isoformat_time.
  assert (Hpos : tz_sign_pos (P ++ String sg body) = Some (String.length P)).
  { unfold tz_sign_pos. rewrite !find_char_app by auto.
    cbn [find_char]. destruct Hsg as [-> | ->]; cbn [Ascii.eqb Bool.eqb andb].
    - cbn. now rewrite Nat.add_0_r.
    - change (("-" =? "+")%char) with false. cbv iota.
      rewrite (find_char_none "-" body) by auto. cbn [option_map].
      change (("+" =? "+")%char) with true. cbn. now rewrite Nat.add_0_r. }
  rewrite Hpos, substring_0_app, Hp.
  rewrite length_append. cbn [String.length].
  replace (String.length P + S (String.length body) - (String.length P + 1))%nat
    with (String.length body) by lia.
  rewrite substring_skip_app. cbn [substring]. rewrite substring_0_all, Hb.
  replace (substring (String.length P) 1 (P ++ String sg body))
    with (String sg "").
  2: { rewrite <- (Nat.add_0_r (String.length P)), substring_skip_app.
       cbn. now destruct body. }
  assert (E1 : (String.length P + S (String.length body) <? 2)%nat = false)
    by (apply Nat.ltb_ge; lia).
  rewrite E1.
  assert (E2 : negb ((String.length body =? 5)%nat || (String.length body =? 8)%nat
                     || (String.length body =? 15)%nat) = false).
  { destruct Hlen as [-> | [-> | ->]]; reflexivity. }
  rewrite E2.
  replace (String.eqb (String sg "") "-") with (Ascii.eqb sg "-")
    by (destruct Hsg as [-> | ->]; reflexivity).
  reflexivity.
Qed.

Lemma offset_written (o : Z) :
  - US_PER_DAY < o < US_PER_DAY ->
  exists sg body th tm ts tu,
    format_offset (Some o) = String sg body
    /\ (sg = "-"%char \/ sg = "+"%char)
    /\ Ascii.eqb sg "-" = (o <? 0)
    /\ all_chars unsigned_char body = true
    /\ parse_hh_mm_ss_ff body = Some (th, tm, ts, tu)
    /\ (String.length body = 5%nat \/ String.length body = 8%nat
        \/ String.length body = 15%nat)
    /\ 0 <= th /\ 0 <= tm /\ 0 <= ts /\ 0 <= tu
    /\ Z.abs o = (th * 3600 + tm * 60 + ts) * US_PER_SECOND + tu.
Proof.
  intros Ho. unfold format_offset.
  unfold US_PER_DAY, US_PER_SECOND in *.
  set (a := Z.abs o).
  assert (Ha : 0 <= a < 86400 * 1000000) by (unfold a; lia).
  set (hh := a / (3600 * 1000000)).
  set (r := a mod (3600 * 1000000)).
  set (mm := r / (60 * 1000000)).
  set (r2 := r mod (60 * 1000000)).
  set (ss := r2 / 1000000).
  set (us := r2 mod 1000000).
  assert (Hr : 0 <= r < 3600 * 1000000) by (apply Z.mod_pos_bound; lia).
  assert (Hr2 : 0 <= r2 < 60 * 1000000) by (apply Z.mod_pos_bound; lia).
  assert (Hus : 0 <= us < 1000000) by (apply Z.mod_pos_bound; lia).
  assert (Ea : a = (3600 * 1000000) * hh + r) by (apply Z.div_mod; lia).
  assert (Er : r = (60 * 1000000) * mm + r2) by (apply Z.div_mod; lia).
  assert (Er2 : r2 = 1000000 * ss + us) by (apply Z.div_mod; lia).
  assert (Hhh : 0 <= hh < 24).
  { split; [apply Z.div_pos; lia | apply Z.div_lt_upper_bound; lia]. }
  assert (Hmm : 0 <= mm < 60).
  { split; [apply Z.div_pos; lia | apply Z.div_lt_upper_bound; lia]. }
  assert (Hss : 0 <= ss < 60).
  { split; [apply Z.div_pos; lia | apply Z.div_lt_upper_bound; lia]. }
  assert (Whh : written 2 (zfill 2 hh) hh) by (apply zfill_written; cbn; lia).
  assert (Wmm : written 2 (zfill 2 mm) mm) by (apply zfill_written; cbn; lia).
  assert (Wss : written 2 (zfill 2 ss) ss) by (apply zfill_written; cbn; lia).
  assert (Wus : written 6 (zfill 6 us) us) by (apply zfill_written; cbn; lia).
  destruct (parse_hms _ _ _ _ _ _ Whh Wmm Wss) as (P1 & P2 & P3).
  specialize (P3 _ _ Wus).
  assert (Dhh := digits_unsigned _ (zfill_digits 2 hh)).
  assert (Dmm := digits_unsigned _ (zfill_digits 2 mm)).
  assert (Dss := digits_unsigned _ (zfill_digits 2 ss)).
  assert (Dus := digits_unsigned _ (zfill_digits 6 us)).
  destruct Whh as (Lhh & _). destruct Wmm as (Lmm & _).
  destruct Wss as (Lss & _). destruct Wus as (Lus & _).
  exists (if o <? 0 then "-"%char else "+"%char).
  destruct (Z.eqb_spec r2 0) as [Z2 | N2]; cbn [negb].
  - assert (Zus : us = 0) by (unfold us; rewrite Z2; reflexivity).
    assert (Zss : ss = 0) by (unfold ss; rewrite Z2; reflexivity).
    rewrite Zus. cbn [Z.eqb negb].
    exists (zfill 2 hh ++ ":" ++ zfill 2 mm), hh, mm, 0, 0.
    split; [destruct (o <? 0); cbn; now rewrite !append_nil_r_iso|].
    split; [destruct (o <? 0); auto|].
    split; [destruct (o <? 0); reflexivity|].
    split; [rewrite !all_chars_app, Dhh, Dmm; reflexivity|].
    split; [exact P1|].
    split; [left; rewrite !length_append, Lhh, Lmm; reflexivity|].
    repeat (split; [lia|]). lia.
  - destruct (Z.eqb_spec us 0) as [Zus | Nus]; cbn [negb].
    + exists (zfill 2 hh ++ ":" ++ zfill 2 mm ++ ":" ++ zfill 2 ss), hh, mm, ss, 0.
      split; [destruct (o <? 0); cbn; now rewrite !append_nil_r_iso|].
      split; [destruct (o <? 0); auto|].
      split; [destruct (o <? 0); reflexivity|].
      split; [rewrite !all_chars_app, Dhh, Dmm, Dss; reflexivity|].
      split; [exact P2|].
      split; [right; left; rewrite !length_append, Lhh, Lmm, Lss; reflexivity|].
      repeat (split; [lia|]). lia.
    + exists (zfill 2 hh ++ ":" ++ zfill 2 mm ++ ":" ++ zfill 2 ss ++ "."
              ++ zfill 6 us), hh, mm, ss, us.
      split; [destruct (o <? 0); cbn; now rewrite <- ?append_assoc_s|].
      split; [destruct (o <? 0); auto|].
      split; [destruct (o <? 0); reflexivity|].
      split; [rewrite !all_chars_app, Dhh, Dmm, Dss, Dus; reflexivity|].
      split; [exact P3|].
      split; [right; right; rewrite !length_append, Lhh, Lmm, Lss, Lus; reflexivity|].
      repeat (split; [lia|]). lia.
Qed.

Lemma days_in_month_bound (y m : Z) : 1 <= m <= 12 -> days_in_month y m <= 31.
Proof.
  intros Hm. unfold days_in_month.
  destruct ((m =? 2) && is_leap y); [lia|].
  assert (H : m = 1 \/ m = 2 \/ m = 3 \/ m = 4 \/ m = 5 \/ m = 6 \/ m = 7
              \/ m = 8 \/ m = 9 \/ m = 10 \/ m = 11 \/ m = 12) by lia.
  repeat (destruct H as [-> | H]; [vm_compute; discriminate|]). subst.
  vm_compute. discriminate.
Qed.

(** Reading back what was written: [fromisoformat(dt.isoformat())] is
    [dt] for every value that the constructor accepts. *)
Lemma fromisoformat_isoformat (dt : datetime) :
  check_fields dt = true -> offset_ok (tzinfo dt) ->
  fromisoformat (isoformat dt) = Ok dt.
Proof.
  intros Hc Ho. pose proof Hc as Hc'. unfold check_fields in Hc'.
  repeat (apply andb_true_iff in Hc'; destruct Hc' as (Hc' & ?)).
  repeat match goal with
         | H : (_ <=? _) = true |- _ => apply Z.leb_le in H
         end.
  pose proof (days_in_month_bound (year dt) (month dt) ltac:(lia)) as Hdim.
  assert (Wy : written 4 (zfill 4 (year dt)) (year dt))
    by (apply zfill_written; cbn; lia).
  assert (Wm : written 2 (zfill 2 (month dt)) (month dt))
    by (apply zfill_written; cbn; lia).
  assert (Wd : written 2 (zfill 2 (day dt)) (day dt))
    by (apply zfill_written; cbn; lia).
  assert (Wh : written 2 (zfill 2 (hour dt)) (hour dt))
    by (apply zfill_written; cbn; lia).
  assert (Wi : written 2 (zfill 2 (minute dt)) (minute dt))
    by (apply zfill_written; cbn; lia).
  assert (Ws : written 2 (zfill 2 (second dt)) (second dt))
    by (apply zfill_written; cbn; lia).
  assert (Wu : written 6 (zfill 6 (microsecond dt)) (microsecond dt))
    by (apply zfill_written; cbn; lia).
  set (Dstr := zfill 4 (year dt) ++ "-" ++ zfill 2 (month dt) ++ "-"
               ++ zfill 2 (day dt)).
  set (frac := if negb (microsecond dt =? 0)
               then "." ++ zfill 6 (microsecond dt) else "").
  set (P := zfill 2 (hour dt) ++ ":" ++ zfill 2 (minute dt) ++ ":"
            ++ zfill 2 (second dt) ++ frac).
  assert (Hshape : isoformat dt
                   = Dstr ++ String "T" (P ++ format_offset (tzinfo dt))).
  { unfold isoformat, isoformat_naive, Dstr, P, frac.
    rewrite !append_assoc_s. reflexivity. }
  assert (HlenD : String.length Dstr = 10%nat).
  { unfold Dstr. rewrite !length_append.
    destruct Wy as (-> & _), Wm as (-> & _), Wd as (-> & _). reflexivity. }
  assert (Hdate : parse_isoformat_date Dstr
                  = Some (year dt, month dt, day dt))
    by (apply parse_date; assumption).
  assert (HP : parse_hh_mm_ss_ff P
               = Some (hour dt, minute dt, second dt, microsecond dt)).
  { destruct (parse_hms _ _ _ _ _ _ Wh Wi Ws) as (_ & P2 & P3).
    unfold P, frac. destruct (Z.eqb_spec (microsecond dt) 0) as [E | N]; cbn [negb].
    - rewrite append_nil_r_iso, E. exact P2.
    - apply P3. exact Wu. }
  assert (HPu : all_chars unsigned_char P = true).
  { unfold P, frac. rewrite !all_chars_app.
    rewrite !(digits_unsigned _ (zfill_digits 2 _)).
    destruct (negb (microsecond dt =? 0)); [|reflexivity].
    rewrite all_chars_app, (digits_unsigned _ (zfill_digits 6 _)). reflexivity. }
  assert (HPlen : (2 <= String.length P)%nat).
  { unfold P. rewrite length_append. destruct Wh as (-> & _). lia. }
  assert (Htime : parse_isoformat_time (P ++ format_offset (tzinfo dt))
                  = Some (hour dt, minute dt, second dt, microsecond dt,
                          tzinfo dt)).
  { destruct (tzinfo dt) as [o|] eqn:Etz.
    - cbn in Ho.
      destruct (offset_written o Ho)
        as (sg & body & th & tm & ts & tu & -> & Hsg & Hneg & Hbu & Hb & Hl
            & h1 & h2 & h3 & h4 & Habs).
      rewrite (parse_time_offset P body sg _ _ _ _ th tm ts tu HP HPu Hb Hbu Hsg Hl).
      rewrite Hneg. unfold US_PER_DAY, US_PER_SECOND in *.
      destruct ((th =? 0) && (tm =? 0) && (ts =? 0) && (tu =? 0)) eqn:Ez.
      + repeat (apply andb_true_iff in Ez; destruct Ez as (Ez & ?)).
        repeat match goal with
               | H : (_ =? _) = true |- _ => apply Z.eqb_eq in H
               end.
        subst. assert (o = 0) by lia. now subst.
      + cbv zeta.
        assert (Etd : (if o <? 0 then -1 else 1)
                      * ((th * 3600 + tm * 60 + ts) * 1000000 + tu) = o).
        { rewrite <- Habs. destruct (Z.ltb_spec o 0); lia. }
        rewrite Etd.
        assert (Er : (- (86400 * 1000000) <? o) && (o <? 86400 * 1000000) = true).
        { apply andb_true_iff. split; apply Z.ltb_lt; lia. }
        now rewrite Er.
    - cbn [format_offset]. rewrite append_nil_r_iso.
      now apply parse_time_naive. }
  unfold fromisoformat. rewrite Hshape.
  pose proof (substring_0_app Dstr (String "T" (P ++ format_offset (tzinfo dt))))
    as Hs0.
  pose proof (substring_after Dstr (P ++ format_offset (tzinfo dt)) "T") as Hs1.
  rewrite HlenD in Hs0, Hs1. rewrite Hs0, Hs1, Hdate. cbn [of_option obind].
  assert (Htr : truthy (P ++ format_offset (tzinfo dt)) = true).
  { apply truthy_length. rewrite length_append. lia. }
  rewrite Htr, Htime. cbn [of_option obind]. cbv beta iota zeta.
  replace (mk_datetime (year dt) (month dt) (day dt) (hour dt) (minute dt)
             (second dt) (microsecond dt) (tzinfo dt))
    with dt by (now destruct dt).
  now rewrite Hc.
Qed.

Lemma parse_isoformat_time_offset (t : string) (h mi s us : Z) (tz : option Z) :
  parse_isoformat_time t = Some (h, mi, s, us, tz) -> offset_ok tz.
Proof.
  unfold parse_isoformat_time.
  destruct (String.length t <? 2)%nat; [discriminate|].
  destruct (tz_sign_pos t) as [i|].
  - destruct (parse_hh_mm_ss_ff (substring 0 i t)) as [[[[hh mm] ss] u]|];
      [|discriminate].
    destruct (negb _); [discriminate|].
    destruct (parse_hh_mm_ss_ff _) as [[[[th tm] ts] tu]|]; [|discriminate].
    destruct ((th =? 0) && (tm =? 0) && (ts =? 0) && (tu =? 0)).
    + intros H. injection H as <- <- <- <- <-. cbn. unfold US_PER_DAY, US_PER_SECOND. lia.
    + cbv zeta.
      match goal with
      | |- context [if (?a <? ?b) && (?c <? ?d) then _ else _] =>
          destruct (Z.ltb_spec a b); destruct (Z.ltb_spec c d); cbn [andb];
          try discriminate
      end.
      intros Hr. injection Hr as <- <- <- <- <-. unfold offset_ok. lia.
  - destruct (parse_hh_mm_ss_ff t) as [[[[hh mm] ss] u]|]; [|discriminate].
    intros H. injection H as <- <- <- <- <-. exact I.
Qed.

Lemma fromisoformat_valid (x : string) (dt : datetime) :
  fromisoformat x = Ok dt -> check_fields dt = true /\ offset_ok (tzinfo dt).
Proof.
  unfold fromisoformat, of_option, invalid, obind.
  destruct (parse_isoformat_date _) as [[[y m] d]|]; [|discriminate].
  destruct (truthy _).
  - destruct (parse_isoformat_time _) as [[[[[hh mm] ss] us] tz]|] eqn:Et;
      [|discriminate].
    destruct (check_fields _) eqn:Ec; [|discriminate].
    intros H. injection H as <-. split; [exact Ec|].
    cbn [tzinfo]. eapply parse_isoformat_time_offset; eauto.
  - destruct (check_fields _) eqn:Ec; [|discriminate].
    intros H. injection H as <-. split; [exact Ec | exact I].
Qed.

Lemma prefix_split (a x : string) :
  prefix a x = true -> exists y, x = a ++ y.
Proof.
  revert x. induction a as [|c a IH]; intros x; cbn [prefix append].
  - eauto.
  - destruct x as [|d x]; [discriminate|].
    cbn [prefix].
    destruct (ascii_dec c d) as [E | N]; [subst d | intros H; discriminate H].
    intros H. destruct (IH x H) as (y & ->). eauto.
Qed.

Lemma prefix_head_same (c : ascii) (a b : string) :
  prefix (String c a) (String c b) = prefix a b.
Proof.
  cbn [prefix]. destruct (ascii_dec c c); [reflexivity | contradiction].
Qed.

Lemma prefix_nil (x : string) : prefix "" x = true.
Proof. now destruct x. Qed.

Lemma replace_from_skip (old new a b : string) :
  replace_from old new (String.length a) (a ++ b)
  = replace_from old new 0 b.
Proof.
  induction a as [|c a IH]; cbn [String.length append].
  - reflexivity.
  - cbn [replace_from]. exact IH.
Qed.

(** Putting "Z" for every "+00:00" and then "+00:00" for every "Z"
    gives back a string that had no "Z". *)
Lemma replace_round_trip (n : nat) : forall x,
  (String.length x <= n)%nat ->
  contains_char "Z" x = false ->
  replace_from "Z" "+00:00" 0 (replace_from "+00:00" "Z" 0 x) = x.
Proof.
  induction n as [|n IH]; intros x Hn Hz.
  - destruct x; [reflexivity | cbn in Hn; lia].
  - destruct x as [|c x]; [reflexivity|].
    rewrite replace_from_step.
    destruct (prefix "+00:00" (String c x)) eqn:Hp.
    + destruct (prefix_split _ _ Hp) as (y & Ey).
      cbn [append] in Ey. injection Ey as -> ->.
      change (String.length "+00:00" - 1)%nat with (String.length "00:00").
      change (String "0" (String "0" (String ":" (String "0" (String "0" y)))))
        with ("00:00" ++ y).
      rewrite replace_from_skip.
      change ("Z" ++ replace_from "+00:00" "Z" 0 y)
        with (String "Z" (replace_from "+00:00" "Z" 0 y)).
      rewrite replace_from_step.
      rewrite prefix_head_same, prefix_nil. change (String.length "Z" - 1)%nat with 0%nat.
      rewrite IH; [reflexivity | cbn in Hn |- *; lia | exact Hz].
    + cbn [contains_char] in Hz. apply orb_false_iff in Hz. destruct Hz as (Hc & Hz).
      rewrite replace_from_step.
      rewrite prefix_head_differs
        by (intros E; subst c; discriminate Hc).
      rewrite IH; [reflexivity | cbn in Hn; lia | exact Hz].
Qed.

Lemma unsigned_chars_no_Z (a : string) :
  all_chars unsigned_char a = true -> contains_char "Z" a = false.
Proof.
  induction a as [|c a IH]; [reflexivity|]. cbn [all_chars contains_char].
  intros H. apply andb_true_iff in H. destruct H as (Hc & Ha).
  rewrite (IH Ha), orb_false_r. apply Ascii.eqb_neq. intros <-. discriminate Hc.
Qed.

Lemma contains_char_app (c : ascii) (a b : string) :
  contains_char c (a ++ b) = contains_char c a || contains_char c b.
Proof.
  induction a as [|x a IH]; [reflexivity|]. cbn [append contains_char].
  now rewrite IH, orb_assoc.
Qed.

Lemma isoformat_no_Z (dt : datetime) :
  offset_ok (tzinfo dt) -> contains_char "Z" (isoformat dt) = false.
Proof.
  intros Ho. unfold isoformat. rewrite contains_char_app.
  rewrite (iso_chars_no_Z _ (isoformat_naive_chars dt)). cbn [orb].
  destruct (tzinfo dt) as [o|]; [|reflexivity].
  destruct (offset_written o Ho)
    as (sg & body & th & tm & ts & tu & -> & Hsg & _ & Hbu & _).
  cbn [contains_char]. rewrite (unsigned_chars_no_Z _ Hbu), orb_false_r.
  destruct Hsg as [-> | ->]; reflexivity.
Qed.

(** X24: [validate_due_date] is idempotent: a date that it has
    normalised is accepted again and comes back unchanged, so a stored
    due date can be validated any number of times without drifting. *)
Theorem validate_due_date_is_idempotent (s r : string) :
  validate_due_date s = Ok r -> validate_due_date r = Ok r.
Proof.
  unfold validate_due_date.
  destruct (fromisoformat (replace "Z" "+00:00" s)) as [dt | e] eqn:E.
  2: { destruct (isinstance e ValueError || isinstance e AttributeError);
       discriminate. }
  intros H. injection H as <-.
  destruct (fromisoformat_valid _ _ E) as (Hc & Ho).
  assert (Hback : replace "Z" "+00:00" (replace "+00:00" "Z" (isoformat dt))
                  = isoformat dt).
  { unfold replace. apply (replace_round_trip (String.length (isoformat dt)));
      [lia | now apply isoformat_no_Z]. }
  change (replace_from "+00:00" "Z" 0 (isoformat dt))
    with (replace "+00:00" "Z" (isoformat dt)).
  rewrite Hback, (fromisoformat_isoformat dt Hc Ho). reflexivity.
Qed.

Lemma validate_due_date_is_idempotent_witness :
  validate_due_date "2025-03-09T07:30:00.250+00:00"
  = Ok "2025-03-09T07:30:00.250000Z"
  /\ validate_due_date "2025-03-09T07:30:00.250000Z"
     = Ok "2025-03-09T07:30:00.250000Z".
Proof.
  split; [reflexivity|].
  apply (validate_due_date_is_idempotent "2025-03-09T07:30:00.250+00:00").
  reflexivity.
Defined.

(** X25: normalising a due date does not change the moment it
    stands for: what [validate_due_date] hands back is read by
    [is_overdue], [days_until_due] and the upcoming report as the same
    date and time, with the same offset, as the input; in particular
    it can always be read. *)
Theorem normalised_due_date_reads_the_same (s r : string) :
  validate_due_date s = Ok r ->
  parse_due r = parse_due s /\ exists dt, parse_due r = Some dt.
Proof.
  unfold validate_due_date, parse_due.
  destruct (fromisoformat (replace "Z" "+00:00" s)) as [dt | e] eqn:E.
  2: { destruct (isinstance e ValueError || isinstance e AttributeError);
       discriminate. }
  intros H. injection H as <-.
  destruct (fromisoformat_valid _ _ E) as (Hc & Ho).
  change (replace_from "+00:00" "Z" 0 (isoformat dt))
    with (replace "+00:00" "Z" (isoformat dt)).
  assert (Hback : replace "Z" "+00:00" (replace "+00:00" "Z" (isoformat dt))
                  = isoformat dt).
  { unfold replace. apply (replace_round_trip (String.length (isoformat dt)));
      [lia | now apply isoformat_no_Z]. }
  rewrite Hback, (fromisoformat_isoformat dt Hc Ho). eauto.
Qed.

Lemma normalised_due_date_reads_the_same_witness :
  parse_due "2025-03-09T00:00:00" = parse_due "2025-03-09"
  /\ exists dt, parse_due "2025-03-09T00:00:00" = Some dt.
Proof.
  apply (normalised_due_date_reads_the_same "2025-03-09" "2025-03-09T00:00:00").
  reflexivity.
Defined.

End ReadingBack.

(** ** The web variant: validation, ownership and what is stored *)

Section WebRequests.
Import WebApp.

Lemma web_title_cases (t : string) :
  Web.validate_task_title (Some t)
  = if negb (PyStr.truthy (PyStr.strip t))
    then (false, Some "Title is required and cannot be empty")
    else if (500 <? String.length t)%nat
         then (false, Some "Title cannot exceed 500 characters")
         else (true, None).
Proof.
  unfold Web.validate_task_title.
  destruct (String.eqb_spec t "") as [-> | N]; reflexivity.
Qed.

Lemma web_category_cases (c : option string) :
  Web.validate_task_category c
  = match c with
    | Some v => if (100 <? String.length v)%nat
                then (false, Some "Category cannot exceed 100 characters")
                else (true, None)
    | None => (true, None)
    end.
Proof.
  unfold Web.validate_task_category. destruct c as [v|]; [|reflexivity].
  destruct (String.eqb_spec v "") as [-> | N]; reflexivity.
Qed.

Lemma truthy_nonempty (x : string) : x <> "" -> PyStr.truthy x = true.
Proof. destruct x; [congruence | reflexivity]. Qed.

(** X26: what POST /api/todos answers, and what it stores.  A title
    that is empty or blank is answered with 400, whatever its length;
    a title that is not blank but longer than 500 characters with 422;
    a category longer than 100 characters (under a valid title) with
    422; in these cases the table is as it was.  Anything else is
    answered with 201 and the new task, which has the title as it was
    sent (not stripped), is not completed, belongs to the caller and
    is stored under its key, every other row being as it was. *)
Theorem create_todo_answers
    (s : Session) (user ttl : string) (descr : option string)
    (prio : Priority) (cat : option string)
    (due : option PyDatetime.datetime) (recurring : bool) :
  let resp := fst (create_todo s user ttl descr prio cat due recurring) in
  let s' := snd (create_todo s user ttl descr prio cat due recurring) in
  let long_category := exists c, cat = Some c /\ (100 < String.length c)%nat in
  (PyStr.strip ttl = "" ->
   resp = HTTPException 400 (Some "Title is required and cannot be empty")
   /\ s' = s)
  /\ (PyStr.strip ttl <> "" -> (500 < String.length ttl)%nat ->
      resp = HTTPException 422 (Some "Title cannot exceed 500 characters")
      /\ s' = s)
  /\ (PyStr.strip ttl <> "" -> (String.length ttl <= 500)%nat ->
      long_category ->
      resp = HTTPException 422 (Some "Category cannot exceed 100 characters")
      /\ s' = s)
  /\ (PyStr.strip ttl <> "" -> (String.length ttl <= 500)%nat ->
      ~ long_category ->
      exists t,
        resp = Return 201 (Some t)
        /\ columns t = mk_Columns ttl descr false prio cat due recurring user
        /\ get_task_by_id s' (id t) = Some t
        /\ forall i, i <> id t -> rows s' i = rows s i).
Proof.
  intros resp s' long_category. subst resp s'.
  unfold create_todo, create_task. rewrite web_title_cases, web_category_cases.
  split; [|split; [|split]].
  - intros Hb. rewrite Hb. cbn. auto.
  - intros Hb Hl. rewrite (truthy_nonempty _ Hb). cbn [negb].
    apply Nat.ltb_lt in Hl. rewrite Hl. cbn. auto.
  - intros Hb Hl (c & -> & Hc). rewrite (truthy_nonempty _ Hb).
    cbn [negb]. apply Nat.ltb_ge in Hl. rewrite Hl.
    apply Nat.ltb_lt in Hc. rewrite Hc. cbn. auto.
  - intros Hb Hl Hc. rewrite (truthy_nonempty _ Hb).
    cbn [negb]. apply Nat.ltb_ge in Hl. rewrite Hl.
    assert (E : match cat with
                | Some v => if (100 <? String.length v)%nat
                            then (false, Some "Category cannot exceed 100 characters")
                            else (true, @None string)
                | None => (true, None)
                end = (true, None)).
    { destruct cat as [v|]; [|reflexivity].
      destruct (100 <? String.length v)%nat eqn:El; [|reflexivity].
      exfalso. apply Hc. exists v. split; [reflexivity | now apply Nat.ltb_lt]. }
    rewrite E. cbn.
    eexists. split; [reflexivity|]. split; [reflexivity|]. split.
    + unfold get_task_by_id. cbn. now rewrite Z.eqb_refl.
    + intros i Hi. cbn in *. destruct (Z.eqb_spec i (last_id s + 1)); congruence.
Qed.

Lemma get_after_persist (s : Session) (t : Task) (i : Z) :
  get_task_by_id (persist s t) i
  = if i =? id t then Some (mk_Task i (columns t)) else get_task_by_id s i.
Proof.
  unfold get_task_by_id, persist. cbn. now destruct (i =? id t).
Qed.

Lemma get_task_id (s : Session) (i : Z) (t : Task) :
  get_task_by_id s i = Some t -> id t = i.
Proof.
  unfold get_task_by_id. destruct (rows s i); [|discriminate].
  intros H. injection H as <-. reflexivity.
Qed.

Lemma update_todo_refused (s : Session) (task_id : Z) (user : string)
    (ttl descr : option string) (done : option bool) (prio : option Priority)
    (cat : option string) (due : option PyDatetime.datetime)
    (recurring : option bool) :
  match fst (update_todo s task_id user ttl descr done prio cat due recurring) with
  | Return _ _ => True
  | _ => snd (update_todo s task_id user ttl descr done prio cat due recurring) = s
  end.
Proof.
  unfold update_todo, update_task.
  destruct (get_task_by_id s task_id) as [t|]; [|reflexivity].
  destruct (String.eqb (user_id t) user); [|reflexivity]. cbn [negb].
  destruct (match ttl with
            | Some _ => Web.validate_task_title ttl
            | None => (true, None)
            end) as [[|] te]; cbn [negb].
  2: { destruct te; reflexivity. }
  destruct (match cat with
            | Some _ => Web.validate_task_category cat
            | None => (true, None)
            end) as [[|] ce]; cbn [negb].
  2: { destruct ce; reflexivity. }
  exact I.
Qed.

(** X27: a task of somebody else is out of reach.  PUT and DELETE on
    /api/todos/{id} answer 404 "Task not found" and leave the table as
    it was when there is no task under the key or when it belongs to
    another user, so the two cases cannot be told apart; and whatever
    the request and its outcome, every row that belongs to another
    user is afterwards exactly what it was. *)
Theorem foreign_tasks_are_out_of_reach
    (s : Session) (task_id : Z) (user : string)
    (ttl descr : option string) (done : option bool) (prio : option Priority)
    (cat : option string) (due : option PyDatetime.datetime)
    (recurring : option bool) :
  let upd := update_todo s task_id user ttl descr done prio cat due recurring in
  let del := delete_todo s task_id user in
  (forall i t, get_task_by_id s i = Some t -> user_id t <> user ->
     get_task_by_id (snd upd) i = Some t /\ get_task_by_id (snd del) i = Some t)
  /\ (get_task_by_id s task_id = None
      \/ (exists t, get_task_by_id s task_id = Some t /\ user_id t <> user) ->
      upd = (HTTPException 404 (Some NOT_FOUND), s)
      /\ del = (HTTPException 404 (Some NOT_FOUND), s)).
Proof.
  intros upd del. split.
  - intros i t Hi Hu. split.
    + pose proof (update_todo_refused s task_id user ttl descr done prio cat
                    due recurring) as Href. fold upd in Href.
      destruct (fst upd) eqn:Eresp; try (rewrite Href; exact Hi).
      clear Href. subst upd. unfold update_todo, update_task in *.
      destruct (get_task_by_id s task_id) as [t0|] eqn:E0; [|discriminate Eresp].
      destruct (String.eqb_spec (user_id t0) user) as [Eu | Nu];
        [|discriminate Eresp].
      cbn [negb] in *.
      destruct (match ttl with
                | Some _ => Web.validate_task_title ttl
                | None => (true, None)
                end) as [[|] te]; cbn [negb] in *.
      2: { destruct te; discriminate Eresp. }
      destruct (match cat with
                | Some _ => Web.validate_task_category cat
                | None => (true, None)
                end) as [[|] ce]; cbn [negb] in *.
      2: { destruct ce; discriminate Eresp. }
      unfold db_update_task. cbn [fst snd success negb].
      rewrite get_after_persist. cbn [id].
      destruct (Z.eqb_spec i (id t0)) as [Ei | Ni]; [|exact Hi].
      exfalso. apply Hu. rewrite (get_task_id _ _ _ E0) in Ei. subst i.
      congruence.
    + subst del. unfold delete_todo, delete_task.
      destruct (get_task_by_id s task_id) as [t0|] eqn:E0; [|exact Hi].
      destruct (String.eqb_spec (user_id t0) user) as [Eu | Nu]; [|exact Hi].
      cbn [negb fst snd success]. unfold get_task_by_id, db_delete_task.
      cbn [rows]. cbv beta.
      destruct (Z.eqb_spec i (id t0)) as [Ei | Ni]; [|exact Hi].
      exfalso. apply Hu. rewrite (get_task_id _ _ _ E0) in Ei. subst i.
      congruence.
  - intros H. subst upd del. unfold update_todo, update_task, delete_todo, delete_task.
    destruct H as [-> | (t & -> & Hu)]; [split; reflexivity|].
    destruct (String.eqb_spec (user_id t) user) as [Eu | Nu]; [contradiction|].
    split; reflexivity.
Qed.



End WebRequests.

(** ** A failure behind the write *)

Section LateFailure.
Import PyStr Models World Storage Skills.

Lemma load_tasks_step dsk rest clk tk out l :
  dsk TODOS_FILE = Some (Tasks l) ->
  load_tasks (mk_world dsk (NoFault :: rest) clk tk out)
  = (Ok l, mk_world dsk rest clk tk out).
Proof.
  intros Hd. unfold load_tasks, try_except, bind, path_exists, read_file,
    syscall, bind, next_fault, json_load, ret, TODOS_FILE in *.
  cbn. rewrite Hd. cbn. rewrite Hd. reflexivity.
Qed.

Lemma load_tasks_fails dsk f rest clk tk out l :
  dsk TODOS_FILE = Some (Tasks l) -> f <> NoFault ->
  exists m,
    load_tasks (mk_world dsk (f :: rest) clk tk out)
    = (Raise (mk_exn StorageError m), mk_world dsk rest clk tk out).
Proof.
  intros Hd Hf. unfold load_tasks, try_except, bind, path_exists, read_file,
    syscall, bind, next_fault, json_load, ret, TODOS_FILE in *.
  cbn. rewrite Hd. cbn.
  destruct f as [| |detail]; [contradiction | |]; cbn; eexists; reflexivity.
Qed.

Lemma save_tasks_step dsk rest clk tk out tasks :
  save_tasks tasks (mk_world dsk (NoFault :: NoFault :: NoFault :: rest) clk tk out)
  = (Ok true,
     mk_world (upd (upd (upd (upd dsk TEMP_FILE (Some (Malformed "")))
                           TEMP_FILE (Some (Tasks tasks)))
                      TODOS_FILE (Some (Tasks tasks)))
                 TEMP_FILE None)
       rest clk tk out).
Proof. reflexivity. Qed.

Lemma find_task_by_id_step task_id dsk rest clk tk out l :
  dsk TODOS_FILE = Some (Tasks l) ->
  find_task_by_id task_id (mk_world dsk (NoFault :: rest) clk tk out)
  = (Ok (first_with_id task_id l), mk_world dsk rest clk tk out).
Proof.
  intros Hd. unfold find_task_by_id, try_except, bind.
  rewrite (load_tasks_step _ _ _ _ _ l Hd). reflexivity.
Qed.

Lemma find_task_by_id_fails task_id dsk f rest clk tk out l :
  dsk TODOS_FILE = Some (Tasks l) -> f <> NoFault ->
  exists m,
    find_task_by_id task_id (mk_world dsk (f :: rest) clk tk out)
    = (Raise (mk_exn StorageError m), mk_world dsk rest clk tk out).
Proof.
  intros Hd Hf. destruct (load_tasks_fails _ _ rest clk tk out l Hd Hf) as (m & E).
  unfold find_task_by_id, try_except, bind. rewrite E.
  eexists. reflexivity.
Qed.

Lemma store_update_step task_id updates dsk rest clk tk out l d :
  dsk TODOS_FILE = Some (Tasks l) ->
  first_with_id task_id l = Some d ->
  exists dsk',
    Storage.update_task task_id updates
      (mk_world dsk (NoFault :: NoFault :: NoFault :: NoFault :: rest) clk tk out)
    = (Ok true, mk_world dsk' rest clk (S tk) out)
    /\ dsk' TODOS_FILE
       = Some (Tasks (update_first task_id (touched updates (clk tk)) l)).
Proof.
  intros Hd Hf. unfold Storage.update_task, try_except. unfold bind at 1.
  rewrite (load_tasks_step _ _ _ _ _ l Hd).
  unfold bind at 1. rewrite update_loop_spec, Hf.
  unfold tick. cbn [fst snd negb disk plan clock ticks stdout].
  unfold bind. rewrite save_tasks_step. unfold ret.
  eexists. split; [reflexivity|]. reflexivity.
Qed.

(** X30.  An update can be reported as failed although it has been
    made: when the record is found, the request is valid and the store
    is rewritten, and only the last reading of the store fails,
    [update_task] answers [STORAGE_ERROR] without data, while the file
    holds the list with the record updated and restamped. *)
Theorem update_can_fail_after_writing (task_id : Z)
    (ttl priority category st due_date : option string)
    (acc : list Storage.field_update * list string)
    (dsk : string -> option content) (f : fault) (rest : list fault)
    (clk : nat -> PyDatetime.datetime) (tk : nat) (out : list string)
    (l : list task_dict) (d : task_dict) :
  dsk TODOS_FILE = Some (Tasks l) ->
  first_with_id task_id l = Some d ->
  existsb given [ttl; priority; category; st; due_date] = true ->
  build_updates ttl priority category st due_date = Ok acc ->
  f <> NoFault ->
  exists r w' l',
    Skills.update_task task_id ttl priority category st due_date
      (mk_world dsk
         (NoFault :: NoFault :: NoFault :: NoFault :: NoFault :: f :: rest)
         clk tk out)
    = (Ok r, w')
    /\ success r = false /\ data r = None /\ error_code r = Some ERR_STORAGE
    /\ disk w' TODOS_FILE = Some (Tasks l')
    /\ l' = update_first task_id (touched (fst acc) (clk tk)) l
    /\ first_with_id task_id l' = Some (touched (fst acc) (clk tk) d)
    /\ d_updated_at (touched (fst acc) (clk tk) d) = Some (stamp (clk tk)).
Proof.
  intros Hd Hf Hg Hb Hnf.
  destruct (store_update_step task_id (fst acc) dsk (f :: rest)
              clk tk out l d Hd Hf) as (dsk' & Eu & Hd').
  destruct (find_task_by_id_fails task_id dsk' f rest clk (S tk) out _ Hd' Hnf)
    as (m & Ef2).
  unfold Skills.update_task, try_except. rewrite Hg. cbn [negb].
  unfold bind at 1. rewrite (find_task_by_id_step _ _ _ _ _ _ l Hd), Hf.
  unfold bind at 1. unfold lift at 1. rewrite Hb.
  unfold bind at 1.
  rewrite Eu. unfold bind at 1. rewrite Ef2.
  rewrite on_error_storage by reflexivity.
  eexists _, _, _. split; [reflexivity|].
  cbn [success data error_code error_result msg disk].
  repeat split; auto.
  - apply first_with_id_update; [intros; apply touched_id | exact Hf].
Qed.

Lemma update_can_fail_after_writing_witness :
  let w := with_plan [NoFault; NoFault; NoFault; NoFault; NoFault; Denied]
             (world_with [milk; chore]) in
  let oat := touched [Storage.UTitle "Buy oat milk"] (clock w (ticks w)) in
  exists r w' l',
    Skills.update_task 1 (Some " Buy oat milk ") None None None None w = (Ok r, w')
    /\ success r = false /\ data r = None /\ error_code r = Some ERR_STORAGE
    /\ disk w' TODOS_FILE = Some (Tasks l')
    /\ l' = update_first 1 oat [milk; chore]
    /\ first_with_id 1 l' = Some (oat milk)
    /\ d_updated_at (oat milk) = Some (stamp (clock w (ticks w))).
Proof.
  apply (update_can_fail_after_writing 1 (Some " Buy oat milk ") None None None None
           ([Storage.UTitle "Buy oat milk"], ["title"])
           (disk (world_with [milk; chore])) Denied []
           (clock (world_with [milk; chore])) 0 [] [milk; chore] milk);
    [reflexivity | reflexivity | reflexivity | reflexivity | discriminate].
Defined.

End LateFailure.

(** ** Worked examples *)

(** Creating "Buy milk" on an empty store. *)
Example scenario_add :
  payload_task (fst (Skills.add_task "Buy milk" "medium" "general" None fresh_world))
  = Some (Models.mk_task_dict 1 "Buy milk" "medium" "general" "pending" false
            "2025-01-15T10:00:00Z" None None None).
Proof. vm_compute. reflexivity. Qed.

(** A save that fails at the rename: the store holds what it held and
    the temporary file is gone. *)
Example interrupted_save :
  let run := Storage.save_tasks []
               (with_plan [World.NoFault; World.NoFault;
                           World.IOFail "No space left on device"]
                  (world_with [milk])) in
  fst run = Raise (mk_exn StorageError "Disk error: No space left on device")
  /\ World.disk (snd run) Storage.TODOS_FILE = Some (World.Tasks [milk])
  /\ World.disk (snd run) Storage.TEMP_FILE = None.
Proof. vm_compute. repeat split; reflexivity. Qed.

(** The same failure with the removal of the temporary file failing as
    well: the store still holds what it held, the temporary file stays. *)
Example interrupted_save_and_cleanup :
  let run := Storage.save_tasks []
               (with_plan [World.NoFault; World.NoFault;
                           World.IOFail "No space left on device"; World.Denied]
                  (world_with [milk])) in
  World.disk (snd run) Storage.TODOS_FILE = Some (World.Tasks [milk])
  /\ World.disk (snd run) Storage.TEMP_FILE = Some (World.Tasks []).
Proof. vm_compute. split; reflexivity. Qed.

(** Deleting without [force] asks for confirmation and removes nothing;
    with [force] the task is gone. *)
Example scenario_delete :
  let asked := Skills.delete_task 1 false (world_with [milk]) in
  let done := Skills.delete_task 1 true (snd asked) in
  option_map Models.data
    (match fst asked with Ok r => Some r | Raise _ => None end)
  = Some (Some (Models.PConfirm milk))
  /\ stored_tasks (World.disk (snd asked) Storage.TODOS_FILE) = Some [milk]
  /\ stored_tasks (World.disk (snd done) Storage.TODOS_FILE) = Some []
  /\ fst (Storage.find_task_by_id 1 (snd done)) = Ok None.
Proof. vm_compute. repeat split; reflexivity. Qed.

(** Setting the status to completed sets the flag with it. *)
Example complete_by_update :
  option_map (fun d => (Models.d_status d, Models.d_completed d))
    (payload_task (fst (Skills.update_task 1 None None None (Some "Completed")
                          None (world_with [milk]))))
  = Some ("completed", true).
Proof. vm_compute. reflexivity. Qed.

(** On the 15th at 10:00 a task due on the 14th is overdue, one due at
    22:00 is not. *)
Example overdue_yesterday :
  listed_ids
    (fst (Skills.get_overdue_tasks
            (world_with [Models.mk_task_dict 7 "Pay rent" "high" "home" "pending"
                           false "2025-01-01T09:00:00Z" None None
                           (Some "2025-01-14T00:00:00Z");
                         errand])))
  = Some [7].
Proof. vm_compute. reflexivity. Qed.
